(** * Signal-state synchronisation of the Project Label extension

    A shallow embedding of the sound-signal code of [extension.ts]
    ([ALL_SOUND_SIGNALS], [setSilenceAllSounds], [updateSoundStatusBar]),
    of the host side of [settingsPanel.ts] (the message handler,
    [_sendSignalStates], [_doSendSignalStates], [_sendCurrentSettings]) and
    of the script of the settings web view ([applySignalStates],
    [syncMasterCheckbox], [applySettings]).

    The configuration store, the timers and the message channel belong to
    the editor.  They are modelled as one [World] that the code reads and
    writes; which writes the store rejects and when each write settles is
    chosen by a [Host].  While a write is in flight time passes and the
    timers of the panel that fall due fire.  Further messages or
    notifications arriving while a handler awaits are outside the model,
    and so is the listener of extension.ts on [projectLabel] changes, which
    starts a run of [setSilenceAllSounds(true)] of its own when the flag
    becomes [true].

    The second part embeds the rest of the extension: the toggle command
    and the Copilot Chat silence of [extension.ts], its title bar
    functions and [toggleBoolSetting], the detection of the profile, the
    label, the status bar item and the window title, the tree of
    [treeViewProvider.ts], and of [settingsPanel.ts] the generic settings
    and the preview of the page.  Its state is an [Editor]: the [World]
    with what these functions read and write besides.  Every function is
    taken by itself, as before: what the listener of extension.ts starts
    when a setting of [projectLabel] changes is not part of a call.  The
    text inputs of the page, with the timers of their own that the page
    runs, are the module [Form]. *)

From Stdlib Require Import Ascii.
From stdpp Require Import gmap strings list sorting.

Local Open Scope string_scope.
Local Open Scope list_scope.
Local Open Scope nat_scope.

(** ** The signal registry *)

(** [ALL_SOUND_SIGNALS] of extension.ts, in array order. *)
Definition ALL_SOUND_SIGNALS : list string :=
  [ "chatEditModifiedFile"; "chatRequestSent"; "chatResponseReceived";
    "chatUserActionRequired"; "editsKept"; "nextEditSuggestion";
    "codeActionApplied"; "codeActionTriggered"; "clear"; "progress";
    "lineHasBreakpoint"; "lineHasError"; "lineHasFoldedArea";
    "lineHasInlineSuggestion"; "lineHasWarning"; "noInlayHints";
    "onDebugBreak";
    "taskCompleted"; "taskFailed";
    "terminalBell"; "terminalCommandFailed"; "terminalCommandSucceeded";
    "terminalQuickFix";
    "diffLineDeleted"; "diffLineInserted"; "diffLineModified";
    "notebookCellCompleted"; "notebookCellFailed";
    "voiceRecordingStarted"; "voiceRecordingStopped";
    "save"; "format";
    "positionHasError"; "positionHasWarning" ].

(** [SettingsPanel.ALL_SIGNALS] of settingsPanel.ts, in array order. *)
Definition ALL_SIGNALS : list string :=
  [ "chatEditModifiedFile"; "chatRequestSent"; "chatResponseReceived";
    "chatUserActionRequired"; "editsKept"; "nextEditSuggestion";
    "codeActionApplied"; "codeActionTriggered"; "clear"; "progress";
    "lineHasBreakpoint"; "lineHasError"; "lineHasFoldedArea";
    "lineHasInlineSuggestion"; "lineHasWarning"; "noInlayHints";
    "onDebugBreak"; "taskCompleted"; "taskFailed";
    "terminalBell"; "terminalCommandFailed"; "terminalCommandSucceeded";
    "terminalQuickFix"; "diffLineDeleted"; "diffLineInserted";
    "diffLineModified"; "notebookCellCompleted"; "notebookCellFailed";
    "voiceRecordingStarted"; "voiceRecordingStopped";
    "save"; "format"; "positionHasError"; "positionHasWarning" ].

(** The [data-signal] attributes of the [.signal-cb] check boxes of the
    web view, in document order. *)
Definition SIGNAL_CHECKBOXES : list string :=
  [ "chatRequestSent"; "chatResponseReceived"; "chatUserActionRequired";
    "chatEditModifiedFile"; "editsKept"; "nextEditSuggestion";
    "codeActionApplied"; "codeActionTriggered"; "clear"; "progress";
    "lineHasError"; "lineHasWarning"; "lineHasBreakpoint";
    "lineHasFoldedArea"; "lineHasInlineSuggestion"; "noInlayHints";
    "onDebugBreak"; "positionHasError"; "positionHasWarning";
    "taskCompleted"; "taskFailed";
    "terminalBell"; "terminalCommandFailed"; "terminalCommandSucceeded";
    "terminalQuickFix";
    "diffLineDeleted"; "diffLineInserted"; "diffLineModified";
    "notebookCellCompleted"; "notebookCellFailed";
    "voiceRecordingStarted"; "voiceRecordingStopped";
    "save"; "format" ].

(** ** The configuration store *)

(** A value of [accessibility.signals.<key>], read by the code at the type
    [{ sound?: string }]. *)
Record SignalValue := { sound : option string }.

(** The two configuration sections the code touches:
    [accessibility.signals] and the boolean settings of [projectLabel]. *)
Record Config := mkConfig {
  signals : gmap string SignalValue;
  projectLabel : gmap string bool
}.

(** [{ sound: silent ? 'off' : 'on' }] *)
Definition sound_value (silent : bool) : SignalValue :=
  {| sound := Some (if silent then "off" else "on") |}.

(** [val?.sound === 'off'] for [val = signals.get(key)]. *)
Definition sound_is_off (val : option SignalValue) : bool :=
  match val with
  | Some {| sound := Some s |} => bool_decide (s = "off")
  | _ => false
  end.

(** [config.get<boolean>(key, dflt)] on the [projectLabel] section. *)
Definition get_bool (c : Config) (key : string) (dflt : bool) : bool :=
  default dflt (projectLabel c !! key).

(** ** Messages between the panel and its web view *)

(** The boolean fields of the [settingsUpdate] payload; its string and
    number fields play no part in the signal protocol. *)
Record Settings := mkSettings {
  showProjectName : bool;
  showProfile : bool;
  updateWindowTitle : bool;
  showInStatusBar : bool;
  useNativeTitleBar : bool;
  silenceAllSounds : bool
}.

Inductive Outbound :=
| settingsUpdate (settings : Settings)
| signalStates (states : gmap string bool).

(** The messages of the signal protocol; [updateSetting] and [runCommand]
    pass generic settings and commands through and are left out. *)
Inductive Inbound :=
| updateSignal (signal : string) (value : bool)
| silenceAll (value : bool)
| requestSignals
| requestSettings.

(** ** The world the code runs in *)

(** What a [setTimeout] of the panel calls when it fires. *)
Inductive Callback :=
| CbDoSendSignalStates   (* () => this._doSendSignalStates(), 300 ms *)
| CbSendCurrentSettings. (* () => this._sendCurrentSettings(), 200 ms *)

#[export] Instance Callback_eq_dec : EqDecision Callback.
Proof. solve_decision. Defined.

Record Timer := mkTimer { handle : nat; due : nat; callback : Callback }.

(** What an observer outside the code can see, in order: the store as the
    panel found it or as someone else changed it, the writes of the code as
    they settle, the notices it shows and the messages it posts. *)
Inductive Event :=
| StoreReplaced (c : Config)
| WriteSettled (key : string) (value : SignalValue) (ok : bool)
| SettingWriteSettled (value : bool) (ok : bool)
| InformationMessage (silent : bool)
| SoundStatusBar (silent : bool)
| Posted (msg : Outbound).

Record World := mkWorld {
  config : Config;
  clock : nat;                      (* milliseconds *)
  timers : list Timer;              (* pending timeouts, oldest first *)
  next_handle : nat;
  _signalDebounce : option nat;     (* the panel's field: undefined, or a
                                       timer handle, an object, so truthy *)
  trace : list Event                (* oldest first *)
}.

(** The choices the editor makes: which writes it rejects and how long each
    write is in flight. *)
Record Host := mkHost {
  rejects : string → bool;     (* a write to accessibility.signals.<key> *)
  rejects_setting : bool;      (* a write to projectLabel.silenceAllSounds *)
  settles_after : string → nat;  (* ms from issue to settlement, per key *)
  setting_settles_after : nat  (* the same for the projectLabel write *)
}.

Definition emit (e : Event) (w : World) : World :=
  mkWorld (config w) (clock w) (timers w) (next_handle w)
          (_signalDebounce w) (trace w ++ [e]).

Definition with_config (c : Config) (w : World) : World :=
  mkWorld c (clock w) (timers w) (next_handle w) (_signalDebounce w) (trace w).

Definition with_debounce (d : option nat) (w : World) : World :=
  mkWorld (config w) (clock w) (timers w) (next_handle w) d (trace w).

Definition with_clock (t : nat) (w : World) : World :=
  mkWorld (config w) t (timers w) (next_handle w) (_signalDebounce w) (trace w).

(** [setTimeout(cb, ms)]: a fresh handle, due [ms] after now. *)
Definition setTimeout (cb : Callback) (ms : nat) (w : World) : nat * World :=
  (next_handle w,
   mkWorld (config w) (clock w)
           (timers w ++ [mkTimer (next_handle w) (clock w + ms) cb])
           (S (next_handle w)) (_signalDebounce w) (trace w)).

(** [clearTimeout(t)]: no effect on a handle that fired or was cleared. *)
Definition clearTimeout (t : nat) (w : World) : World :=
  mkWorld (config w) (clock w)
          (filter (λ tm, handle tm ≠ t) (timers w))
          (next_handle w) (_signalDebounce w) (trace w).

(** [this._panel.webview.postMessage(msg)] *)
Definition postMessage (msg : Outbound) : World → World := emit (Posted msg).

(** ** settingsPanel.ts: sending *)

(** The [states] object [_doSendSignalStates] builds: one assignment
    [states[key] = val?.sound === 'off'] per element of [ALL_SIGNALS]. *)
Definition read_states (sig : gmap string SignalValue) : gmap string bool :=
  foldl (λ states key, <[key := sound_is_off (sig !! key)]> states) ∅ ALL_SIGNALS.

Definition _doSendSignalStates (w : World) : World :=
  postMessage (signalStates (read_states (signals (config w)))) w.

Definition _sendSignalStates (w : World) : World :=
  let w1 := match _signalDebounce w with
            | Some t => clearTimeout t w
            | None => w
            end in
  let '(t, w2) := setTimeout CbDoSendSignalStates 300 w1 in
  with_debounce (Some t) w2.

(** The [settings] object [_sendCurrentSettings] builds. *)
Definition current_settings (c : Config) : Settings :=
  {| showProjectName := get_bool c "showProjectName" true;
     showProfile := get_bool c "showProfile" true;
     updateWindowTitle := get_bool c "updateWindowTitle" true;
     showInStatusBar := get_bool c "showInStatusBar" true;
     useNativeTitleBar := get_bool c "useNativeTitleBar" false;
     silenceAllSounds := get_bool c "silenceAllSounds" false |}.

Definition _sendCurrentSettings (w : World) : World :=
  _sendSignalStates
    (postMessage (settingsUpdate (current_settings (config w))) w).

(** [_update]: the settings are sent 200 ms later. *)
Definition _update (w : World) : World :=
  snd (setTimeout CbSendCurrentSettings 200 w).

(** The panel's listener on [vscode.workspace.onDidChangeConfiguration]. *)
Definition onDidChangeConfiguration
    (affectsProjectLabel affectsSignals : bool) (w : World) : World :=
  let w1 := if affectsProjectLabel then _sendCurrentSettings w else w in
  if affectsSignals then _sendSignalStates w1 else w1.

(** ** Time *)

Definition run_callback (cb : Callback) : World → World :=
  match cb with
  | CbDoSendSignalStates => _doSendSignalStates
  | CbSendCurrentSettings => _sendCurrentSettings
  end.

(** A due timer fires unless an earlier callback cleared it; once fired it
    is no longer pending. *)
Definition fire (t : nat) (w : World) : World :=
  match list_find (λ tm, handle tm = t) (timers w) with
  | Some (_, tm) => run_callback (callback tm) (clearTimeout t w)
  | None => w
  end.

(** One millisecond passes; the timers now due fire, oldest first. *)
Definition tick (w : World) : World :=
  let w1 := with_clock (S (clock w)) w in
  foldl (λ w' t, fire t w') w1
        (handle <$> filter (λ tm, due tm ≤ clock w1) (timers w1)).

Definition elapse (ms : nat) (w : World) : World := Nat.iter ms tick w.

(** Time passes until the clock shows [t]. *)
Definition wait_until (t : nat) (w : World) : World := elapse (t - clock w) w.

(** ** Promises *)

Inductive Outcome (A : Type) :=
| Fulfilled (a : A)
| Rejected.
Arguments Fulfilled {A} a.
Arguments Rejected {A}.

(** An asynchronous operation run to its settlement. *)
Definition Async (A : Type) : Type := World → Outcome A * World.

Definition resolve {A} (a : A) : Async A := λ w, (Fulfilled a, w).

(** [await p; k]: a rejection of [p] skips [k]. *)
Definition await {A B} (p : Async A) (k : A → Async B) : Async B :=
  λ w, match p w with
       | (Fulfilled a, w1) => k a w1
       | (Rejected, w1) => (Rejected, w1)
       end.

(** [p.then(undefined, onRejected)], and [try { await p } catch { ... }]. *)
Definition catch {A} (p : Async A) (onRejected : Async A) : Async A :=
  λ w, match p w with
       | (Fulfilled a, w1) => (Fulfilled a, w1)
       | (Rejected, w1) => onRejected w1
       end.

(** A synchronous statement inside an async function. *)
Definition sync (f : World → World) : Async unit := λ w, (Fulfilled tt, f w).

(** [Promise.all(ps)], the elements listed in the order they settle: every
    element settles; the result is rejected when one of them is. *)
Fixpoint Promise_all (ps : list (Async unit)) : Async unit :=
  match ps with
  | [] => resolve tt
  | p :: ps' =>
      λ w, let '(r, w1) := p w in
           let '(rs, w2) := Promise_all ps' w1 in
           (match r with Fulfilled _ => rs | Rejected => Rejected end, w2)
  end.

#[export] Instance Async_ret : MRet Async := @resolve.
#[export] Instance Async_bind : MBind Async := λ A B k p, await p k.

(** ** The editor's configuration API *)

(** [signals.update(key, value, ConfigurationTarget.Global)], called when
    the clock showed [issued].  The write settles [settles_after h key] ms
    later.  A rejected write leaves the store as it was.  An accepted one
    stores the value and the editor then notifies the panel's configuration
    listener. *)
Definition signals_update (h : Host) (issued : nat) (key : string)
    (value : SignalValue) : Async unit :=
  λ w0,
    let w := wait_until (issued + settles_after h key) w0 in
    if rejects h key
    then (Rejected, emit (WriteSettled key value false) w)
    else
      let c := config w in
      (Fulfilled tt,
       onDidChangeConfiguration false true
         (emit (WriteSettled key value true)
            (with_config (mkConfig (<[key := value]> (signals c))
                                   (projectLabel c)) w))).

(** [getConfiguration('projectLabel').update('silenceAllSounds', silent,
    ConfigurationTarget.Global)] *)
Definition setting_update (h : Host) (silent : bool) : Async unit :=
  λ w0,
    let w := elapse (setting_settles_after h) w0 in
    if rejects_setting h
    then (Rejected, emit (SettingWriteSettled silent false) w)
    else
      let c := config w in
      (Fulfilled tt,
       onDidChangeConfiguration true false
         (emit (SettingWriteSettled silent true)
            (with_config
               (mkConfig (signals c)
                         (<["silenceAllSounds" := silent]> (projectLabel c)))
               w))).

(** The order in which writes issued together settle: by the time each is
    in flight. *)
Definition settles_before (h : Host) (a b : string) : Prop :=
  settles_after h a ≤ settles_after h b.

#[export] Instance settles_before_dec h a b : Decision (settles_before h a b).
Proof. unfold settles_before. apply _. Defined.

Definition settle_order (h : Host) (keys : list string) : list string :=
  merge_sort (settles_before h) keys.

(** ** extension.ts *)

(** [updateSoundStatusBar]: the persisted flag, overridden by the actual
    state of the sample signal [chatResponseReceived]. *)
Definition status_silent (c : Config) : bool :=
  let silent := get_bool c "silenceAllSounds" false in
  match signals c !! "chatResponseReceived" with
  | Some {| sound := Some s |} => if bool_decide (s = "off") then true else silent
  | _ => silent
  end.

Definition updateSoundStatusBar (w : World) : World :=
  emit (SoundStatusBar (status_silent (config w))) w.

(** [vscode.window.showInformationMessage(silent ? ... : ...)] *)
Definition showInformationMessage (silent : bool) : World → World :=
  emit (InformationMessage silent).

(** The [map] issues all 34 writes at once; they settle one after the
    other in [settle_order]. *)
Definition setSilenceAllSounds (h : Host) (silent : bool) : Async unit :=
  λ w0,
    let value := sound_value silent in
    (Promise_all
       ((λ key, catch (signals_update h (clock w0) key value) (resolve tt))
          <$> settle_order h ALL_SOUND_SIGNALS) ;;
     catch (setting_update h silent) (resolve tt) ;;
     sync (showInformationMessage silent) ;;
     sync updateSoundStatusBar) w0.

(** [vscode.commands.executeCommand(cmd)] for the two commands the panel
    runs; a command that is not registered rejects. *)
Definition executeCommand (h : Host) (cmd : string) : Async unit :=
  if bool_decide (cmd = "projectLabel.silenceAllSounds")
  then setSilenceAllSounds h true
  else if bool_decide (cmd = "projectLabel.unsilenceAllSounds")
  then setSilenceAllSounds h false
  else λ w, (Rejected, w).

(** ** settingsPanel.ts: the message handler *)

Definition onDidReceiveMessage (h : Host) (msg : Inbound) : Async unit :=
  match msg with
  | updateSignal signal value =>
      let val := sound_value value in
      λ w, catch (signals_update h (clock w) signal val) (resolve tt) w
  | silenceAll value =>
      let cmd := if value then "projectLabel.silenceAllSounds"
                 else "projectLabel.unsilenceAllSounds" in
      executeCommand h cmd ;;
      sync (λ w, match _signalDebounce w with
                 | Some t => with_debounce None (clearTimeout t w)
                 | None => w
                 end) ;;
      sync _doSendSignalStates
  | requestSignals => sync _sendSignalStates
  | requestSettings => sync _sendCurrentSettings
  end.

(** ** The panel as a reactive system *)

(** What can happen to the panel: a message from the web view arrives;
    someone else changes the store, which then is [c], and the editor
    notifies the listener, telling which sections the change affects; time
    passes; [SettingsPanel.show] reveals the open panel and runs
    [_update]. *)
Inductive Input :=
| Received (msg : Inbound)
| ConfigurationChanged (c : Config) (affectsProjectLabel affectsSignals : bool)
| Elapsed (ms : nat)
| Revealed.

Definition step (h : Host) (i : Input) (w : World) : World :=
  match i with
  | Received msg => snd (onDidReceiveMessage h msg w)
  | ConfigurationChanged c pl sg =>
      onDidChangeConfiguration pl sg (emit (StoreReplaced c) (with_config c w))
  | Elapsed ms => elapse ms w
  | Revealed => _update w
  end.

Definition run (h : Host) (inputs : list Input) (w : World) : World :=
  foldl (λ w' i, step h i w') w inputs.

(** The panel right after its constructor ran [_update], over the store
    [c] it found. *)
Definition opened (c : Config) (now : nat) : World :=
  _update (mkWorld c now [] 0 None [StoreReplaced c]).

Inductive reachable : World → Prop :=
| reachable_opened c now : reachable (opened c now)
| reachable_step h i w : reachable w → reachable (step h i w).

(** ** The web view *)

Module Webview.

(** The check boxes of the page: the generic ones by element id, the
    [.signal-cb] ones in document order with their [data-signal] key, and
    the master box [#silenceAllSounds]. *)
Record Page := mkPage {
  checks : gmap string bool;
  signal_cbs : list (string * bool);
  masterCb : bool
}.

(** The page as loaded: nothing checked. *)
Definition loaded : Page :=
  mkPage ∅ ((λ key, (key, false)) <$> SIGNAL_CHECKBOXES) false.

(** [setCheck(id, val)] for an element that exists. *)
Definition setCheck (id : string) (val : bool) (p : Page) : Page :=
  mkPage (<[id := val]> (checks p)) (signal_cbs p) (masterCb p).

(** Of [applySettings], the check boxes; the text inputs, the selects and
    the preview it also sets carry no signal state. *)
Definition applySettings (s : Settings) (p : Page) : Page :=
  setCheck "useNativeTitleBar" (useNativeTitleBar s)
    (setCheck "updateWindowTitle" (updateWindowTitle s)
       (setCheck "showInStatusBar" (showInStatusBar s)
          (setCheck "showProfile" (showProfile s)
             (setCheck "showProjectName" (showProjectName s) p)))).

Definition syncMasterCheckbox (p : Page) : Page :=
  mkPage (checks p) (signal_cbs p) (forallb snd (signal_cbs p)).

Definition applySignalStates (states : gmap string bool) (p : Page) : Page :=
  syncMasterCheckbox
    (mkPage (checks p)
       ((λ el : string * bool,
           let key := fst el in
           if bool_decide (key ≠ "") then
             match states !! key with
             | Some b => (key, b)
             | None => el
             end
           else el) <$> signal_cbs p)
       (masterCb p)).

(** The [message] listener of the page. *)
Definition on_message (msg : Outbound) (p : Page) : Page :=
  match msg with
  | settingsUpdate s => applySettings s p
  | signalStates states => applySignalStates states p
  end.

(** The [change] listener of the master box: every signal box takes the
    new value, one [silenceAll] intent is posted. *)
Definition master_changed (silent : bool) (p : Page) : Page * list Inbound :=
  (mkPage (checks p) ((λ el, (fst el, silent)) <$> signal_cbs p) silent,
   [silenceAll silent]).

(** The [change] listener of one signal box, whose new value is [checked]. *)
Definition signal_changed (key : string) (checked : bool) (p : Page)
  : Page * list Inbound :=
  (syncMasterCheckbox
     (mkPage (checks p)
        ((λ el : string * bool,
            if bool_decide (fst el = key) then (key, checked) else el)
           <$> signal_cbs p)
        (masterCb p)),
   [updateSignal key checked]).

End Webview.

(** * Vocabulary of the properties *)

(** ** What a trace records *)

Definition signal_writes (t : list Event) : list (string * SignalValue * bool) :=
  omap (λ e, match e with
             | WriteSettled k v ok => Some (k, v, ok)
             | _ => None
             end) t.

Definition setting_writes (t : list Event) : list (bool * bool) :=
  omap (λ e, match e with
             | SettingWriteSettled v ok => Some (v, ok)
             | _ => None
             end) t.

Definition snapshots_sent (t : list Event) : list (gmap string bool) :=
  omap (λ e, match e with
             | Posted (signalStates st) => Some st
             | _ => None
             end) t.

Definition is_post (e : Event) : Prop :=
  match e with
  | Posted _ => True
  | _ => False
  end.

(** The events that stand for no change of the store and for no message. *)
Definition notice (e : Event) : Prop :=
  match e with
  | WriteSettled _ _ false | SettingWriteSettled _ false
  | InformationMessage _ | SoundStatusBar _ => True
  | _ => False
  end.

(** The signal section of the store after an event, and after a trace. *)
Definition store_step (sig : gmap string SignalValue) (e : Event)
  : gmap string SignalValue :=
  match e with
  | StoreReplaced c => signals c
  | WriteSettled k v true => <[k := v]> sig
  | _ => sig
  end.

Definition store_after (sig : gmap string SignalValue) (t : list Event)
  : gmap string SignalValue :=
  foldl store_step sig t.

(** Every snapshot posted in a trace, with the signal section of the store
    as it was at that moment. *)
Fixpoint snapshots_with_store (sig : gmap string SignalValue) (t : list Event)
  : list (gmap string bool * gmap string SignalValue) :=
  match t with
  | [] => []
  | Posted (signalStates st) :: t' => (st, sig) :: snapshots_with_store sig t'
  | e :: t' => snapshots_with_store (store_step sig e) t'
  end.

(** ** What the writes leave in the store *)

(** The signal section after the writes to [keys] settled in that order,
    [rej] telling the rejected ones. *)
Definition apply_writes (rej : string → bool) (v : SignalValue)
    (keys : list string) (sig : gmap string SignalValue)
  : gmap string SignalValue :=
  foldl (λ m k, if rej k then m else <[k := v]> m) sig keys.

(** The [projectLabel] section after the write of the master flag. *)
Definition apply_setting_write (rejected : bool) (silent : bool)
    (pl : gmap string bool) : gmap string bool :=
  if rejected then pl else <["silenceAllSounds" := silent]> pl.

(** ** The discipline of the panel *)

(** The pending timers that will run [_doSendSignalStates]. *)
Definition debounce_timers (w : World) : list Timer :=
  filter (λ tm, callback tm = CbDoSendSignalStates) (timers w).

(** Handles are handed out once, and a pending debounce timer is the one
    the panel's field holds. *)
Record timers_ok (w : World) : Prop := {
  handles_fresh : ∀ tm, tm ∈ timers w → handle tm < next_handle w;
  handles_NoDup : NoDup (handle <$> timers w);
  debounce_tracked :
    ∀ tm, tm ∈ timers w → callback tm = CbDoSendSignalStates →
          _signalDebounce w = Some (handle tm)
}.

(** Every snapshot in the trace is the reading of the store as it was when
    the snapshot was posted. *)
Definition read_when_posted (t : list Event) : Prop :=
  Forall (λ p, fst p = read_states (snd p)) (snapshots_with_store ∅ t).

(** What holds in every state the panel reaches. *)
Record Inv (w : World) : Prop := {
  inv_timers : timers_ok w;
  inv_store : signals (config w) = store_after ∅ (trace w);
  inv_posted : read_when_posted (trace w)
}.

(** An asynchronous operation keeps a property of the world. *)
Definition preserves {A} (P : World → Prop) (p : Async A) : Prop :=
  ∀ w, P w → P (snd (p w)).

(** Between [w] and [w'] the store did not change and nothing but messages
    to the web view was observable. *)
Definition passes_time (w w' : World) : Prop :=
  config w' = config w
  ∧ ∃ t, trace w' = trace w ++ t ∧ Forall is_post t.

(** The only pending timer is the debounce timer, due in [d] ms. *)
Definition armed (d : nat) (w : World) : Prop :=
  ∃ t, timers w = [mkTimer t (clock w + d) CbDoSendSignalStates]
       ∧ _signalDebounce w = Some t.

(** Every pending timer is the tracked debounce timer. *)
Definition only_debounce (w : World) : Prop :=
  ∀ tm, tm ∈ timers w →
        callback tm = CbDoSendSignalStates
        ∧ _signalDebounce w = Some (handle tm).

(** No [_update] is waiting to send the settings. *)
Definition no_settings_timer (w : World) : Prop :=
  ∀ tm, tm ∈ timers w → callback tm = CbDoSendSignalStates.

(** The cancellation the [silenceAll] handler performs before it sends. *)
Definition cancel_debounce (w : World) : World :=
  match _signalDebounce w with
  | Some t => with_debounce None (clearTimeout t w)
  | None => w
  end.

(** ** Bursts of notifications *)

(** A change of the configuration the editor notifies the panel of. *)
Record Change := mkChange {
  new_config : Config;
  affects_projectLabel : bool
}.

(** The notification of a change that affects [accessibility.signals]. *)
Definition notification (ch : Change) : Input :=
  ConfigurationChanged (new_config ch) (affects_projectLabel ch) true.

(** A burst: a first notification, then each further one [gap] ms after the
    one before it. *)
Fixpoint burst (first : Change) (rest : list (nat * Change)) : list Input :=
  match rest with
  | [] => [notification first]
  | (gap, ch) :: rest' => notification first :: Elapsed gap :: burst ch rest'
  end.

Fixpoint last_change (first : Change) (rest : list (nat * Change)) : Change :=
  match rest with
  | [] => first
  | (_, ch) :: rest' => last_change ch rest'
  end.

(** ** Timers and time *)

(** The time a timer of the panel waits. *)
Definition delay (cb : Callback) : nat :=
  match cb with
  | CbDoSendSignalStates => 300
  | CbSendCurrentSettings => 200
  end.

(** In the middle of a tick: every pending timer is due later than now,
    except those of [hs], which are due now and still have to fire; none
    is due later than its delay from now. *)
Definition timely_but (hs : list nat) (w : World) : Prop :=
  ∀ tm, tm ∈ timers w →
        (clock w < due tm ∨ (due tm = clock w ∧ handle tm ∈ hs))
        ∧ due tm ≤ clock w + delay (callback tm).

Definition timely (w : World) : Prop := timely_but [] w.

(** A burst is under way: the debounce timer is pending and due at a time
    [dd] later than every waiting [_update], none of which is due after
    [horizon]; the last notification came at [last].  In the middle of a
    tick [hs] are the handles due now that have not fired yet. *)
Record bursting (horizon last : nat) (hs : list nat) (w : World) : Prop := {
  b_ok : timers_ok w;
  b_clock : last ≤ clock w ∧ horizon ≤ clock w + 200;
  b_debounce :
    ∃ t dd, _signalDebounce w = Some t
            ∧ mkTimer t dd CbDoSendSignalStates ∈ timers w
            ∧ clock w < dd ∧ horizon < dd
            ∧ last + 300 ≤ dd ∧ dd ≤ Nat.max horizon last + 300;
  b_settings :
    ∀ tm, tm ∈ timers w → callback tm = CbSendCurrentSettings →
          (clock w < due tm ∨ (due tm = clock w ∧ handle tm ∈ hs))
          ∧ due tm ≤ horizon;
  b_due : ∀ x, x ∈ hs → x < next_handle w ∧ _signalDebounce w ≠ Some x
}.

(** What a notification needs to find: every waiting [_update] fires by
    [horizon]. *)
Definition before_burst (horizon : nat) (w : World) : Prop :=
  timers_ok w
  ∧ horizon ≤ clock w + 200
  ∧ ∀ tm, tm ∈ timers w → callback tm = CbSendCurrentSettings →
          clock w < due tm ∧ due tm ≤ horizon.

(** ** A concrete panel *)

(** A store that rejects writes to ["save"] and to the master flag, and
    settles a write after as many ms as its key has letters. *)
Definition example_host : Host :=
  mkHost (λ k, bool_decide (k = "save")) true String.length 5.

Definition example_config : Config :=
  mkConfig {["save" := sound_value false]} ∅.

(** The panel 200 ms after it was opened: the settings were sent and the
    debounce timer is running. *)
Definition example_world : World :=
  step example_host (Elapsed 200) (opened example_config 0).

(** A store that rejects writes to ["format"] and takes a second to settle
    the write to ["save"]. *)
Definition slow_host : Host :=
  mkHost (λ k, bool_decide (k = "format")) false
         (λ k, if bool_decide (k = "save") then 1000 else String.length k) 5.

Definition example_changes : list (nat * Change) :=
  [ (100, mkChange (mkConfig {["save" := sound_value true]} ∅) false);
    (299, mkChange (mkConfig {["format" := sound_value true]} ∅) true) ].

(** A store in which every signal of the registry is silenced, and the
    same store with ["save"] switched back on. *)
Definition silenced_signals : gmap string SignalValue :=
  apply_writes (λ _, false) (sound_value true) ALL_SOUND_SIGNALS ∅.

Definition save_restored : gmap string SignalValue :=
  <["save" := sound_value false]> silenced_signals.

(** The page after it applied the snapshot of [silenced_signals]. *)
Definition silenced_page : Webview.Page :=
  Webview.on_message (signalStates (read_states silenced_signals))
    Webview.loaded.

(** * The rest of the extension *)

(** ** extension.ts: the toggle command and the setting applied *)

(** The handler of the command [projectLabel.toggleSilenceAllSounds]: the
    state of the sample signal decides, not the persisted flag. *)
Definition toggleSilenceAllSounds (h : Host) : Async unit :=
  λ w,
    let sample := signals (config w) !! "chatResponseReceived" in
    let currentlySilent := sound_is_off sample in
    setSilenceAllSounds h (negb currentlySilent) w.

(** [applySilenceAllSoundsSetting], run on activation and when the flag
    changes. *)
Definition applySilenceAllSoundsSetting (h : Host) : Async unit :=
  λ w,
    let silence := get_bool (config w) "silenceAllSounds" false in
    if silence then setSilenceAllSounds h true w else resolve tt w.

(** ** Strings as the code uses them *)

(** A string in a condition: [if (s)], [s ? a : b], [s || d]. *)
Definition truthy (s : string) : bool := bool_decide (s ≠ "").

(** [s || d] *)
Definition or_else (s d : string) : string := if truthy s then s else d.

(** The double quote and the line feed. *)
Definition dquote : string := String "034"%char "".
Definition LF : string := String "010"%char "".

(** ** The editor around the code *)

(** An element of [vscode.workspace.workspaceFolders]: its [name] and its
    [uri.fsPath]. *)
Record WorkspaceFolder := mkFolder { name : string; fsPath : string }.

(** The [color] of a status bar item: a string or a [ThemeColor]. *)
Inductive Color :=
| Hex (value : string)
| ThemeColor (id : string).

(** Of the status bar item, what [updateLabel] sets. *)
Record StatusBarItem := mkItem {
  text : string;
  tooltip : string;       (* the value of the MarkdownString *)
  color : option Color;
  visible : bool          (* show() and hide() *)
}.

(** What the extension does to the editor besides the store and the panel:
    the writes it awaits, the writes and commands it starts without
    awaiting them, the messages it shows. *)
Inductive Effect :=
| Written (section key : string) (ok : bool)
| Requested (section key : string) (value : string)
| Informed (message : string)
| Prompted (message : string) (items : list string)
| Executed (command : string).

(** The state of the extension: the [World] of the panel with the boolean
    settings and the signals, the string settings of [projectLabel], the
    settings of [window], the workspace folders, and the module variables
    [statusBarItem] and [cachedProfileName]. *)
Record Editor := mkEditor {
  world : World;
  texts : gmap string string;
  window : gmap string string;
  workspaceFolders : option (list WorkspaceFolder);
  statusBarItem : StatusBarItem;
  cachedProfileName : option string;
  journal : list Effect               (* oldest first *)
}.

(** [config.get<string>(key, dflt)] on the [projectLabel] section. *)
Definition get_string (e : Editor) (key : string) (dflt : string) : string :=
  default dflt (texts e !! key).

(** [config.get<boolean>(key, dflt)] on the [projectLabel] section. *)
Definition get_flag (e : Editor) (key : string) (dflt : bool) : bool :=
  get_bool (config (world e)) key dflt.

Definition with_world (w : World) (e : Editor) : Editor :=
  mkEditor w (texts e) (window e) (workspaceFolders e) (statusBarItem e)
           (cachedProfileName e) (journal e).

Definition with_window (win : gmap string string) (e : Editor) : Editor :=
  mkEditor (world e) (texts e) win (workspaceFolders e) (statusBarItem e)
           (cachedProfileName e) (journal e).

Definition with_item (item : StatusBarItem) (e : Editor) : Editor :=
  mkEditor (world e) (texts e) (window e) (workspaceFolders e) item
           (cachedProfileName e) (journal e).

Definition record (x : Effect) (e : Editor) : Editor :=
  mkEditor (world e) (texts e) (window e) (workspaceFolders e)
           (statusBarItem e) (cachedProfileName e) (journal e ++ [x]).

(** The choices the editor and the user make: those of the [Host] for the
    signals, for any other write whether it is rejected and how long it is
    in flight, and the item the user picks in a prompt, if any, and when. *)
Record Services := mkServices {
  store : Host;
  refuses : string → string → bool;      (* section, key *)
  takes : string → string → nat;         (* section, key: ms in flight *)
  picks : option string;
  picks_after : nat
}.

(** ** Asynchronous code over the editor *)

Definition Ext (A : Type) : Type := Editor → Outcome A * Editor.

#[export] Instance Ext_ret : MRet Ext := λ A a e, (Fulfilled a, e).

(** [await p; k], as for [Async]. *)
#[export] Instance Ext_bind : MBind Ext :=
  λ A B k p e, match p e with
               | (Fulfilled a, e1) => k a e1
               | (Rejected, e1) => (Rejected, e1)
               end.

(** An operation on the world of the panel, run inside the editor. *)
Definition lift {A} (p : Async A) : Ext A :=
  λ e, let '(r, w) := p (world e) in (r, with_world w e).

(** A synchronous statement. *)
Definition effect (f : Editor → Editor) : Ext unit := λ e, (Fulfilled tt, f e).

(** [for (const x of xs) { await body(x) }] *)
Fixpoint for_of {A} (xs : list A) (body : A → Ext unit) : Ext unit :=
  match xs with
  | [] => mret tt
  | x :: xs' => body x ;; for_of xs' body
  end.

(** [getConfiguration('projectLabel').update(key, value,
    ConfigurationTarget.Global)] for a boolean setting: as [setting_update],
    for any key.  An accepted write is notified to the panel's listener.
    The listener of extension.ts on the same event is not run here: it calls
    [updateLabel] and, when the key is [useNativeTitleBar],
    [silenceCopilotChat] or [silenceAllSounds], starts
    [applyNativeTitleBarSetting], [applyCopilotSilenceSetting] or
    [applySilenceAllSoundsSetting] without awaiting them.  A statement about
    such a write either says that it takes the call by itself or concludes
    nothing that these could change. *)
Definition projectLabel_update (s : Services) (key : string) (value : bool)
  : Ext unit :=
  λ e,
    let w := elapse (takes s "projectLabel" key) (world e) in
    if refuses s "projectLabel" key
    then (Rejected, record (Written "projectLabel" key false) (with_world w e))
    else
      let c := config w in
      (Fulfilled tt,
       record (Written "projectLabel" key true)
         (with_world
            (onDidChangeConfiguration true false
               (with_config
                  (mkConfig (signals c) (<[key := value]> (projectLabel c))) w))
            e)).

(** [getConfiguration('window').update(key, value,
    ConfigurationTarget.Global)]; the panel's listener has nothing to do
    for this section. *)
Definition window_update (s : Services) (key : string) (value : string)
  : Ext unit :=
  λ e,
    let w := elapse (takes s "window" key) (world e) in
    if refuses s "window" key
    then (Rejected, record (Written "window" key false) (with_world w e))
    else
      (Fulfilled tt,
       record (Written "window" key true)
         (with_window (<[key := value]> (window e))
            (with_world (onDidChangeConfiguration false false w) e))).

(** [signals.update(key, value, ConfigurationTarget.Global)] issued now. *)
Definition signals_update_now (s : Services) (key : string)
    (value : SignalValue) : Ext unit :=
  λ e, lift (signals_update (store s) (clock (world e)) key value) e.

(** [vscode.window.showInformationMessage(message)] *)
Definition inform (message : string) : Ext unit :=
  effect (record (Informed message)).

(** [await vscode.window.showInformationMessage(message, ...items)]: the
    item the user picked, or [undefined]. *)
Definition prompt (s : Services) (message : string) (items : list string)
  : Ext (option string) :=
  λ e,
    let picked := match picks s with
                  | Some x => if bool_decide (x ∈ items) then Some x else None
                  | None => None
                  end in
    (Fulfilled picked,
     record (Prompted message items)
       (with_world (elapse (picks_after s) (world e)) e)).

(** [vscode.commands.executeCommand(command)], not awaited. *)
Definition start_command (command : string) : Ext unit :=
  effect (record (Executed command)).

(** ** extension.ts: Copilot Chat silence *)

Definition COPILOT_CHAT_SIGNALS : list string :=
  [ "chatEditModifiedFile";
    "chatRequestSent";
    "chatResponseReceived";
    "chatUserActionRequired";
    "editsKept";
    "nextEditSuggestion";
    "codeActionApplied";
    "codeActionTriggered";
    "clear";
    "progress" ].

(** The writes go out one after the other, none of them guarded. *)
Definition setCopilotChatSilence (s : Services) (silent : bool) : Ext unit :=
  let value := sound_value silent in
  for_of COPILOT_CHAT_SIGNALS (λ key, signals_update_now s key value) ;;
  projectLabel_update s "silenceCopilotChat" silent ;;
  inform (if silent then "Copilot Chat sounds silenced."
          else "Copilot Chat sounds restored.").

Definition applyCopilotSilenceSetting (s : Services) : Ext unit :=
  λ e,
    let silence := get_flag e "silenceCopilotChat" false in
    if silence then setCopilotChatSilence s true e else (Fulfilled tt, e).

(** ** extension.ts: toggles and the title bar *)

Definition toggleBoolSetting (s : Services) (key : string) : Ext unit :=
  λ e,
    let current := get_flag e key false in
    projectLabel_update s key (negb current) e.

(** The type ['native' | 'custom']. *)
Inductive TitleBarStyle := native | custom.

Definition style_name (style : TitleBarStyle) : string :=
  match style with native => "native" | custom => "custom" end.

(** The end of both title bar functions: [if (action === 'Restart Now')
    executeCommand('workbench.action.reloadWindow')]. *)
Definition restart_if_asked (action : option string) : Ext unit :=
  if bool_decide (action = Some "Restart Now")
  then start_command "workbench.action.reloadWindow"
  else mret tt.

Definition applyNativeTitleBarSetting (s : Services) : Ext unit :=
  λ e,
    let useNative := get_flag e "useNativeTitleBar" false in
    let currentStyle := window e !! "titleBarStyle" in
    let targetStyle := if useNative then "native" else "custom" in
    if bool_decide (currentStyle ≠ Some targetStyle)
    then
      (window_update s "titleBarStyle" targetStyle ;;
       action ← prompt s
         ("Title bar style changed to " +:+ dquote +:+ targetStyle +:+ dquote
          +:+ ". A restart is required for this to take effect.")
         ["Restart Now"; "Later"] ;
       restart_if_asked action) e
    else (Fulfilled tt, e).

Definition setTitleBarStyle (s : Services) (style : TitleBarStyle) : Ext unit :=
  projectLabel_update s "useNativeTitleBar"
    (match style with native => true | custom => false end) ;;
  window_update s "titleBarStyle" (style_name style) ;;
  action ← prompt s
    ("Title bar style set to " +:+ dquote +:+ style_name style +:+ dquote
     +:+ ". A restart is required.")
    ["Restart Now"; "Later"] ;
  restart_if_asked action.

(** ** extension.ts: the profile *)

(** An entry of [profiles.json] at its declared type
    [{ name?: string; location?: string }]. *)
Record Profile := mkProfile {
  profile_name : option string;
  location : option string
}.

(** What reading [<config dir>/User/profiles.json] comes to. *)
Inductive ProfilesFile :=
| Missing                            (* fs.existsSync(...) is false *)
| Unreadable                         (* reading, parsing or iterating throws *)
| Listed (profiles : list Profile).  (* the array, or the [profiles] member *)

(** What [detectProfileName] looks at. *)
Record Machine := mkMachine {
  globalStoragePath : string;        (* context.globalStorageUri.fsPath *)
  profilesFile : ProfilesFile;
  VSCODE_PROFILE : option string     (* process.env['VSCODE_PROFILE'] *)
}.

(** The regular expression
    [/[/\\]profiles[/\\]([a-f0-9-]+)[/\\]globalStorage/i]. *)

(** [[/\\]] *)
Definition is_sep (c : ascii) : bool :=
  bool_decide (c = "/"%char) || bool_decide (c = "\"%char).

(** Case is ignored, which for the letters of the pattern is a matter of
    the ASCII letters only. *)
Definition lower (c : ascii) : ascii :=
  let n := nat_of_ascii c in
  if (65 <=? n) && (n <=? 90) then ascii_of_nat (n + 32) else c.

(** [[a-f0-9-]] under the flag [i] *)
Definition is_id_char (c : ascii) : bool :=
  let n := nat_of_ascii (lower c) in
  ((97 <=? n) && (n <=? 102)) || ((48 <=? n) && (n <=? 57))
  || bool_decide (c = "-"%char).

(** The literal [lit] at the head of [s], case ignored: what follows it. *)
Fixpoint match_literal (lit s : string) : option string :=
  match lit, s with
  | EmptyString, _ => Some s
  | String a lit', String b s' =>
      if bool_decide (lower a = lower b) then match_literal lit' s' else None
  | String _ _, EmptyString => None
  end.

(** The longest run of [[a-f0-9-]] at the head of [s], and what follows.
    The character after the group must be a separator, which is not in the
    class, so no shorter run can match. *)
Fixpoint span_id (s : string) : string * string :=
  match s with
  | String c s' =>
      if is_id_char c
      then let '(run, rest) := span_id s' in (String c run, rest)
      else ("", s)
  | EmptyString => ("", "")
  end.

(** A match that starts at the head of [s]: the captured group. *)
Definition match_here (s : string) : option string :=
  match s with
  | String c s1 =>
      if is_sep c then
        match match_literal "profiles" s1 with
        | Some (String c2 s2) =>
            if is_sep c2 then
              let '(id, rest) := span_id s2 in
              if truthy id then
                match rest with
                | String c3 s3 =>
                    if is_sep c3 then
                      match match_literal "globalStorage" s3 with
                      | Some _ => Some id
                      | None => None
                      end
                    else None
                | EmptyString => None
                end
              else None
            else None
        | _ => None
        end
      else None
  | EmptyString => None
  end.

(** [globalStoragePath.match(...)], the leftmost match: its group 1. *)
Fixpoint profileIdMatch (s : string) : option string :=
  match match_here s with
  | Some id => Some id
  | None =>
      match s with
      | String _ s' => profileIdMatch s'
      | EmptyString => None
      end
  end.

(** The loop over the profiles: the name of the first entry at that
    location that has a name. *)
Fixpoint listed_name (profileId : string) (profiles : list Profile)
  : option string :=
  match profiles with
  | [] => None
  | p :: ps =>
      match profile_name p with
      | Some n =>
          if bool_decide (location p = Some profileId) && truthy n
          then Some n else listed_name profileId ps
      | None => listed_name profileId ps
      end
  end.

Definition detectProfileName (m : Machine) : string :=
  (* Method 2 and the fallback *)
  let otherwise :=
    match VSCODE_PROFILE m with
    | Some envProfile => if truthy envProfile then envProfile else "Default"
    | None => "Default"
    end in
  (* Method 1, inside try ... catch *)
  match profileIdMatch (globalStoragePath m) with
  | Some profileId =>
      match profilesFile m with
      | Unreadable => otherwise
      | Missing => String.substring 0 8 profileId
      | Listed profiles =>
          match listed_name profileId profiles with
          | Some n => n
          | None => String.substring 0 8 profileId
          end
      end
  | None => otherwise
  end.

(** ** extension.ts: the label *)

Definition getProjectName (e : Editor) : string :=
  match workspaceFolders e with
  | Some (folder :: _) => name folder
  | _ => "No Folder"
  end.

Definition getProjectPath (e : Editor) : string :=
  match workspaceFolders e with
  | Some (folder :: _) => fsPath folder
  | _ => ""
  end.

Definition buildLabelText (e : Editor) : string :=
  let customLabel := get_string e "customLabel" "" in
  if truthy customLabel then customLabel
  else
    let showProject := get_flag e "showProjectName" true in
    let showProfile := get_flag e "showProfile" true in
    let separator := get_string e "separator" " | " in
    let parts1 := if showProject then [getProjectName e] else [] in
    let parts2 :=
      if showProfile then
        let profileName := default "Default" (cachedProfileName e) in
        if bool_decide (profileName ≠ "Default") || negb showProject
        then parts1 ++ [profileName] else parts1
      else parts1 in
    String.concat separator parts2.

(** [template.replace(/\$\{label\}/g, labelText)] *)

(** The replacement text of one match: in [labelText] the patterns [$$],
    [$&], [$`] and [$'] stand for a dollar sign, the match, what precedes it
    and what follows it; the expression has no groups, so any other [$]
    stands for itself. *)
Fixpoint GetSubstitution (matched before after replacement : string) : string :=
  match replacement with
  | EmptyString => ""
  | String c rest =>
      if bool_decide (c = "$"%char) then
        match rest with
        | String d rest' =>
            if bool_decide (d = "$"%char)
            then "$" +:+ GetSubstitution matched before after rest'
            else if bool_decide (d = "&"%char)
            then matched +:+ GetSubstitution matched before after rest'
            else if bool_decide (d = "`"%char)
            then before +:+ GetSubstitution matched before after rest'
            else if bool_decide (d = "'"%char)
            then after +:+ GetSubstitution matched before after rest'
            else String c (GetSubstitution matched before after rest)
        | EmptyString => String c ""
        end
      else String c (GetSubstitution matched before after rest)
  end.

Fixpoint string_drop (n : nat) (s : string) : string :=
  match n, s with
  | S n', String _ s' => string_drop n' s'
  | _, _ => s
  end.

(** The scan for the matches, left to right, none overlapping another:
    [before] is what was scanned, [skip] how much of a match is still to be
    passed over. *)
Fixpoint replace_label (before : string) (skip : nat) (s : string)
    (labelText : string) : string :=
  match s with
  | EmptyString => ""
  | String c s' =>
      match skip with
      | S skip' => replace_label (before +:+ String c "") skip' s' labelText
      | O =>
          if String.prefix "${label}" s
          then GetSubstitution "${label}" before (string_drop 8 s) labelText
               +:+ replace_label (before +:+ String c "") 7 s' labelText
          else String c (replace_label (before +:+ String c "") 0 s' labelText)
      end
  end.

Definition titleWithLabel (template labelText : string) : string :=
  replace_label "" 0 template labelText.

Definition DEFAULT_TITLE_TEMPLATE : string :=
  "[${label}] ${activeEditorShort}${separator}${rootName}".

(** [updateLabel]: the status bar item, and the window title it asks the
    editor to store without awaiting the write. *)
Definition updateLabel (e : Editor) : Editor :=
  let icon := get_string e "icon" "$(bracket-dot)" in
  let color_ := get_string e "color" "" in
  let updateTitle := get_flag e "updateWindowTitle" true in
  let labelText := buildLabelText e in
  let item := statusBarItem e in
  if negb (truthy labelText)
  then with_item (mkItem (text item) (tooltip item) (color item) false) e
  else
    let showInStatusBar := get_flag e "showInStatusBar" true in
    let text' := if truthy icon then icon +:+ " " +:+ labelText else labelText in
    let projectPath := getProjectPath e in
    let tooltip' :=
      "**Project:** " +:+ getProjectName e +:+ LF +:+ LF
      +:+ (if truthy projectPath
          then "**Path:** `" +:+ projectPath +:+ "`" +:+ LF +:+ LF else "")
      +:+ "**Profile:** " +:+ default "Default" (cachedProfileName e) +:+ LF +:+ LF
      +:+ "---" +:+ LF +:+ LF +:+ "*Click to copy label*" in
    let color' :=
      if truthy color_
      then Some (if String.prefix "#" color_ then Hex color_
                 else ThemeColor color_)
      else None in
    let e1 := with_item (mkItem text' tooltip' color' showInStatusBar) e in
    if updateTitle
    then
      let template := get_string e "titleTemplate" DEFAULT_TITLE_TEMPLATE in
      record (Requested "window" "title" (titleWithLabel template labelText)) e1
    else e1.

(** ** treeViewProvider.ts *)

Definition boolIcon (val : bool) : string := if val then "✅" else "⬜".

(** A [SettingItem]: label, description, icon id and the command it runs,
    as [(command, title)]. *)
Record SettingItem := mkSettingItem {
  item_label : string;
  item_description : string;
  item_icon : string;
  item_command : option (string * string)
}.

Definition getChildren (element : option SettingItem) (e : Editor)
  : list SettingItem :=
  match element with
  | Some _ => []
  | None =>
      let projectName :=
        match workspaceFolders e with
        | Some (folder :: _) => name folder
        | _ => "No Folder"
        end in
      let projectPath :=
        match workspaceFolders e with
        | Some (folder :: _) => fsPath folder
        | _ => ""
        end in
      let icon := get_string e "icon" "$(bracket-dot)" in
      let color_ := get_string e "color" "" in
      let alignment := get_string e "alignment" "left" in
      [ mkSettingItem ("Project: " +:+ projectName)
          (or_else projectPath "No workspace open") "symbol-folder"
          (Some ("projectLabel.copyLabel", "Copy Label"));
        mkSettingItem
          ("Project Name: " +:+ boolIcon (get_flag e "showProjectName" true))
          "Toggle project name in label" "eye"
          (Some ("projectLabel.toggleShowProjectName", "Toggle"));
        mkSettingItem
          ("Profile: " +:+ boolIcon (get_flag e "showProfile" true))
          "Toggle profile name in label" "person"
          (Some ("projectLabel.toggleShowProfile", "Toggle"));
        mkSettingItem
          ("Status Bar: " +:+ boolIcon (get_flag e "showInStatusBar" true))
          "Toggle status bar visibility" "layout-statusbar"
          (Some ("projectLabel.toggleShowInStatusBar", "Toggle"));
        mkSettingItem
          ("Window Title: " +:+ boolIcon (get_flag e "updateWindowTitle" true))
          "Toggle window title injection" "browser"
          (Some ("projectLabel.toggleUpdateWindowTitle", "Toggle"));
        mkSettingItem
          ("Native Title Bar: "
           +:+ boolIcon (get_flag e "useNativeTitleBar" false))
          "Required on Linux to see title text" "layout-panel"
          (Some ("projectLabel.toggleNativeTitleBar", "Toggle"));
        mkSettingItem
          ("Copilot Silence: "
           +:+ boolIcon (get_flag e "silenceCopilotChat" false))
          "Mute Copilot Chat accessibility sounds" "mute"
          (Some ("projectLabel.toggleSilenceCopilot", "Toggle"));
        mkSettingItem
          ("Silence All Sounds: "
           +:+ boolIcon (get_flag e "silenceAllSounds" false))
          "Mute ALL VS Code accessibility sounds" "bell-slash"
          (Some ("projectLabel.toggleSilenceAllSounds", "Toggle"));
        mkSettingItem ("Icon: " +:+ or_else icon "(none)")
          ("Alignment: " +:+ alignment +:+ " · Color: "
           +:+ or_else color_ "theme default") "paintcan" None;
        mkSettingItem "── Actions ──" "" "dash" None;
        mkSettingItem "Open Settings Panel" "Full visual settings editor"
          "settings-gear" (Some ("projectLabel.openSettings", "Open Settings"));
        mkSettingItem "Refresh Label" "Re-detect profile and update"
          "refresh" (Some ("projectLabel.refresh", "Refresh"));
        mkSettingItem "Copy Label to Clipboard" "Copy current label text"
          "clippy" (Some ("projectLabel.copyLabel", "Copy")) ]
  end.

(** The commands [activate] registers, in the order of the calls of
    [registerCommand]. *)
Definition REGISTERED_COMMANDS : list string :=
  [ "projectLabel.refresh";
    "projectLabel.copyLabel";
    "projectLabel.enableNativeTitleBar";
    "projectLabel.disableNativeTitleBar";
    "projectLabel.silenceCopilot";
    "projectLabel.unsilenceCopilot";
    "projectLabel.silenceAllSounds";
    "projectLabel.unsilenceAllSounds";
    "projectLabel.openSettings";
    "projectLabel.toggleShowProjectName";
    "projectLabel.toggleShowProfile";
    "projectLabel.toggleShowInStatusBar";
    "projectLabel.toggleUpdateWindowTitle";
    "projectLabel.toggleNativeTitleBar";
    "projectLabel.toggleSilenceCopilot";
    "projectLabel.toggleSilenceAllSounds" ].

(** ** settingsPanel.ts: the settings sent and the preview *)

(** The [settings] object of [_sendCurrentSettings] with its string
    fields; [priority], the one number, is left out. *)
Record SettingsPayload := mkPayload {
  flags : Settings;
  customLabel : string;
  separator : string;
  alignment : string;
  color_text : string;
  icon : string;
  titleTemplate : string
}.

Definition settings_payload (e : Editor) : SettingsPayload :=
  {| flags := current_settings (config (world e));
     customLabel := get_string e "customLabel" "";
     separator := get_string e "separator" " | ";
     alignment := get_string e "alignment" "left";
     color_text := get_string e "color" "";
     icon := get_string e "icon" "$(bracket-dot)";
     titleTemplate := get_string e "titleTemplate" DEFAULT_TITLE_TEMPLATE |}.

(** [updatePreview(s)] of the page: the [textContent] and the
    [style.color] of [#previewBar]. *)
Definition updatePreview (s : SettingsPayload) : string * string :=
  let parts :=
    if truthy (customLabel s) then [customLabel s]
    else (if showProjectName (flags s) then ["MyProject"] else [])
         ++ (if showProfile (flags s) then ["Profile"] else []) in
  let label := String.concat (or_else (separator s) " | ") parts in
  let icon_ := or_else (icon s) "" in
  (if truthy icon_ then icon_ +:+ " " +:+ label else label,
   if truthy (color_text s) && String.prefix "#" (color_text s)
   then color_text s else "").

(** ** settingsPanel.ts: generic settings *)

(** The case [updateSetting] of the message handler, for the value of a
    check box: [await config.update(msg.key, msg.value,
    ConfigurationTarget.Global)], not guarded. *)
Definition updateSetting (s : Services) (key : string) (value : bool)
  : Ext unit :=
  projectLabel_update s key value.

(** The check boxes of the page that carry a [data-key], in document
    order. *)
Definition SETTING_CHECKBOXES : list string :=
  [ "showProjectName"; "showProfile"; "showInStatusBar"; "updateWindowTitle";
    "useNativeTitleBar" ].

(** The [change] listener of such a check box, whose new value is
    [checked]: [sendUpdate(el.dataset.key, el.checked)]. *)
Definition setting_changed (key : string) (checked : bool) (p : Webview.Page)
  : Webview.Page * (string * bool) :=
  (Webview.mkPage (<[key := checked]> (Webview.checks p))
                  (Webview.signal_cbs p) (Webview.masterCb p),
   (key, checked)).

(** * Vocabulary of the further properties *)

(** ** Pages and traces *)

(** What happened between [w] and a later [w']. *)
Definition since (w w' : World) : list Event :=
  drop (length (trace w)) (trace w').

(** The page after the messages posted in [t] arrived, in order. *)
Definition delivered (t : list Event) (p : Webview.Page) : Webview.Page :=
  foldl (λ p' e, match e with
                 | Posted msg => Webview.on_message msg p'
                 | _ => p'
                 end) p t.

(** ** Strings and paths *)

(** The characters of a string, and the string in lower case. *)
Definition chars (s : string) : list ascii := String.list_ascii_of_string s.

Definition lowercase (s : string) : string :=
  String.string_of_list_ascii (lower <$> chars s).


(** [pat] occurs somewhere in [s]. *)
Fixpoint mentions (pat s : string) : bool :=
  String.prefix pat s
  || match s with
     | String _ s' => mentions pat s'
     | EmptyString => false
     end.

(** [s] has no dollar sign. *)
Definition dollar_free (s : string) : Prop := "$"%char ∉ chars s.

(** ** What a loop of unguarded writes gets done *)

(** The keys a loop of awaited writes gets through: those before the
    first one the store rejects. *)
Fixpoint written_before (rej : string → bool) (keys : list string)
  : list string :=
  match keys with
  | [] => []
  | k :: keys' => if rej k then [] else k :: written_before rej keys'
  end.

(** The write the loop stops at, if it stops. *)
Fixpoint first_rejected (rej : string → bool) (keys : list string)
  : option string :=
  match keys with
  | [] => None
  | k :: keys' => if rej k then Some k else first_rejected rej keys'
  end.

(** A match at the head of [s], spelled out. *)
Definition matches_here (s id : string) : Prop :=
  ∃ c1 seg1 c2 c3 seg2 post,
    s = String c1 (seg1 +:+ String c2 (id +:+ String c3 (seg2 +:+ post)))
    ∧ is_sep c1 = true ∧ is_sep c2 = true ∧ is_sep c3 = true
    ∧ lowercase seg1 = "profiles" ∧ lowercase seg2 = "globalstorage"
    ∧ id ≠ "" ∧ Forall (λ c, is_id_char c = true) (chars id).

(** An entry that the loop over the profiles passes by. *)
Definition passed_by (profileId : string) (p : Profile) : Prop :=
  location p ≠ Some profileId ∨ profile_name p = None
  ∨ profile_name p = Some "".

(** ** A concrete editor *)

Definition example_item : StatusBarItem := mkItem "" "" None false.

(** A workspace [MyProject] under the profile [Profile], nothing set but
    the separator. *)
Definition example_editor : Editor :=
  mkEditor (opened example_config 0) {["separator" := " - "]} ∅
           (Some [mkFolder "MyProject" "/home/me/MyProject"])
           example_item (Some "Profile") [].

(** The same with [showProfile] stored as [true]. *)
Definition profiled_editor : Editor :=
  mkEditor (opened (mkConfig ∅ {["showProfile" := true]}) 0)
           {["separator" := " - "]} ∅
           (Some [mkFolder "MyProject" "/home/me/MyProject"])
           example_item (Some "Profile") [].

(** The same with the separator set to the empty string. *)
Definition unseparated_editor : Editor :=
  mkEditor (opened example_config 0) {["separator" := ""]} ∅
           (Some [mkFolder "MyProject" "/home/me/MyProject"])
           example_item (Some "Profile") [].

(** A machine whose storage path names no profile, with [VSCODE_PROFILE]
    set, and the editor whose profile was detected on it. *)
Definition plain_machine : Machine :=
  mkMachine "/home/me/.config/Code/User/globalStorage/me.project-label"
            Missing (Some "Profile").

Definition detected_editor : Editor :=
  mkEditor (opened example_config 0) {["separator" := " - "]} ∅
           (Some [mkFolder "MyProject" "/home/me/MyProject"])
           example_item (Some (detectProfileName plain_machine)) [].

(** A machine under a profile that [profiles.json] does not list. *)
Definition unlisted_machine : Machine :=
  mkMachine
    "/home/me/.config/Code/User/profiles/4f3a9c21-77/globalStorage/me.project-label"
    (Listed [mkProfile (Some "Other") (Some "0000")]) (Some "FromEnv").

(** The item [Refresh Label] of the tree. *)
Definition refresh_item : SettingItem :=
  mkSettingItem "Refresh Label" "Re-detect profile and update" "refresh"
                (Some ("projectLabel.refresh", "Refresh")).

(** Services over [example_host] that accept every other write; nobody
    answers a prompt. *)
Definition example_services : Services :=
  mkServices example_host (λ _ _, false) (λ _ _, 5) None 0.

(** Services that refuse every write to the section [window]. *)
Definition window_refusing_services : Services :=
  mkServices example_host (λ section _, bool_decide (section = "window"))
             (λ _ _, 5) None 0.

(** A store that accepts every write, and one that rejects the write to
    ["editsKept"]. *)
Definition accepting_host : Host := mkHost (λ _, false) false String.length 5.

Definition failing_services : Services :=
  mkServices (mkHost (λ k, bool_decide (k = "editsKept")) false String.length 5)
             (λ _ _, false) (λ _ _, 5) None 0.

(** ** settingsPanel.ts: the text and number inputs of the page *)

Module Form.

(** What [sendUpdate] is given by a debounced input: [el.value], or
    [Number(el.value)] for the number input; the conversion is kept as it is
    written. *)
Inductive Value :=
| Text (value : string)
| Number (value : string).

(** A [setTimeout] of the page; its callback is the one of the listener
    bound to [element]. *)
Record Timer := mkTimer {
  handle : nat;
  due : nat;
  element : string
}.

(** The values of the inputs by element id (on each of them the id and the
    [data-key] agree), the object [debounceTimers] of the script, the timers
    of the page, its clock in milliseconds, and the [updateSetting] messages
    posted so far, oldest first, as key and value. *)
Record Page := mkPage {
  values : gmap string string;
  debounceTimers : gmap string nat;
  timers : list Timer;
  clock : nat;
  next_handle : nat;
  posted : list (string * Value)
}.

(** The page as loaded: the inputs are empty and nothing has been typed. *)
Definition loaded : Page := mkPage ∅ ∅ [] 0 0 [].

(** The inputs that [querySelectorAll('input[type="text"][data-key],
    input[type="number"][data-key]')] finds, in document order. *)
Definition DEBOUNCED_INPUTS : list string :=
  [ "customLabel"; "separator"; "color"; "priority"; "titleTemplate" ].

(** [el.type === 'number'] *)
Definition is_number (el : string) : bool := bool_decide (el = "priority").

(** [el.value]; an input never written to is empty. *)
Definition el_value (el : string) (p : Page) : string :=
  default "" (values p !! el).

(** A text input keeps no line break of the value it is given. *)
Definition is_line_break (c : ascii) : bool :=
  bool_decide (c = "010"%char) || bool_decide (c = "013"%char).

Fixpoint strip_line_breaks (s : string) : string :=
  match s with
  | "" => ""
  | String c rest =>
      if is_line_break c then strip_line_breaks rest
      else String c (strip_line_breaks rest)
  end.

Definition with_value (el val : string) (p : Page) : Page :=
  mkPage (<[el := val]> (values p)) (debounceTimers p) (timers p) (clock p)
         (next_handle p) (posted p).

(** [el.value = val] by the script, for a text input. *)
Definition assign (el val : string) (p : Page) : Page :=
  with_value el (strip_line_breaks val) p.

(** [setValue(id, val)] for a text input that exists and a string. *)
Definition setValue (id val : string) (p : Page) : Page := assign id val p.

Definition sendUpdate (key : string) (value : Value) (p : Page) : Page :=
  mkPage (values p) (debounceTimers p) (timers p) (clock p) (next_handle p)
         (posted p ++ [(key, value)]).

(** [clearTimeout(debounceTimers[el.id])]; the entry is [undefined] until
    the first edit, and a handle that has fired clears nothing. *)
Definition clearTimeout (t : option nat) (p : Page) : Page :=
  match t with
  | Some t =>
      mkPage (values p) (debounceTimers p)
             (filter (λ tm, handle tm ≠ t) (timers p)) (clock p)
             (next_handle p) (posted p)
  | None => p
  end.

(** [debounceTimers[el.id] = setTimeout(..., 400)] *)
Definition setTimeout (el : string) (p : Page) : Page :=
  let t := next_handle p in
  mkPage (values p) (<[el := t]> (debounceTimers p))
         (timers p ++ [mkTimer t (clock p + 400) el]) (clock p) (S t)
         (posted p).

(** The [input] listener of a debounced input. *)
Definition input_listener (el : string) (p : Page) : Page :=
  setTimeout el (clearTimeout (debounceTimers p !! el) p).

(** An edit by the user: the input has the value [value] afterwards, and
    its [input] listener runs. *)
Definition on_input (el value : string) (p : Page) : Page :=
  input_listener el (with_value el value p).

(** The callback of the timer, run when it fires: the value is read then. *)
Definition fire (tm : Timer) (p : Page) : Page :=
  let el := element tm in
  let val := if is_number el then Number (el_value el p)
             else Text (el_value el p) in
  sendUpdate el val p.

(** One millisecond passes; the timers now due leave the list and fire,
    oldest first. *)
Definition tick (p : Page) : Page :=
  let now := S (clock p) in
  foldl (λ p' tm, fire tm p')
        (mkPage (values p) (debounceTimers p)
                (filter (λ tm, now < due tm) (timers p)) now
                (next_handle p) (posted p))
        (filter (λ tm, due tm ≤ now) (timers p)).

Definition elapse (ms : nat) (p : Page) : Page := Nat.iter ms tick p.

(** The [input] listener of [#colorPicker], whose new value is [colour]:
    the text input beside it takes the value, and the update is sent at
    once. *)
Definition colorPicker_input (colour : string) (p : Page) : Page :=
  sendUpdate "color" (Text colour) (assign "color" colour p).

(** Edits to one input, each a number of milliseconds after the one
    before. *)
Fixpoint typing (el : string) (edits : list (nat * string)) (p : Page)
  : Page :=
  match edits with
  | [] => p
  | (gap, value) :: rest => typing el rest (on_input el value (elapse gap p))
  end.

(** The value the input has after a first edit and the edits that follow. *)
Definition last_typed (first : string) (edits : list (nat * string))
  : string :=
  default first (last (first :: (snd <$> edits))).

(** What the timer of [el] sends for the value [value]. *)
Definition update_of (el value : string) : string * Value :=
  (el, if is_number el then Number value else Text value).

(** The one timer pending is the one of [el], due in [d] milliseconds, and
    [debounceTimers] holds its handle. *)
Definition armed (el : string) (d : nat) (p : Page) : Prop :=
  ∃ t, timers p = [mkTimer t (clock p + d) el]
       ∧ debounceTimers p !! el = Some t.

End Form.

(** * Properties *)

(** ** The registry *)

Lemma ALL_SOUND_SIGNALS_NoDup : NoDup ALL_SOUND_SIGNALS.
Proof. apply (bool_decide_unpack _). vm_compute. exact I. Qed.

Lemma ALL_SIGNALS_same_keys : ALL_SIGNALS ≡ₚ ALL_SOUND_SIGNALS.
Proof. reflexivity. Qed.

Lemma SIGNAL_CHECKBOXES_same_keys k :
  k ∈ SIGNAL_CHECKBOXES ↔ k ∈ ALL_SIGNALS.
Proof.
  assert (H : ∀ l1 l2 : list string,
             bool_decide (l1 ⊆ l2) = true → ∀ x, x ∈ l1 → x ∈ l2).
  { intros l1 l2 Hd. apply (bool_decide_eq_true_1 _ Hd). }
  split; apply H; vm_compute; reflexivity.
Qed.

Lemma settle_order_perm h keys : settle_order h keys ≡ₚ keys.
Proof. apply merge_sort_Permutation. Qed.

(** ** Reading the store *)

Lemma lookup_foldl_insert {V} (f : string → V) (l : list string)
    (m : gmap string V) (k : string) :
  foldl (λ st key, <[key := f key]> st) m l !! k
  = if decide (k ∈ l) then Some (f k) else m !! k.
Proof.
  revert m. induction l as [|x l IH]; intros m; simpl.
  - destruct (decide (k ∈ [])) as [H|]; [by apply elem_of_nil in H | done].
  - rewrite IH. destruct (decide (k = x)) as [->|Hne].
    + rewrite lookup_insert_eq.
      destruct (decide (x ∈ l)) as [Hl|Hl], (decide (x ∈ x :: l)) as [Hxl|Hxl];
        try done; exfalso; rewrite elem_of_cons in Hxl; tauto.
    + rewrite lookup_insert_ne by done.
      destruct (decide (k ∈ l)) as [Hl|Hl], (decide (k ∈ x :: l)) as [Hxl|Hxl];
        try done; exfalso; rewrite elem_of_cons in Hxl; tauto.
Qed.

Lemma read_states_lookup sig k :
  read_states sig !! k
  = if decide (k ∈ ALL_SIGNALS) then Some (sound_is_off (sig !! k)) else None.
Proof.
  unfold read_states.
  rewrite (lookup_foldl_insert (λ key, sound_is_off (sig !! key))).
  by rewrite lookup_empty.
Qed.

(** ** What a trace records *)

Lemma signal_writes_app t1 t2 :
  signal_writes (t1 ++ t2) = signal_writes t1 ++ signal_writes t2.
Proof. apply omap_app. Qed.

Lemma setting_writes_app t1 t2 :
  setting_writes (t1 ++ t2) = setting_writes t1 ++ setting_writes t2.
Proof. apply omap_app. Qed.

Lemma snapshots_sent_app t1 t2 :
  snapshots_sent (t1 ++ t2) = snapshots_sent t1 ++ snapshots_sent t2.
Proof. apply omap_app. Qed.

Lemma store_after_app sig t1 t2 :
  store_after sig (t1 ++ t2) = store_after (store_after sig t1) t2.
Proof. apply foldl_app. Qed.

Lemma snapshots_with_store_app sig t1 t2 :
  snapshots_with_store sig (t1 ++ t2)
  = snapshots_with_store sig t1
    ++ snapshots_with_store (store_after sig t1) t2.
Proof.
  revert sig. induction t1 as [|e t1 IH]; intros sig; [reflexivity|].
  destruct e as [c|k v ok| | | |[s|st]]; cbn [app snapshots_with_store];
    rewrite IH; reflexivity.
Qed.

Lemma posts_no_signal_writes t : Forall is_post t → signal_writes t = [].
Proof.
  induction 1 as [|e t He _ IH]; [reflexivity|].
  destruct e; try contradiction. exact IH.
Qed.

Lemma posts_no_setting_writes t : Forall is_post t → setting_writes t = [].
Proof.
  induction 1 as [|e t He _ IH]; [reflexivity|].
  destruct e; try contradiction. exact IH.
Qed.

(** ** Scheduling a send leaves store, clock and trace alone *)

Lemma _sendSignalStates_config w : config (_sendSignalStates w) = config w.
Proof. unfold _sendSignalStates. by destruct (_signalDebounce w). Qed.

Lemma _sendSignalStates_clock w : clock (_sendSignalStates w) = clock w.
Proof. unfold _sendSignalStates. by destruct (_signalDebounce w). Qed.

Lemma _sendSignalStates_trace w : trace (_sendSignalStates w) = trace w.
Proof. unfold _sendSignalStates. by destruct (_signalDebounce w). Qed.

Lemma _sendSignalStates_debounce w :
  _signalDebounce (_sendSignalStates w) = Some (next_handle w).
Proof. unfold _sendSignalStates. by destruct (_signalDebounce w). Qed.

Lemma _sendSignalStates_timers w :
  timers (_sendSignalStates w)
  = match _signalDebounce w with
    | Some t => filter (λ tm, handle tm ≠ t) (timers w)
    | None => timers w
    end ++ [mkTimer (next_handle w) (clock w + 300) CbDoSendSignalStates].
Proof. unfold _sendSignalStates. by destruct (_signalDebounce w). Qed.

Lemma _sendSignalStates_next_handle w :
  next_handle (_sendSignalStates w) = S (next_handle w).
Proof. unfold _sendSignalStates. by destruct (_signalDebounce w). Qed.

Lemma _sendCurrentSettings_config w : config (_sendCurrentSettings w) = config w.
Proof. unfold _sendCurrentSettings. by rewrite _sendSignalStates_config. Qed.

Lemma _sendCurrentSettings_clock w : clock (_sendCurrentSettings w) = clock w.
Proof. unfold _sendCurrentSettings. by rewrite _sendSignalStates_clock. Qed.

Lemma _sendCurrentSettings_trace w :
  trace (_sendCurrentSettings w)
  = trace w ++ [Posted (settingsUpdate (current_settings (config w)))].
Proof. unfold _sendCurrentSettings. by rewrite _sendSignalStates_trace. Qed.

(** ** Time passing *)

Lemma elapse_S ms w : elapse (S ms) w = tick (elapse ms w).
Proof. reflexivity. Qed.

Lemma passes_time_refl w : passes_time w w.
Proof. split; [done|]. exists []. by rewrite app_nil_r. Qed.

Lemma passes_time_trans w1 w2 w3 :
  passes_time w1 w2 → passes_time w2 w3 → passes_time w1 w3.
Proof.
  intros (C1 & t1 & T1 & F1) (C2 & t2 & T2 & F2).
  split; [congruence|]. exists (t1 ++ t2).
  split; [by rewrite T2, T1, app_assoc|]. by apply Forall_app.
Qed.

Lemma passes_time_silent w w' :
  config w' = config w → trace w' = trace w → passes_time w w'.
Proof. intros Hc Ht. split; [done|]. exists []. by rewrite app_nil_r. Qed.

Lemma passes_time_post msg w : passes_time w (postMessage msg w).
Proof.
  split; [done|]. eexists. split; [reflexivity|]. by repeat constructor.
Qed.

Lemma passes_time__sendCurrentSettings w :
  passes_time w (_sendCurrentSettings w).
Proof.
  split; [apply _sendCurrentSettings_config|]. eexists.
  split; [apply _sendCurrentSettings_trace|]. by repeat constructor.
Qed.

Lemma passes_time_fire t w : passes_time w (fire t w).
Proof.
  unfold fire. destruct (list_find _ (timers w)) as [[i tm]|];
    [|apply passes_time_refl].
  apply (passes_time_trans _ (clearTimeout t w)).
  - by apply passes_time_silent.
  - destruct (callback tm);
      [apply passes_time_post | apply passes_time__sendCurrentSettings].
Qed.

Lemma passes_time_foldl_fire ts w :
  passes_time w (foldl (λ w' t, fire t w') w ts).
Proof.
  revert w. induction ts as [|t ts IH]; intros w; [apply passes_time_refl|].
  simpl. eapply passes_time_trans; [apply passes_time_fire | apply IH].
Qed.

Lemma passes_time_tick w : passes_time w (tick w).
Proof.
  unfold tick. apply (passes_time_trans _ (with_clock (S (clock w)) w)).
  - by apply passes_time_silent.
  - apply passes_time_foldl_fire.
Qed.

Lemma passes_time_elapse ms w : passes_time w (elapse ms w).
Proof.
  induction ms as [|ms IH]; [apply passes_time_refl|]. rewrite elapse_S.
  eapply passes_time_trans; [exact IH | apply passes_time_tick].
Qed.

(** ** The fan-out of [setSilenceAllSounds] *)

Lemma apply_writes_lookup rej v keys sig k :
  apply_writes rej v keys sig !! k
  = if decide (k ∈ keys) then (if rej k then sig !! k else Some v)
    else sig !! k.
Proof.
  unfold apply_writes. revert sig.
  induction keys as [|x keys IH]; intros sig; simpl.
  - destruct (decide (k ∈ [])) as [H|]; [by apply elem_of_nil in H | done].
  - rewrite IH. destruct (decide (k = x)) as [->|Hne].
    + destruct (rej x) eqn:Hx.
      * by destruct (decide (x ∈ keys)), (decide (x ∈ x :: keys)).
      * rewrite lookup_insert_eq.
        destruct (decide (x ∈ keys)) as [Hl|Hl],
                 (decide (x ∈ x :: keys)) as [Hxl|Hxl];
          try done; exfalso; rewrite elem_of_cons in Hxl; tauto.
    + assert ((if rej x then sig else <[x:=v]> sig) !! k = sig !! k) as ->.
      { destruct (rej x); [done | by rewrite lookup_insert_ne]. }
      destruct (decide (k ∈ keys)) as [Hl|Hl],
               (decide (k ∈ x :: keys)) as [Hxl|Hxl];
        try done; exfalso; rewrite elem_of_cons in Hxl; tauto.
Qed.

(** The store after the fan-out does not depend on the settle order. *)
Lemma apply_writes_perm rej v keys1 keys2 sig :
  keys1 ≡ₚ keys2 → apply_writes rej v keys1 sig = apply_writes rej v keys2 sig.
Proof.
  intros Hp. apply map_eq. intros k. rewrite !apply_writes_lookup.
  destruct (decide (k ∈ keys1)) as [H1|H1], (decide (k ∈ keys2)) as [H2|H2];
    try done; exfalso.
  - apply H2. by rewrite <- Hp.
  - apply H1. by rewrite Hp.
Qed.

Lemma guarded_update_run h issued k v w :
  ∃ w' t,
    catch (signals_update h issued k v) (resolve tt) w = (Fulfilled tt, w')
    ∧ signals (config w')
      = (if rejects h k then signals (config w)
         else <[k := v]> (signals (config w)))
    ∧ projectLabel (config w') = projectLabel (config w)
    ∧ trace w' = trace w ++ t ++ [WriteSettled k v (negb (rejects h k))]
    ∧ Forall is_post t.
Proof.
  unfold catch, signals_update, resolve, wait_until.
  destruct (passes_time_elapse (issued + settles_after h k - clock w) w)
    as (Hc & t & Ht & Hp).
  set (w1 := elapse _ w) in *.
  destruct (rejects h k); cbn [negb].
  - eexists. exists t. split; [reflexivity|].
    cbn [emit config trace]. rewrite Hc, Ht, <- app_assoc. done.
  - eexists. exists t. split; [reflexivity|].
    unfold onDidChangeConfiguration.
    rewrite _sendSignalStates_config, _sendSignalStates_trace.
    cbn [emit with_config config trace signals projectLabel].
    rewrite Hc, Ht, <- app_assoc. done.
Qed.

Lemma fan_out_run h issued v keys w :
  ∃ w' t,
    Promise_all
      ((λ key, catch (signals_update h issued key v) (resolve tt)) <$> keys) w
    = (Fulfilled tt, w')
    ∧ signals (config w') = apply_writes (rejects h) v keys (signals (config w))
    ∧ projectLabel (config w') = projectLabel (config w)
    ∧ trace w' = trace w ++ t
    ∧ signal_writes t = (λ k, (k, v, negb (rejects h k))) <$> keys
    ∧ setting_writes t = [].
Proof.
  revert w. induction keys as [|k keys IH]; intros w.
  - exists w, []. cbn. by rewrite app_nil_r.
  - destruct (guarded_update_run h issued k v w)
      as (w1 & t1 & E1 & S1 & P1 & T1 & F1).
    destruct (IH w1) as (w2 & t2 & E2 & S2 & P2 & T2 & W2 & G2).
    exists w2, (t1 ++ [WriteSettled k v (negb (rejects h k))] ++ t2).
    rewrite !fmap_cons. cbn [Promise_all]. rewrite E1, E2.
    split; [reflexivity|]. rewrite S2, S1, P2, P1, T2, T1.
    split; [reflexivity|]. split; [reflexivity|].
    split; [by rewrite <- !app_assoc|].
    rewrite !signal_writes_app, !setting_writes_app.
    rewrite (posts_no_signal_writes t1 F1), (posts_no_setting_writes t1 F1).
    rewrite W2, G2. split; reflexivity.
Qed.

Lemma guarded_setting_run h silent w :
  ∃ w' before after,
    catch (setting_update h silent) (resolve tt) w = (Fulfilled tt, w')
    ∧ signals (config w') = signals (config w)
    ∧ projectLabel (config w')
      = apply_setting_write (rejects_setting h) silent (projectLabel (config w))
    ∧ trace w'
      = trace w ++ before
        ++ [SettingWriteSettled silent (negb (rejects_setting h))] ++ after
    ∧ Forall is_post before ∧ Forall is_post after.
Proof.
  unfold catch, setting_update, resolve, apply_setting_write.
  destruct (passes_time_elapse (setting_settles_after h) w)
    as (Hc & t & Ht & Hp).
  set (w1 := elapse _ w) in *.
  destruct (rejects_setting h); cbn [negb].
  - eexists. exists t, []. split; [reflexivity|].
    cbn [emit config trace]. rewrite Hc, Ht, <- app_assoc. done.
  - eexists. exists t. eexists. split; [reflexivity|].
    unfold onDidChangeConfiguration.
    rewrite _sendCurrentSettings_config, _sendCurrentSettings_trace.
    cbn [emit with_config config trace signals projectLabel].
    rewrite Hc, Ht, <- !app_assoc.
    split; [reflexivity|]. split; [reflexivity|].
    split; [reflexivity|]. split; [exact Hp|]. by repeat constructor.
Qed.

Lemma setSilenceAllSounds_run h silent w :
  ∃ w' before after,
    setSilenceAllSounds h silent w = (Fulfilled tt, w')
    ∧ signals (config w')
      = apply_writes (rejects h) (sound_value silent) ALL_SOUND_SIGNALS
          (signals (config w))
    ∧ projectLabel (config w')
      = apply_setting_write (rejects_setting h) silent (projectLabel (config w))
    ∧ trace w'
      = trace w ++ before
        ++ [SettingWriteSettled silent (negb (rejects_setting h))] ++ after
    ∧ signal_writes before
      = (λ k, (k, sound_value silent, negb (rejects h k)))
          <$> settle_order h ALL_SOUND_SIGNALS
    ∧ setting_writes before = []
    ∧ signal_writes after = [] ∧ setting_writes after = [].
Proof.
  destruct (fan_out_run h (clock w) (sound_value silent)
              (settle_order h ALL_SOUND_SIGNALS) w)
    as (w1 & t1 & E1 & S1 & P1 & T1 & W1 & G1).
  destruct (guarded_setting_run h silent w1)
    as (w2 & b2 & a2 & E2 & S2 & P2 & T2 & Fb & Fa).
  exists (updateSoundStatusBar (showInformationMessage silent w2)).
  exists (t1 ++ b2).
  exists (a2 ++ [InformationMessage silent;
                 SoundStatusBar (status_silent (config w2))]).
  split.
  { unfold setSilenceAllSounds, mbind, Async_bind, await.
    rewrite E1, E2. reflexivity. }
  unfold updateSoundStatusBar, showInformationMessage, emit.
  cbn [config trace].
  rewrite S2, S1, P2, P1, T2, T1.
  split; [apply apply_writes_perm, settle_order_perm|].
  split; [reflexivity|]. split; [by rewrite <- !app_assoc|].
  rewrite !signal_writes_app, !setting_writes_app.
  rewrite (posts_no_signal_writes b2 Fb), (posts_no_setting_writes b2 Fb).
  rewrite (posts_no_signal_writes a2 Fa), (posts_no_setting_writes a2 Fa).
  rewrite W1, G1, app_nil_r.
  split; [reflexivity|]. split; [reflexivity|].
  split; reflexivity.
Qed.

(** ** The discipline is kept *)

Lemma filter_none {A} (P : A → Prop) `{!∀ x, Decision (P x)} (l : list A) :
  (∀ x, x ∈ l → ¬ P x) → filter P l = [].
Proof.
  induction l as [|x l IH]; intros Hl; [done|].
  rewrite filter_cons. destruct (decide (P x)) as [Hx|_].
  - exfalso. by apply (Hl x); [left|].
  - apply IH. intros y Hy. apply Hl. by right.
Qed.

(** An operation on the timers alone keeps what the trace says. *)
Lemma Inv_same w w' :
  timers_ok w' → config w' = config w → trace w' = trace w → Inv w → Inv w'.
Proof. intros Hok Hc Ht [_ Hs Hp]. split; [done | congruence | congruence]. Qed.

(** Recording an event, together with the change of the store it stands
    for. *)
Lemma Inv_record e c w :
  signals c = store_step (signals (config w)) e →
  (∀ st, e = Posted (signalStates st) → st = read_states (signals (config w))) →
  Inv w → Inv (emit e (with_config c w)).
Proof.
  intros Hc He [[H1 H2 H3] Hs Hp]. split; [by split| |]; cbn [emit trace config
    with_config].
  - by rewrite store_after_app, <- Hs.
  - unfold read_when_posted. rewrite snapshots_with_store_app.
    apply Forall_app. split; [exact Hp|]. rewrite <- Hs.
    destruct e as [c'|k v ok| | | |[s|st]]; try constructor.
    + cbn [fst snd]. by apply He.
    + constructor.
Qed.

Lemma Inv_emit e w :
  (∀ sig, store_step sig e = sig) →
  (∀ st, e ≠ Posted (signalStates st)) →
  Inv w → Inv (emit e w).
Proof.
  intros Hq Hn. apply (Inv_record e (config w) w); [by rewrite Hq|].
  intros st ->. by destruct (Hn st).
Qed.

Lemma Inv__doSendSignalStates w : Inv w → Inv (_doSendSignalStates w).
Proof.
  apply (Inv_record _ (config w) w); [reflexivity|]. by intros st [= <-].
Qed.

Lemma Inv_with_clock t w : Inv w → Inv (with_clock t w).
Proof. intros HI. apply (Inv_same w); try done. by destruct HI as [[]]. Qed.

Lemma timers_ok_clearTimeout t w : timers_ok w → timers_ok (clearTimeout t w).
Proof.
  intros [H1 H2 H3]. split; simpl.
  - intros tm [_ Hin]%list_elem_of_filter. by apply H1.
  - eapply sublist_NoDup; [exact H2|].
    apply fmap_sublist, sublist_filter.
  - intros tm [_ Hin]%list_elem_of_filter. by apply H3.
Qed.

Lemma Inv_clearTimeout t w : Inv w → Inv (clearTimeout t w).
Proof.
  intros HI. apply (Inv_same w); try done.
  apply timers_ok_clearTimeout, HI.
Qed.

(** Clearing the tracked handle removes every debounce timer. *)
Lemma clear_tracked_no_debounce t w :
  timers_ok w → _signalDebounce w = Some t →
  debounce_timers (clearTimeout t w) = [].
Proof.
  intros [_ _ H3] Hd. unfold debounce_timers. simpl.
  apply filter_none.
  intros tm [Hne Hin]%list_elem_of_filter Hcb.
  specialize (H3 tm Hin Hcb). rewrite Hd in H3. congruence.
Qed.

Lemma untracked_no_debounce w :
  timers_ok w → _signalDebounce w = None → debounce_timers w = [].
Proof.
  intros [_ _ H3] Hd. unfold debounce_timers.
  apply filter_none.
  intros tm Hin Hcb. specialize (H3 tm Hin Hcb). congruence.
Qed.


Lemma Inv_cancel_debounce w : Inv w → Inv (cancel_debounce w).
Proof.
  intros HI. unfold cancel_debounce.
  destruct (_signalDebounce w) as [t|] eqn:Hdeb; [|done].
  pose proof (clear_tracked_no_debounce t w (inv_timers w HI) Hdeb) as Hn.
  apply (Inv_same (clearTimeout t w)); [|done|done|by apply Inv_clearTimeout].
  destruct (timers_ok_clearTimeout t w (inv_timers w HI)) as [H1 H2 H3].
  split; try done.
  intros tm Hin Hcb. exfalso.
  assert (tm ∈ debounce_timers (clearTimeout t w)) as Hx
    by (by apply list_elem_of_filter).
  rewrite Hn in Hx. by apply elem_of_nil in Hx.
Qed.

Lemma Inv_setTimeout_settings ms w :
  Inv w → Inv (snd (setTimeout CbSendCurrentSettings ms w)).
Proof.
  intros HI. apply (Inv_same w); try done.
  destruct (inv_timers w HI) as [H1 H2 H3]. split; simpl.
  - intros tm [Hin| ->%list_elem_of_singleton]%elem_of_app; simpl; [|lia].
    specialize (H1 tm Hin). lia.
  - rewrite fmap_app. apply NoDup_app. split; [done|]. split.
    + intros x Hx Hx'. apply list_elem_of_singleton in Hx'. simpl in Hx'.
      apply list_elem_of_fmap in Hx as (tm & Heq & Hin).
      specialize (H1 tm Hin). lia.
    + apply NoDup_singleton.
  - intros tm [Hin| ->%list_elem_of_singleton]%elem_of_app; [by apply H3|done].
Qed.

Lemma timers_ok__sendSignalStates w :
  timers_ok w → timers_ok (_sendSignalStates w).
Proof.
  intros Hok.
  assert (debounce_timers
            (match _signalDebounce w with
             | Some t => clearTimeout t w | None => w end) = []) as Hnone.
  { destruct (_signalDebounce w) eqn:Hd.
    - by apply clear_tracked_no_debounce.
    - by apply untracked_no_debounce. }
  assert (timers_ok (match _signalDebounce w with
                     | Some t => clearTimeout t w | None => w end)) as Hok1.
  { destruct (_signalDebounce w); [by apply timers_ok_clearTimeout | done]. }
  destruct Hok1 as [H1 H2 H3].
  assert (next_handle (match _signalDebounce w with
               | Some t => clearTimeout t w | None => w end) = next_handle w)
    as Hn by (by destruct (_signalDebounce w)).
  assert (timers (match _signalDebounce w with
               | Some t => clearTimeout t w | None => w end)
          = match _signalDebounce w with
            | Some t => filter (λ tm, handle tm ≠ t) (timers w)
            | None => timers w end)
    as Htm by (by destruct (_signalDebounce w)).
  rewrite Hn, Htm in *.
  split.
  - rewrite _sendSignalStates_timers, _sendSignalStates_next_handle.
    intros tm [Hin| ->%list_elem_of_singleton]%elem_of_app; simpl; [|lia].
    specialize (H1 tm Hin). lia.
  - rewrite _sendSignalStates_timers, fmap_app.
    apply NoDup_app. split; [done|]. split.
    + intros x Hx Hx'. apply list_elem_of_singleton in Hx'. simpl in Hx'.
      apply list_elem_of_fmap in Hx as (tm & Heq & Hin).
      specialize (H1 tm Hin). lia.
    + apply NoDup_singleton.
  - rewrite _sendSignalStates_timers, _sendSignalStates_debounce.
    intros tm [Hin| ->%list_elem_of_singleton]%elem_of_app Hcb; [|done].
    exfalso.
    assert (tm ∈ debounce_timers (match _signalDebounce w with
               | Some t => clearTimeout t w | None => w end)) as Hx.
    { apply list_elem_of_filter. split; [done|]. by rewrite Htm. }
    rewrite Hnone in Hx. by apply elem_of_nil in Hx.
Qed.

Lemma Inv__sendSignalStates w : Inv w → Inv (_sendSignalStates w).
Proof.
  intros HI. apply (Inv_same w).
  - apply timers_ok__sendSignalStates, HI.
  - apply _sendSignalStates_config.
  - apply _sendSignalStates_trace.
  - exact HI.
Qed.

Lemma Inv__sendCurrentSettings w : Inv w → Inv (_sendCurrentSettings w).
Proof. intros HI. by apply Inv__sendSignalStates, Inv_emit. Qed.

Lemma Inv__update w : Inv w → Inv (_update w).
Proof. apply Inv_setTimeout_settings. Qed.

Lemma Inv_run_callback cb w : Inv w → Inv (run_callback cb w).
Proof.
  destruct cb; [apply Inv__doSendSignalStates | apply Inv__sendCurrentSettings].
Qed.

Lemma Inv_fire t w : Inv w → Inv (fire t w).
Proof.
  intros HI. unfold fire.
  destruct (list_find _ (timers w)) as [[i tm]|]; [|done].
  by apply Inv_run_callback, Inv_clearTimeout.
Qed.

Lemma Inv_foldl_fire ts w : Inv w → Inv (foldl (λ w' t, fire t w') w ts).
Proof.
  revert w. induction ts as [|t ts IH]; intros w HI; [done|].
  simpl. by apply IH, Inv_fire.
Qed.

Lemma Inv_tick w : Inv w → Inv (tick w).
Proof. intros HI. by apply Inv_foldl_fire, Inv_with_clock. Qed.

Lemma Inv_elapse ms w : Inv w → Inv (elapse ms w).
Proof.
  intros HI. induction ms as [|ms IH]; [done|]. by apply Inv_tick.
Qed.

(** *** Asynchronous code *)

Lemma preserves_resolve {A} P (a : A) : preserves P (resolve a).
Proof. by intros w HI. Qed.

Lemma preserves_sync P f : (∀ w, P w → P (f w)) → preserves P (sync f).
Proof. intros Hf w HI. by apply Hf. Qed.

Lemma preserves_await {A B} P (p : Async A) (k : A → Async B) :
  preserves P p → (∀ a, preserves P (k a)) → preserves P (await p k).
Proof.
  intros Hp Hk w HI. unfold await. specialize (Hp w HI).
  destruct (p w) as [[a|] w1]; simpl in *; [by apply Hk | done].
Qed.

Lemma preserves_catch {A} P (p q : Async A) :
  preserves P p → preserves P q → preserves P (catch p q).
Proof.
  intros Hp Hq w HI. unfold catch. specialize (Hp w HI).
  destruct (p w) as [[a|] w1]; simpl in *; [done | by apply Hq].
Qed.

Lemma preserves_Promise_all P ps :
  Forall (preserves P) ps → preserves P (Promise_all ps).
Proof.
  induction 1 as [|p ps Hp _ IH]; [apply preserves_resolve|].
  intros w HI. cbn [Promise_all]. specialize (Hp w HI).
  destruct (p w) as [r w1]. specialize (IH w1 Hp).
  by destruct (Promise_all ps w1) as [rs w2].
Qed.

(** *** A rule for what every reachable state satisfies *)

Section PanelInvariant.

Variable P : World → Prop.

Hypothesis P_opened : ∀ c now, P (opened c now).
Hypothesis P_elapse : ∀ ms w, P w → P (elapse ms w).
Hypothesis P_notice : ∀ e w, notice e → P w → P (emit e w).
Hypothesis P_written :
  ∀ k v w, P w →
    P (emit (WriteSettled k v true)
         (with_config (mkConfig (<[k := v]> (signals (config w)))
                                (projectLabel (config w))) w)).
Hypothesis P_flag_written :
  ∀ silent w, P w →
    P (emit (SettingWriteSettled silent true)
         (with_config
            (mkConfig (signals (config w))
                      (<["silenceAllSounds" := silent]> (projectLabel (config w))))
            w)).
Hypothesis P_replaced : ∀ c w, P w → P (emit (StoreReplaced c) (with_config c w)).
Hypothesis P__sendSignalStates : ∀ w, P w → P (_sendSignalStates w).
Hypothesis P__sendCurrentSettings : ∀ w, P w → P (_sendCurrentSettings w).
Hypothesis P__doSendSignalStates : ∀ w, P w → P (_doSendSignalStates w).
Hypothesis P_cancel_debounce : ∀ w, P w → P (cancel_debounce w).
Hypothesis P__update : ∀ w, P w → P (_update w).

Lemma kept_onDidChangeConfiguration pl sg w :
  P w → P (onDidChangeConfiguration pl sg w).
Proof.
  intros HP. unfold onDidChangeConfiguration. destruct pl, sg; auto.
Qed.

Lemma kept_signals_update h issued k v :
  preserves P (signals_update h issued k v).
Proof.
  intros w HP. unfold signals_update, wait_until.
  pose proof (P_elapse (issued + settles_after h k - clock w) w HP) as HP1.
  set (w1 := elapse _ w) in *.
  destruct (rejects h k); cbn [snd].
  - by apply P_notice.
  - by apply kept_onDidChangeConfiguration, P_written.
Qed.

Lemma kept_setting_update h silent : preserves P (setting_update h silent).
Proof.
  intros w HP. unfold setting_update.
  pose proof (P_elapse (setting_settles_after h) w HP) as HP1.
  set (w1 := elapse _ w) in *.
  destruct (rejects_setting h); cbn [snd].
  - by apply P_notice.
  - by apply kept_onDidChangeConfiguration, P_flag_written.
Qed.

Lemma kept_setSilenceAllSounds h silent :
  preserves P (setSilenceAllSounds h silent).
Proof.
  assert (∀ issued, preserves P
    (Promise_all
       ((λ key, catch (signals_update h issued key (sound_value silent))
                  (resolve tt))
          <$> settle_order h ALL_SOUND_SIGNALS) ;;
     catch (setting_update h silent) (resolve tt) ;;
     sync (showInformationMessage silent) ;;
     sync updateSoundStatusBar)) as Hp;
    [|intros w HP; exact (Hp (clock w) w HP)].
  intros issued. unfold mbind, Async_bind.
  repeat (apply preserves_await; [|intros _]).
  - apply preserves_Promise_all, Forall_fmap, Forall_forall. intros k _.
    apply preserves_catch;
      [apply kept_signals_update | apply preserves_resolve].
  - apply preserves_catch;
      [apply kept_setting_update | apply preserves_resolve].
  - apply preserves_sync. intros w'. by apply P_notice.
  - apply preserves_sync. intros w'. by apply P_notice.
Qed.

Lemma kept_executeCommand h cmd : preserves P (executeCommand h cmd).
Proof.
  unfold executeCommand. repeat case_bool_decide;
    try apply kept_setSilenceAllSounds. by intros w HP.
Qed.

Lemma kept_onDidReceiveMessage h msg :
  preserves P (onDidReceiveMessage h msg).
Proof.
  destruct msg as [sg v|v| |]; cbn [onDidReceiveMessage].
  - intros w. apply preserves_catch;
      [apply kept_signals_update | apply preserves_resolve].
  - unfold mbind, Async_bind.
    repeat (apply preserves_await; [|intros _]).
    + apply kept_executeCommand.
    + apply preserves_sync, P_cancel_debounce.
    + apply preserves_sync, P__doSendSignalStates.
  - apply preserves_sync, P__sendSignalStates.
  - apply preserves_sync, P__sendCurrentSettings.
Qed.

Lemma kept_step h i w : P w → P (step h i w).
Proof.
  intros HP. destruct i as [msg|c pl sg|ms|]; cbn [step].
  - by apply kept_onDidReceiveMessage.
  - by apply kept_onDidChangeConfiguration, P_replaced.
  - by apply P_elapse.
  - by apply P__update.
Qed.

Lemma kept_reachable w : reachable w → P w.
Proof. induction 1; [apply P_opened | by apply kept_step]. Qed.

End PanelInvariant.

(** *** Every state the panel reaches *)

Lemma Inv_notice e w : notice e → Inv w → Inv (emit e w).
Proof.
  intros He. apply Inv_emit.
  - intros sig. by destruct e as [| ? ? []| ? []| | |].
  - intros st ->. exact He.
Qed.

Lemma Inv_opened c now : Inv (opened c now).
Proof.
  apply Inv__update. split; [split| |]; simpl; try done.
  - intros tm Hin. by apply elem_of_nil in Hin.
  - constructor.
  - intros tm Hin. by apply elem_of_nil in Hin.
  - constructor.
Qed.


Lemma reachable_Inv w : reachable w → Inv w.
Proof.
  apply kept_reachable;
    auto using Inv_opened, Inv_elapse, Inv_notice, Inv__sendSignalStates,
      Inv__sendCurrentSettings, Inv__doSendSignalStates, Inv_cancel_debounce,
      Inv__update; intros; by apply Inv_record.
Qed.

(** At most one debounce timer is pending in a world that satisfies the
    timer discipline. *)
Lemma timers_ok_at_most_one w :
  timers_ok w → length (debounce_timers w) ≤ 1.
Proof.
  intros [H1 H2 H3].
  assert (∀ tm, tm ∈ debounce_timers w →
                _signalDebounce w = Some (handle tm)) as Hall.
  { intros tm [Hcb Hin]%list_elem_of_filter. by apply H3. }
  assert (NoDup (handle <$> debounce_timers w)) as Hnd.
  { eapply sublist_NoDup; [exact H2|]. apply fmap_sublist, sublist_filter. }
  destruct (debounce_timers w) as [|a [|b l]]; simpl; try lia.
  exfalso.
  pose proof (Hall a ltac:(left)) as Ha.
  pose proof (Hall b ltac:(right; left)) as Hb.
  rewrite Ha in Hb. injection Hb as Hab.
  rewrite !fmap_cons in Hnd. apply NoDup_cons_1_1 in Hnd.
  apply Hnd. rewrite Hab. left.
Qed.

(** ** Timers are due in time *)

Lemma timely_but_clearTimeout x hs w :
  timely_but (x :: hs) w → timely_but hs (clearTimeout x w).
Proof.
  intros H tm [Hne Hin]%list_elem_of_filter.
  destruct (H tm Hin) as [[Hlt|[Hd Hx]] Hup]; (split; [|exact Hup]).
  - by left.
  - right. split; [exact Hd|].
    apply elem_of_cons in Hx as [Hx|Hx]; [by destruct Hne | exact Hx].
Qed.

Lemma timely_but__sendSignalStates hs w :
  timely_but hs w → timely_but hs (_sendSignalStates w).
Proof.
  intros H tm. rewrite _sendSignalStates_timers, _sendSignalStates_clock.
  intros [Hin|Hin]%elem_of_app.
  - apply H. destruct (_signalDebounce w); [|done].
    by apply list_elem_of_filter in Hin as [_ Hin].
  - apply list_elem_of_singleton in Hin as ->. simpl. split; [left|]; lia.
Qed.

Lemma timely_but__sendCurrentSettings hs w :
  timely_but hs w → timely_but hs (_sendCurrentSettings w).
Proof. intros H. by apply timely_but__sendSignalStates. Qed.

Lemma timely_but_run_callback cb hs w :
  timely_but hs w → timely_but hs (run_callback cb w).
Proof. destruct cb; [done | apply timely_but__sendCurrentSettings]. Qed.

Lemma timely_but_fire x hs w :
  timely_but (x :: hs) w → timely_but hs (fire x w).
Proof.
  intros H. unfold fire.
  destruct (list_find _ (timers w)) as [[i tm]|] eqn:Hf.
  - by apply timely_but_run_callback, timely_but_clearTimeout.
  - apply list_find_None in Hf. intros tm Hin.
    destruct (H tm Hin) as [[Hlt|[Hd Hx]] Hup]; (split; [|exact Hup]);
      [by left|]. right. split; [exact Hd|].
    apply elem_of_cons in Hx as [Hx|Hx]; [|exact Hx].
    exfalso. rewrite Forall_forall in Hf. by apply (Hf tm Hin).
Qed.

Lemma timely_but_foldl_fire hs w :
  timely_but hs w → timely (foldl (λ w' t, fire t w') w hs).
Proof.
  revert w. induction hs as [|x hs IH]; intros w H; [exact H|].
  simpl. by apply IH, timely_but_fire.
Qed.

Lemma timely_tick w : timely w → timely (tick w).
Proof.
  intros H. unfold tick. apply timely_but_foldl_fire.
  intros tm Hin. cbn [with_clock timers clock] in *.
  destruct (H tm Hin) as [[Hlt|[_ Hx]] Hup];
    [|by apply elem_of_nil in Hx].
  split; [|lia].
  destruct (decide (due tm = S (clock w))) as [Heq|Hne]; [|left; lia].
  right. split; [exact Heq|].
  apply list_elem_of_fmap. exists tm. split; [done|].
  apply list_elem_of_filter. split; [lia | exact Hin].
Qed.

Lemma timely_elapse ms w : timely w → timely (elapse ms w).
Proof.
  intros H. induction ms as [|ms IH]; [done|]. by apply timely_tick.
Qed.

Lemma timely__update w : timely w → timely (_update w).
Proof.
  intros H tm. cbn [_update setTimeout snd timers clock].
  intros [Hin|Hin]%elem_of_app; [by apply H|].
  apply list_elem_of_singleton in Hin as ->. simpl. split; [left|]; lia.
Qed.

Lemma timely_cancel_debounce w : timely w → timely (cancel_debounce w).
Proof.
  intros H. unfold cancel_debounce. destruct (_signalDebounce w); [|done].
  intros tm [_ Hin]%list_elem_of_filter. by apply H.
Qed.

Lemma timely_opened c now : timely (opened c now).
Proof.
  apply timely__update. intros tm Hin. by apply elem_of_nil in Hin.
Qed.

Lemma reachable_timely w : reachable w → timely w.
Proof.
  apply kept_reachable.
  - apply timely_opened.
  - apply timely_elapse.
  - intros e w' _ H. exact H.
  - intros k v w' H. exact H.
  - intros silent w' H. exact H.
  - intros c w' H. exact H.
  - apply timely_but__sendSignalStates.
  - apply timely_but__sendCurrentSettings.
  - intros w' H. exact H.
  - apply timely_cancel_debounce.
  - apply timely__update.
Qed.

(** ** The debounce window *)

Lemma timers_ok_only_debounce w :
  timers_ok w → no_settings_timer w → only_debounce w.
Proof. intros [_ _ H3] Hno tm Hin. split; [by apply Hno | by apply H3, Hno]. Qed.

Lemma _sendSignalStates_arms w :
  only_debounce w → armed 300 (_sendSignalStates w).
Proof.
  intros Hod. exists (next_handle w).
  rewrite _sendSignalStates_timers, _sendSignalStates_clock,
    _sendSignalStates_debounce. split; [|done].
  assert (match _signalDebounce w with
          | Some t => filter (λ tm, handle tm ≠ t) (timers w)
          | None => timers w
          end = []) as ->; [|done].
  destruct (_signalDebounce w) as [t|] eqn:Hd.
  - apply filter_none. intros tm Hin Hne.
    destruct (Hod tm Hin) as [_ Heq]. congruence.
  - destruct (timers w) as [|tm l] eqn:Ht; [done|].
    destruct (Hod tm) as [_ Heq]; [rewrite Ht; left|congruence].
Qed.

Lemma tick_waits d w :
  armed (S (S d)) w →
  armed (S d) (tick w) ∧ config (tick w) = config w ∧ trace (tick w) = trace w.
Proof.
  intros (t & Ht & Hd). unfold tick. cbn [with_clock timers clock].
  rewrite Ht, filter_cons. cbn [due].
  destruct (decide (clock w + S (S d) ≤ S (clock w))) as [Hle|_]; [lia|].
  rewrite filter_nil. simpl.
  split; [|done]. exists t. simpl.
  rewrite Ht. split; [|done]. do 2 f_equal. lia.
Qed.

Lemma tick_fires w :
  armed 1 w →
  timers (tick w) = [] ∧ config (tick w) = config w
  ∧ trace (tick w)
    = trace w ++ [Posted (signalStates (read_states (signals (config w))))].
Proof.
  intros (t & Ht & Hd). unfold tick. cbn [with_clock timers clock].
  rewrite Ht, filter_cons. cbn [due].
  destruct (decide (clock w + 1 ≤ S (clock w))) as [_|Hn]; [|lia].
  rewrite filter_nil. simpl.
  unfold fire. simpl. rewrite Ht. simpl.
  rewrite decide_True by done. simpl.
  rewrite Ht, filter_cons. simpl.
  rewrite decide_False by (intros Hx; by apply Hx). by rewrite filter_nil.
Qed.

Lemma tick_idle w :
  timers w = [] →
  timers (tick w) = [] ∧ config (tick w) = config w ∧ trace (tick w) = trace w.
Proof.
  intros Ht. unfold tick. cbn [with_clock timers clock]. rewrite Ht.
  by rewrite filter_nil.
Qed.

(** The debounce timer fires exactly when its delay has elapsed: before
    that nothing is sent; at that moment the store is read and one snapshot
    is posted; afterwards nothing is pending. *)
Lemma elapse_armed D ms w :
  armed (S D) w →
  config (elapse ms w) = config w
  ∧ (ms ≤ D → armed (S D - ms) (elapse ms w)
              ∧ trace (elapse ms w) = trace w)
  ∧ (D < ms → timers (elapse ms w) = []
              ∧ trace (elapse ms w)
                = trace w
                  ++ [Posted (signalStates (read_states (signals (config w))))]).
Proof.
  intros Ha. induction ms as [|ms (IHc & IHw & IHf)].
  - split; [done|]. split; [|lia]. intros _. by rewrite Nat.sub_0_r.
  - rewrite elapse_S. set (w1 := elapse ms w) in *.
    destruct (decide (ms ≤ D)) as [Hle|Hgt].
    + destruct (IHw Hle) as [Harm Htr].
      destruct (decide (ms = D)) as [->|Hne].
      * replace (S D - D) with 1 in Harm by lia.
        destruct (tick_fires w1 Harm) as (T1 & T2 & T3).
        split; [congruence|]. split; [lia|]. intros _.
        split; [done|]. by rewrite T3, Htr, IHc.
      * replace (S D - ms) with (S (S (D - S ms))) in Harm by lia.
        destruct (tick_waits _ w1 Harm) as (T1 & T2 & T3).
        split; [congruence|]. split; [|lia]. intros _.
        replace (S D - S ms) with (S (D - S ms)) by lia.
        split; [done|congruence].
    + destruct IHf as [Hidle Htr]; [lia|].
      destruct (tick_idle w1 Hidle) as (T1 & T2 & T3).
      split; [congruence|]. split; [lia|]. intros _.
      split; [done|congruence].
Qed.

(** ** The master toggle *)

(** C1.  For either value of [silent], [setSilenceAllSounds] settles exactly
    one write per key of the registry, whatever the set of keys the store
    rejects and whatever the order in which the writes settle; a rejected
    write changes nothing but its own key's outcome: every key the store
    accepts holds the new value afterwards, every rejected key keeps its
    prior state, and the call always completes fulfilled, never rejected. *)
Theorem setSilenceAllSounds_isolates_failures (h : Host) (silent : bool)
    (w : World) :
  ∃ w',
    setSilenceAllSounds h silent w = (Fulfilled tt, w')
    ∧ signal_writes (trace w')
      = signal_writes (trace w)
        ++ ((λ k, (k, sound_value silent, negb (rejects h k)))
              <$> settle_order h ALL_SOUND_SIGNALS)
    ∧ settle_order h ALL_SOUND_SIGNALS ≡ₚ ALL_SOUND_SIGNALS
    ∧ NoDup ALL_SOUND_SIGNALS
    ∧ length ALL_SOUND_SIGNALS = 34
    ∧ ∀ k, signals (config w') !! k
           = if decide (k ∈ ALL_SOUND_SIGNALS)
             then (if rejects h k then signals (config w) !! k
                   else Some (sound_value silent))
             else signals (config w) !! k.
Proof.
  destruct (setSilenceAllSounds_run h silent w)
    as (w' & b & a & E & S & P & T & Wb & Gb & Wa & Ga).
  exists w'. split; [exact E|]. split.
  { rewrite T, !signal_writes_app, Wb, Wa. cbn [signal_writes omap list_omap].
    by rewrite app_nil_r. }
  split; [apply settle_order_perm|].
  split; [apply ALL_SOUND_SIGNALS_NoDup|]. split; [reflexivity|].
  intros k. rewrite S. apply apply_writes_lookup.
Qed.

(** A second fan-out changes nothing when it rejects at least the keys the
    first one rejected. *)
Lemma apply_writes_absorb rej1 rej2 v keys sig :
  (∀ k, rej1 k = true → rej2 k = true) →
  apply_writes rej2 v keys (apply_writes rej1 v keys sig)
  = apply_writes rej1 v keys sig.
Proof.
  intros Hsub. apply map_eq. intros k. rewrite !apply_writes_lookup.
  destruct (decide (k ∈ keys)); [|reflexivity].
  destruct (rej2 k) eqn:H2; [reflexivity|].
  destruct (rej1 k) eqn:H1; [|reflexivity].
  rewrite (Hsub k H1) in H2. discriminate.
Qed.

Lemma apply_setting_write_idem rejected silent pl :
  apply_setting_write rejected silent (apply_setting_write rejected silent pl)
  = apply_setting_write rejected silent pl.
Proof.
  unfold apply_setting_write. destruct rejected; [reflexivity|].
  apply insert_insert_eq.
Qed.

Lemma Config_eq (c1 c2 : Config) :
  signals c1 = signals c2 → projectLabel c1 = projectLabel c2 → c1 = c2.
Proof. destruct c1, c2. simpl. by intros -> ->. Qed.

(** C6.  Running [setSilenceAllSounds] a second time with the same argument
    (in particular [true]) right after the first, against a store that
    rejects the same writes, leaves the store, its signal section and its
    [projectLabel] section, exactly as the first run left it, however long
    the writes of either run are in flight; both runs complete. *)
Theorem setSilenceAllSounds_idempotent (rej : string → bool) (rej_flag : bool)
    (at1 at2 : string → nat) (after1 after2 : nat) (silent : bool)
    (w : World) :
  let once := setSilenceAllSounds (mkHost rej rej_flag at1 after1) silent w in
  let twice :=
    setSilenceAllSounds (mkHost rej rej_flag at2 after2) silent (snd once) in
  fst once = Fulfilled tt ∧ fst twice = Fulfilled tt
  ∧ signals (config (snd twice)) = signals (config (snd once))
  ∧ config (snd twice) = config (snd once).
Proof.
  cbn zeta.
  destruct (setSilenceAllSounds_run (mkHost rej rej_flag at1 after1) silent w)
    as (w1 & _ & _ & E1 & S1 & P1 & _).
  rewrite E1. cbn [fst snd].
  destruct (setSilenceAllSounds_run (mkHost rej rej_flag at2 after2) silent w1)
    as (w2 & _ & _ & E2 & S2 & P2 & _).
  rewrite E2. cbn [fst snd]. cbn [rejects rejects_setting] in *.
  assert (signals (config w2) = signals (config w1)) as HS.
  { rewrite S2, S1. by apply apply_writes_absorb. }
  assert (projectLabel (config w2) = projectLabel (config w1)) as HP.
  { rewrite P2, P1. apply apply_setting_write_idem. }
  split; [reflexivity|]. split; [reflexivity|]. split; [exact HS|].
  apply Config_eq; assumption.
Qed.

(** C10.  A run of [setSilenceAllSounds] attempts the write of
    [projectLabel.silenceAllSounds] exactly once, after every per-signal
    write has settled.  When the store accepts it the flag holds [silent];
    when the store rejects it the flag keeps its prior state, the signal
    section is the one the per-signal writes produced, and the call still
    completes fulfilled. *)
Theorem setSilenceAllSounds_persists_flag (h : Host) (silent : bool)
    (w : World) :
  ∃ w' before after,
    setSilenceAllSounds h silent w = (Fulfilled tt, w')
    ∧ trace w'
      = trace w ++ before
        ++ [SettingWriteSettled silent (negb (rejects_setting h))] ++ after
    ∧ signal_writes before
      = (λ k, (k, sound_value silent, negb (rejects h k)))
          <$> settle_order h ALL_SOUND_SIGNALS
    ∧ signal_writes after = [] ∧ setting_writes before = []
    ∧ setting_writes after = []
    ∧ projectLabel (config w') !! "silenceAllSounds"
      = (if rejects_setting h
         then projectLabel (config w) !! "silenceAllSounds"
         else Some silent)
    ∧ projectLabel (config w')
      = (if rejects_setting h then projectLabel (config w)
         else <["silenceAllSounds" := silent]> (projectLabel (config w)))
    ∧ signals (config w')
      = apply_writes (rejects h) (sound_value silent) ALL_SOUND_SIGNALS
          (signals (config w)).
Proof.
  destruct (setSilenceAllSounds_run h silent w)
    as (w' & b & a & E & S & P & T & Wb & Gb & Wa & Ga).
  exists w', b, a. split; [exact E|]. split; [exact T|].
  split; [exact Wb|]. split; [exact Wa|]. split; [exact Gb|].
  split; [exact Ga|].
  rewrite P, S. unfold apply_setting_write.
  destruct (rejects_setting h); [done|]. by rewrite lookup_insert_eq.
Qed.

(** ** The individual toggle *)

(** C8.  The [updateSignal] handler settles exactly one write, to the key of
    the message, and none to [projectLabel]; nothing else is observable
    but what the timers of the panel post while the write is in flight, and
    the handler completes even when the store rejects the write.  Every
    other key of the store keeps its state, so a snapshot read afterwards
    agrees with one read before on every key but that one. *)
Theorem updateSignal_writes_one_key (h : Host) (signal : string) (value : bool)
    (w : World) :
  ∃ w' meanwhile,
    onDidReceiveMessage h (updateSignal signal value) w = (Fulfilled tt, w')
    ∧ trace w'
      = trace w ++ meanwhile
        ++ [WriteSettled signal (sound_value value) (negb (rejects h signal))]
    ∧ Forall is_post meanwhile
    ∧ signal_writes (trace w')
      = signal_writes (trace w)
        ++ [(signal, sound_value value, negb (rejects h signal))]
    ∧ setting_writes (trace w') = setting_writes (trace w)
    ∧ signals (config w')
      = (if rejects h signal then signals (config w)
         else <[signal := sound_value value]> (signals (config w)))
    ∧ delete signal (signals (config w')) = delete signal (signals (config w))
    ∧ projectLabel (config w') = projectLabel (config w)
    ∧ delete signal (read_states (signals (config w')))
      = delete signal (read_states (signals (config w))).
Proof.
  cbn [onDidReceiveMessage].
  destruct (guarded_update_run h (clock w) signal (sound_value value) w)
    as (w' & t & E & S & P & T & F).
  exists w', t. split; [exact E|]. split; [exact T|]. split; [exact F|].
  split.
  { rewrite T, !signal_writes_app, (posts_no_signal_writes t F).
    reflexivity. }
  split.
  { rewrite T, !setting_writes_app, (posts_no_setting_writes t F).
    cbn [setting_writes omap list_omap]. by rewrite !app_nil_r. }
  split; [exact S|].
  assert (delete signal (signals (config w'))
          = delete signal (signals (config w))) as Hdel.
  { rewrite S. destruct (rejects h signal); [reflexivity|].
    apply delete_insert_eq. }
  split; [exact Hdel|]. split; [exact P|].
  apply map_eq. intros k. destruct (decide (k = signal)) as [->|Hne].
  - by rewrite !lookup_delete_eq.
  - rewrite !lookup_delete_ne by done. rewrite !read_states_lookup.
    destruct (decide (k ∈ ALL_SIGNALS)); [|reflexivity].
    assert (signals (config w') !! k = signals (config w) !! k) as ->;
      [|reflexivity].
    rewrite <- (lookup_delete_ne (signals (config w')) signal k) by done.
    rewrite Hdel. by rewrite lookup_delete_ne.
Qed.

(** ** Absent keys *)

Lemma read_states_absent_unmuted sig k :
  read_states (delete k sig) = read_states (<[k := sound_value false]> sig).
Proof.
  apply map_eq. intros k'. rewrite !read_states_lookup.
  destruct (decide (k' ∈ ALL_SIGNALS)); [|reflexivity].
  destruct (decide (k' = k)) as [->|Hne].
  - by rewrite lookup_delete_eq, lookup_insert_eq.
  - by rewrite lookup_delete_ne, lookup_insert_ne.
Qed.

(** C9, as stated, fails: nothing the code sends tells a key that is absent
    from the store from a key stored as unmuted.  Were they told apart, the
    snapshot of a store without ["save"] would differ from the snapshot of
    the same store with ["save"] stored as [{ sound: 'on' }]. *)
Lemma absent_key_not_distinguished :
  ¬ (∀ (sig : gmap string SignalValue) (k : string),
       k ∈ ALL_SIGNALS → sig !! k = None →
       read_states sig !! k ≠ read_states (<[k := sound_value false]> sig) !! k).
Proof.
  intros H. apply (H (∅ : gmap string SignalValue) "save").
  - apply (bool_decide_unpack _). vm_compute. exact I.
  - apply lookup_empty.
  - rewrite <- read_states_absent_unmuted. by rewrite delete_empty.
Qed.

(** C9, amended.  A key that is absent from the store is reported in the
    snapshot as [false], exactly as a key stored as unmuted is.  Absence
    aborts nothing: the snapshot still has its entry for every key of the
    registry, and a master toggle still completes, writing every key the
    store accepts and leaving each rejected key as it was, absent if it was
    absent. *)
Theorem absent_key_tolerated (h : Host) (silent : bool) (w : World)
    (sig : gmap string SignalValue) (k : string) :
  read_states (delete k sig) = read_states (<[k := sound_value false]> sig)
  ∧ read_states (delete k sig) !! k
    = (if decide (k ∈ ALL_SIGNALS) then Some false else None)
  ∧ (∀ k', read_states (delete k sig) !! k'
           = if decide (k' ∈ ALL_SIGNALS)
             then Some (sound_is_off (delete k sig !! k')) else None)
  ∧ ∃ w',
      setSilenceAllSounds h silent w = (Fulfilled tt, w')
      ∧ ∀ k', signals (config w') !! k'
              = if decide (k' ∈ ALL_SOUND_SIGNALS)
                then (if rejects h k' then signals (config w) !! k'
                      else Some (sound_value silent))
                else signals (config w) !! k'.
Proof.
  split; [apply read_states_absent_unmuted|]. split.
  { rewrite read_states_lookup, lookup_delete_eq. reflexivity. }
  split; [intros k'; apply read_states_lookup|].
  destruct (setSilenceAllSounds_run h silent w) as (w' & _ & _ & E & S & _).
  exists w'. split; [exact E|]. intros k'. rewrite S.
  apply apply_writes_lookup.
Qed.

(** ** The flush after a master toggle *)

Lemma executeCommand_toggle h (value : bool) :
  executeCommand h (if value then "projectLabel.silenceAllSounds"
                    else "projectLabel.unsilenceAllSounds")
  = setSilenceAllSounds h value.
Proof. by destruct value. Qed.

Lemma silenceAll_run h value w w1 :
  setSilenceAllSounds h value w = (Fulfilled tt, w1) →
  onDidReceiveMessage h (silenceAll value) w
  = (Fulfilled tt, _doSendSignalStates (cancel_debounce w1)).
Proof.
  intros E. cbn [onDidReceiveMessage]. rewrite executeCommand_toggle.
  unfold mbind, Async_bind, await. rewrite E. reflexivity.
Qed.

Lemma cancel_debounce_config w : config (cancel_debounce w) = config w.
Proof. unfold cancel_debounce. by destruct (_signalDebounce w). Qed.

Lemma cancel_debounce_trace w : trace (cancel_debounce w) = trace w.
Proof. unfold cancel_debounce. by destruct (_signalDebounce w). Qed.


(** ** Debounced sends *)

Lemma debounce_after_send w :
  timers_ok w →
  debounce_timers (_sendSignalStates w)
  = [mkTimer (next_handle w) (clock w + 300) CbDoSendSignalStates].
Proof.
  intros Hok. unfold debounce_timers.
  rewrite _sendSignalStates_timers, filter_app.
  assert (filter (λ tm, callback tm = CbDoSendSignalStates)
            (match _signalDebounce w with
             | Some t => filter (λ tm, handle tm ≠ t) (timers w)
             | None => timers w
             end) = []) as ->.
  { destruct (_signalDebounce w) as [t|] eqn:Hd.
    - by apply (clear_tracked_no_debounce t w).
    - by apply untracked_no_debounce. }
  reflexivity.
Qed.

(** C7, as stated, fails: the handler of [requestSignals] posts nothing.  In
    the panel as opened the trace is the same after the message was handled
    as before. *)
Lemma requestSignals_sends_nothing_at_once :
  ¬ (∀ (h : Host) (w : World),
       reachable w →
       ∃ st, trace (snd (onDidReceiveMessage h requestSignals w))
             = trace w ++ [Posted (signalStates st)]).
Proof.
  intros H.
  destruct (H (mkHost (λ _, false) false (λ _, 0) 0)
              (opened (mkConfig ∅ ∅) 0) (reachable_opened _ _)) as [st Hst].
  cbn [onDidReceiveMessage sync snd] in Hst.
  rewrite _sendSignalStates_trace in Hst. simpl in Hst. discriminate.
Qed.

(** ** Coalescing *)

Lemma run_cons h i inputs w : run h (i :: inputs) w = run h inputs (step h i w).
Proof. reflexivity. Qed.

Lemma run_app h i1 i2 w : run h (i1 ++ i2) w = run h i2 (run h i1 w).
Proof. apply foldl_app. Qed.

Lemma timers_ok_same w w' :
  timers w' = timers w → next_handle w' = next_handle w →
  _signalDebounce w' = _signalDebounce w → timers_ok w → timers_ok w'.
Proof.
  intros Ht Hn Hd [H1 H2 H3]. split; rewrite ?Ht, ?Hn, ?Hd; assumption.
Qed.

Lemma before_burst_same H w w' :
  timers w' = timers w → next_handle w' = next_handle w →
  _signalDebounce w' = _signalDebounce w → clock w' = clock w →
  before_burst H w → before_burst H w'.
Proof.
  intros Ht Hn Hd Hc (Hok & Hh & Hs). split; [by apply (timers_ok_same w)|].
  rewrite Hc, Ht. by split.
Qed.

Lemma bursting_before H L w : bursting H L [] w → before_burst H w.
Proof.
  intros [Hok [_ Hh] _ Hs _]. split; [done|]. split; [done|].
  intros tm Hin Hcb. destruct (Hs tm Hin Hcb) as [[Hlt|[_ Hx]] Hup];
    [done | by apply elem_of_nil in Hx].
Qed.

Lemma reachable_before_burst w :
  timers_ok w → timely w → before_burst (clock w + 200) w.
Proof.
  intros Hok Ht. split; [done|]. split; [lia|]. intros tm Hin Hcb.
  destruct (Ht tm Hin) as [[Hlt|[_ Hx]] Hup]; [|by apply elem_of_nil in Hx].
  rewrite Hcb in Hup. simpl in Hup. lia.
Qed.

Lemma no_settings_before_burst w :
  timers_ok w → no_settings_timer w → before_burst 0 w.
Proof.
  intros Hok Hno. split; [done|]. split; [lia|]. intros tm Hin Hcb.
  rewrite (Hno tm Hin) in Hcb. discriminate.
Qed.

Lemma _sendSignalStates_bursts H w :
  before_burst H w → bursting H (clock w) [] (_sendSignalStates w).
Proof.
  intros (Hok & Hh & Hs). split.
  - by apply timers_ok__sendSignalStates.
  - rewrite _sendSignalStates_clock. lia.
  - exists (next_handle w), (clock w + 300).
    rewrite _sendSignalStates_debounce, _sendSignalStates_timers,
      _sendSignalStates_clock.
    split; [done|]. split; [apply elem_of_app; right; by left|]. lia.
  - rewrite _sendSignalStates_timers, _sendSignalStates_clock.
    intros tm [Hin|Hin]%elem_of_app Hcb.
    + assert (tm ∈ timers w) as Hin'.
      { destruct (_signalDebounce w); [|done].
        by apply list_elem_of_filter in Hin as [_ Hin]. }
      destruct (Hs tm Hin' Hcb). split; [by left | done].
    + apply list_elem_of_singleton in Hin as ->. discriminate.
  - intros x Hx. by apply elem_of_nil in Hx.
Qed.

Lemma notification_bursts h H ch w :
  before_burst H w →
  bursting H (clock w) [] (step h (notification ch) w)
  ∧ config (step h (notification ch) w) = new_config ch
  ∧ clock (step h (notification ch) w) = clock w
  ∧ snapshots_sent (trace (step h (notification ch) w))
    = snapshots_sent (trace w).
Proof.
  intros Hb. destruct ch as [c pl].
  cbn [step notification new_config affects_projectLabel].
  set (w1 := emit (StoreReplaced c) (with_config c w)).
  assert (before_burst H w1) as Hb1 by (by apply (before_burst_same H w)).
  unfold onDidChangeConfiguration. destruct pl.
  - unfold _sendCurrentSettings.
    set (w2 := postMessage _ w1).
    assert (before_burst H w2) as Hb2 by (by apply (before_burst_same H w1)).
    pose proof (_sendSignalStates_bursts H w2 Hb2) as Hb3.
    apply bursting_before in Hb3.
    pose proof (_sendSignalStates_bursts H _ Hb3) as Hb4.
    rewrite !_sendSignalStates_clock in Hb4.
    rewrite !_sendSignalStates_config, !_sendSignalStates_clock,
      !_sendSignalStates_trace.
    split; [exact Hb4|]. split; [reflexivity|]. split; [reflexivity|].
    subst w2 w1. cbn [postMessage emit with_config trace].
    rewrite !snapshots_sent_app. simpl. by rewrite !app_nil_r.
  - pose proof (_sendSignalStates_bursts H w1 Hb1) as Hb2.
    rewrite _sendSignalStates_config, _sendSignalStates_clock,
      _sendSignalStates_trace.
    split; [exact Hb2|]. split; [reflexivity|]. split; [reflexivity|].
    subst w1. cbn [emit with_config trace].
    rewrite snapshots_sent_app. simpl. by rewrite app_nil_r.
Qed.

Lemma NoDup_handles_eq (l : list Timer) a b :
  NoDup (handle <$> l) → a ∈ l → b ∈ l → handle a = handle b → a = b.
Proof.
  intros Hnd Ha Hb Heq.
  apply list_elem_of_lookup in Ha as [i Hi], Hb as [j Hj].
  assert (i = j) as ->.
  { eapply (NoDup_lookup _ i j (handle a) Hnd).
    - by rewrite list_lookup_fmap, Hi.
    - by rewrite list_lookup_fmap, Hj, Heq. }
  congruence.
Qed.

Lemma clock_run_callback cb w : clock (run_callback cb w) = clock w.
Proof. destruct cb; [done | apply _sendCurrentSettings_clock]. Qed.

Lemma clock_fire x w : clock (fire x w) = clock w.
Proof.
  unfold fire. destruct (list_find _ (timers w)) as [[i tm]|]; [|done].
  by rewrite clock_run_callback.
Qed.

Lemma clock_foldl_fire hs w : clock (foldl (λ w' t, fire t w') w hs) = clock w.
Proof.
  revert w. induction hs as [|x hs IH]; intros w; [done|].
  simpl. by rewrite IH, clock_fire.
Qed.

Lemma clock_tick w : clock (tick w) = S (clock w).
Proof. unfold tick. by rewrite clock_foldl_fire. Qed.

Lemma clock_elapse ms w : clock (elapse ms w) = clock w + ms.
Proof.
  induction ms as [|ms IH]; [simpl; lia|].
  rewrite elapse_S, clock_tick, IH. lia.
Qed.

(** During a burst a timer that fires is a waiting [_update]: it sends the
    settings and starts the debounce window anew. *)
Lemma fire_bursting H L x hs w :
  bursting H L (x :: hs) w →
  bursting H L hs (fire x w)
  ∧ config (fire x w) = config w
  ∧ snapshots_sent (trace (fire x w)) = snapshots_sent (trace w).
Proof.
  intros [Hok [HL HH] (t & dd & Hd & Hin & Hc & Hh & Hl & Hu) Hs Hdue].
  unfold fire. destruct (list_find _ (timers w)) as [[i tm]|] eqn:Hf.
  - apply list_find_Some in Hf as (Hi & Hx & _).
    assert (tm ∈ timers w) as Htm by (by eapply list_elem_of_lookup_2).
    assert (callback tm = CbSendCurrentSettings) as Hcb.
    { destruct (callback tm) eqn:Hcb; [|done]. exfalso.
      destruct (Hdue x ltac:(left)) as [_ Hne]. apply Hne.
      rewrite <- Hx. by apply (debounce_tracked w Hok). }
    assert (clock w ≤ H) as HcH.
    { destruct (Hs tm Htm Hcb) as [[?|[? _]] ?]; lia. }
    rewrite Hcb. cbn [run_callback]. unfold _sendCurrentSettings.
    set (w1 := postMessage _ (clearTimeout x w)).
    assert (timers_ok w1) as Hok1.
    { apply (timers_ok_same (clearTimeout x w)); try done.
      by apply timers_ok_clearTimeout. }
    split; [|split].
    + split.
      * by apply timers_ok__sendSignalStates.
      * rewrite _sendSignalStates_clock. subst w1. simpl. lia.
      * exists (next_handle w), (clock w + 300).
        rewrite _sendSignalStates_debounce, _sendSignalStates_timers,
          _sendSignalStates_clock.
        split; [done|]. split; [apply elem_of_app; right; by left|].
        subst w1; simpl. lia.
      * rewrite _sendSignalStates_timers, _sendSignalStates_clock.
        intros tm' [Hin'|Hin']%elem_of_app Hcb'.
        -- assert (tm' ∈ timers w ∧ handle tm' ≠ x) as [Hin'' Hne].
           { subst w1. cbn [postMessage emit clearTimeout timers
                            _signalDebounce] in Hin'.
             destruct (_signalDebounce w);
               [apply list_elem_of_filter in Hin' as [_ Hin']|];
               apply list_elem_of_filter in Hin' as [? ?]; done. }
           destruct (Hs tm' Hin'' Hcb') as [[Hlt|[Heq Hmem]] Hup];
             (split; [|exact Hup]); [by left|]. right. split; [exact Heq|].
           apply elem_of_cons in Hmem as [Hmem|Hmem]; [done|exact Hmem].
        -- apply list_elem_of_singleton in Hin' as ->. discriminate.
      * rewrite _sendSignalStates_next_handle, _sendSignalStates_debounce.
        intros y Hy. destruct (Hdue y ltac:(by right)) as [Hlt _].
        subst w1; simpl. split; [lia|]. intros [= Heq]. lia.
    + by rewrite _sendSignalStates_config.
    + rewrite _sendSignalStates_trace. subst w1.
      cbn [postMessage emit clearTimeout trace].
      rewrite snapshots_sent_app. simpl. by rewrite app_nil_r.
  - apply list_find_None in Hf. rewrite Forall_forall in Hf.
    split; [|done]. split; try done.
    + by exists t, dd.
    + intros tm Htm Hcb.
      destruct (Hs tm Htm Hcb) as [[Hlt|[Heq Hmem]] Hup];
        (split; [|exact Hup]); [by left|]. right. split; [exact Heq|].
      apply elem_of_cons in Hmem as [Hmem|Hmem]; [|exact Hmem].
      by destruct (Hf tm Htm).
    + intros y Hy. apply Hdue. by right.
Qed.

Lemma foldl_fire_bursting H L hs w :
  bursting H L hs w →
  bursting H L [] (foldl (λ w' t, fire t w') w hs)
  ∧ config (foldl (λ w' t, fire t w') w hs) = config w
  ∧ snapshots_sent (trace (foldl (λ w' t, fire t w') w hs))
    = snapshots_sent (trace w).
Proof.
  revert w. induction hs as [|x hs IH]; intros w Hb; [done|].
  destruct (fire_bursting H L x hs w Hb) as (Hb1 & Hc1 & Hs1).
  destruct (IH _ Hb1) as (Hb2 & Hc2 & Hs2).
  simpl. split; [exact Hb2|]. split; congruence.
Qed.

(** One millisecond of a burst: either the window is still open and no
    snapshot was sent, or the debounce timer was the only one left, it
    fired, and the snapshot of the store was sent. *)
Lemma tick_bursting H L w :
  bursting H L [] w →
  config (tick w) = config w
  ∧ ((bursting H L [] (tick w)
      ∧ snapshots_sent (trace (tick w)) = snapshots_sent (trace w))
     ∨ (timers (tick w) = []
        ∧ trace (tick w)
          = trace w ++ [Posted (signalStates (read_states (signals (config w))))]
        ∧ L + 300 ≤ S (clock w))).
Proof.
  intros Hb.
  destruct Hb as [Hok [HL HH] (t & dd & Hd & Hin & Hc & Hh & Hl & Hu) Hs Hdue].
  destruct (decide (dd ≤ S (clock w))) as [Hfire|Hwait].
  - assert (timers w = [mkTimer t dd CbDoSendSignalStates]) as Htm.
    { assert (∀ tm, tm ∈ timers w → tm = mkTimer t dd CbDoSendSignalStates)
        as Hall.
      { intros tm Htm.
        apply (NoDup_handles_eq (timers w)); try done;
          [apply (handles_NoDup w Hok)|].
        destruct (callback tm) eqn:Hcb.
        - pose proof (debounce_tracked w Hok tm Htm Hcb) as Heq.
          rewrite Hd in Heq. by injection Heq as ->.
        - destruct (Hs tm Htm Hcb) as [[?|[_ Hx]] ?]; [lia|].
          by apply elem_of_nil in Hx. }
      pose proof (handles_NoDup w Hok) as Hnd.
      destruct (timers w) as [|a [|b l]].
      - by apply elem_of_nil in Hin.
      - f_equal. apply Hall. by left.
      - exfalso. rewrite !fmap_cons in Hnd. apply NoDup_cons_1_1 in Hnd.
        apply Hnd. rewrite (Hall a), (Hall b); [left| right; left | left]. }
    assert (armed 1 w) as Ha.
    { exists t. split; [|done]. rewrite Htm. do 2 f_equal. lia. }
    destruct (tick_fires w Ha) as (T1 & T2 & T3).
    split; [exact T2|]. right. split; [exact T1|]. split; [exact T3|]. lia.
  - set (w1 := with_clock (S (clock w)) w).
    set (hs := handle <$> filter (λ tm, due tm ≤ clock w1) (timers w1)).
    assert (bursting H L hs w1) as Hb1.
    { split.
      - by apply (timers_ok_same w).
      - subst w1. simpl. lia.
      - exists t, dd. subst w1. simpl. repeat split; try done; lia.
      - intros tm Htm Hcb. destruct (Hs tm Htm Hcb) as [[Hlt|[_ Hx]] Hup];
          [|by apply elem_of_nil in Hx]. split; [|exact Hup].
        subst w1 hs. cbn [with_clock clock timers] in *.
        destruct (decide (due tm = S (clock w))) as [Heq|Hne]; [|left; lia].
        right. split; [exact Heq|].
        apply list_elem_of_fmap. exists tm. split; [done|].
        apply list_elem_of_filter. split; [lia | exact Htm].
      - intros x Hx. subst hs w1. cbn [with_clock clock timers] in *.
        apply list_elem_of_fmap in Hx as (tm & -> & Htm).
        apply list_elem_of_filter in Htm as [Hdue' Htm].
        split; [by apply (handles_fresh w Hok)|].
        simpl. rewrite Hd. intros [= Heq].
        assert (tm = mkTimer t dd CbDoSendSignalStates) as ->.
        { apply (NoDup_handles_eq (timers w)); try done.
          apply (handles_NoDup w Hok). }
        simpl in Hdue'. lia. }
    destruct (foldl_fire_bursting H L hs w1 Hb1) as (Hb2 & Hc2 & Hs2).
    split; [exact Hc2|]. left. split; [exact Hb2 | exact Hs2].
Qed.

Lemma elapse_bursting H L ms w :
  bursting H L [] w →
  config (elapse ms w) = config w
  ∧ ((bursting H L [] (elapse ms w)
      ∧ snapshots_sent (trace (elapse ms w)) = snapshots_sent (trace w))
     ∨ (timers (elapse ms w) = []
        ∧ snapshots_sent (trace (elapse ms w))
          = snapshots_sent (trace w) ++ [read_states (signals (config w))]
        ∧ L + 300 ≤ clock w + ms)).
Proof.
  intros Hb. induction ms as [|ms (IHc & IH)].
  - split; [done|]. left. by split.
  - rewrite elapse_S. destruct IH as [[Hb1 Hs1]|(Ht1 & Hs1 & Hl1)].
    + destruct (tick_bursting H L _ Hb1) as (Hc2 & [[Hb2 Hs2]|(Ht2 & Hs2 & Hl2)]).
      * split; [congruence|]. left. split; [exact Hb2 | congruence].
      * split; [congruence|]. right. split; [exact Ht2|].
        rewrite clock_elapse in Hl2. split; [|lia].
        rewrite Hs2, snapshots_sent_app, Hs1, IHc. reflexivity.
    + destruct (tick_idle _ Ht1) as (Ht2 & Hc2 & Hs2).
      split; [congruence|]. right. split; [exact Ht2|].
      split; [congruence | lia].
Qed.

(** Before 300 ms have passed since the last notification no snapshot is
    sent; once 300 ms have passed since it and since the last [_update]
    fired, exactly one has been sent and nothing is pending. *)
Lemma elapse_bursting_early H L ms w :
  bursting H L [] w → clock w + ms < L + 300 →
  bursting H L [] (elapse ms w)
  ∧ snapshots_sent (trace (elapse ms w)) = snapshots_sent (trace w).
Proof.
  intros Hb Hlt. destruct (elapse_bursting H L ms w Hb) as (_ & [Hw|Hf]);
    [exact Hw|]. destruct Hf as (_ & _ & Hge). lia.
Qed.

Lemma elapse_bursting_late H L ms w :
  bursting H L [] w → Nat.max H L + 300 ≤ clock w + ms →
  timers (elapse ms w) = []
  ∧ snapshots_sent (trace (elapse ms w))
    = snapshots_sent (trace w) ++ [read_states (signals (config w))].
Proof.
  intros Hb Hge. destruct (elapse_bursting H L ms w Hb) as (_ & [Hw|Hf]).
  - destruct Hw as [[_ _ (t & dd & _ & _ & Hc & _ & _ & Hu) _ _] _].
    rewrite clock_elapse in Hc. lia.
  - destruct Hf as (Ht & Hs & _). by split.
Qed.

Lemma burst_run h H rest :
  ∀ first w,
    before_burst H w → Forall (λ gc, fst gc < 300) rest →
    bursting H (clock (run h (burst first rest) w)) []
      (run h (burst first rest) w)
    ∧ config (run h (burst first rest) w) = new_config (last_change first rest)
    ∧ snapshots_sent (trace (run h (burst first rest) w))
      = snapshots_sent (trace w).
Proof.
  induction rest as [|[d ch] rest IH]; intros first w Hb Hgaps.
  - cbn [burst last_change]. rewrite run_cons. cbn [run foldl].
    destruct (notification_bursts h H first w Hb) as (B & C & K & S).
    rewrite K. by split.
  - apply Forall_cons in Hgaps as [Hd Hgaps]. cbn [fst] in Hd.
    cbn [burst last_change]. rewrite !run_cons.
    change (step h (Elapsed d) (step h (notification first) w))
      with (elapse d (step h (notification first) w)).
    destruct (notification_bursts h H first w Hb) as (B & C & K & S).
    set (w1 := step h (notification first) w) in *.
    destruct (elapse_bursting_early H (clock w) d w1 B ltac:(lia))
      as (B' & S').
    destruct (IH ch _ (bursting_before _ _ _ B') Hgaps) as (R1 & R2 & R3).
    split; [exact R1|]. split; [exact R2|]. congruence.
Qed.

(** C7, amended.  Receiving [requestSignals] sends nothing at once and
    leaves the store alone: it cancels the pending debounce timer, if any,
    and starts a new one due 300 ms later.  With no further input no
    snapshot is sent before those 300 ms have passed, at no time more than
    one, and once 500 ms have passed one has been sent, the reading of the
    store, and no timer is left.  When no [_update] is waiting it is sent
    when the 300 ms have passed, and nothing else is; an [_update] that
    fires in between, on a panel just opened or revealed, sends the settings
    and starts the debounce timer anew through [_sendSignalStates], which is
    why the snapshot may take up to 500 ms. *)
Theorem requestSignals_is_debounced (h : Host) (w : World) :
  reachable w →
  ∃ w',
    onDidReceiveMessage h requestSignals w = (Fulfilled tt, w')
    ∧ trace w' = trace w
    ∧ config w' = config w
    ∧ debounce_timers w'
      = [mkTimer (next_handle w) (clock w + 300) CbDoSendSignalStates]
    ∧ _signalDebounce w' = Some (next_handle w)
    ∧ (∀ ms, ms < 300 →
             snapshots_sent (trace (elapse ms w')) = snapshots_sent (trace w))
    ∧ (∀ ms, snapshots_sent (trace (elapse ms w')) = snapshots_sent (trace w)
             ∨ snapshots_sent (trace (elapse ms w'))
               = snapshots_sent (trace w)
                 ++ [read_states (signals (config w))])
    ∧ (∀ ms, 500 ≤ ms →
             snapshots_sent (trace (elapse ms w'))
             = snapshots_sent (trace w) ++ [read_states (signals (config w))]
             ∧ timers (elapse ms w') = [])
    ∧ (no_settings_timer w →
       ∀ ms, trace (elapse ms w')
             = trace w
               ++ (if decide (ms < 300) then []
                   else [Posted (signalStates
                                   (read_states (signals (config w))))])).
Proof.
  intros Hr. pose proof (reachable_timely w Hr) as Hty.
  apply reachable_Inv in Hr. destruct Hr as [Hok _ _].
  pose proof (_sendSignalStates_bursts (clock w + 200) w
                (reachable_before_burst w Hok Hty)) as Hb.
  pose proof (_sendSignalStates_trace w) as Htr.
  pose proof (_sendSignalStates_config w) as Hcfg.
  pose proof (_sendSignalStates_clock w) as Hclk.
  exists (_sendSignalStates w). split; [reflexivity|].
  split; [exact Htr|]. split; [exact Hcfg|].
  split; [by apply debounce_after_send|].
  split; [apply _sendSignalStates_debounce|].
  split; [|split; [|split]].
  - intros ms Hms.
    destruct (elapse_bursting_early _ _ ms _ Hb) as [_ Hs]; [lia|].
    by rewrite Hs, Htr.
  - intros ms.
    destruct (elapse_bursting _ _ ms _ Hb) as (_ & [[_ Hs]|(_ & Hs & _)]);
      rewrite Hs, Htr, ?Hcfg; [by left|by right].
  - intros ms Hms.
    destruct (elapse_bursting_late _ _ ms _ Hb) as [Ht Hs]; [lia|].
    split; [|exact Ht]. by rewrite Hs, Htr, Hcfg.
  - intros Hno ms.
    pose proof (_sendSignalStates_arms w (timers_ok_only_debounce w Hok Hno))
      as Harm.
    destruct (elapse_armed 299 ms _ Harm) as (Hc & Hw & Hf).
    rewrite Htr, Hcfg in *.
    destruct (decide (ms < 300)) as [Hlt|Hge].
    + destruct Hw as [_ ->]; [lia|]. by rewrite app_nil_r.
    + destruct Hf as [_ ->]; [lia|]. reflexivity.
Qed.

(** C3.  In every state the panel can reach at most one debounce timer is
    pending, and so it is after any further input.  A change notification
    leaves exactly one pending, a new one due 300 ms later, whatever was
    pending before.  Hence a burst of notifications, each less than 300 ms
    after the one before, sends no snapshot while it lasts, and exactly
    one afterwards: the reading of the store as the last change left it.
    That one has been sent, and no timer is left pending, once 500 ms have
    passed since the last notification, or 300 ms when no [_update] was
    waiting as the burst began. *)
Theorem single_pending_broadcast (h : Host) (w : World) :
  reachable w →
  length (debounce_timers w) ≤ 1
  ∧ (∀ i, length (debounce_timers (step h i w)) ≤ 1)
  ∧ (∀ ch, ∃ t,
        next_handle w ≤ t
        ∧ (∀ tm, tm ∈ timers w → handle tm < t)
        ∧ debounce_timers (step h (notification ch) w)
          = [mkTimer t (clock w + 300) CbDoSendSignalStates])
  ∧ (∀ first rest quiet,
       Forall (λ gc, fst gc < 300) rest →
       snapshots_sent (trace (run h (burst first rest) w))
       = snapshots_sent (trace w)
       ∧ (500 ≤ quiet ∨ (300 ≤ quiet ∧ no_settings_timer w) →
          snapshots_sent
            (trace (run h (burst first rest ++ [Elapsed quiet]) w))
          = snapshots_sent (trace w)
            ++ [read_states (signals (new_config (last_change first rest)))]
          ∧ timers (run h (burst first rest ++ [Elapsed quiet]) w) = [])).
Proof.
  intros Hr. pose proof (reachable_Inv w Hr) as HI.
  pose proof (inv_timers w HI) as Hok.
  split; [by apply timers_ok_at_most_one|]. split.
  { intros i. apply timers_ok_at_most_one.
    apply (reachable_Inv _ (reachable_step h i w Hr)). }
  split.
  { intros [c pl]. cbn [step notification new_config affects_projectLabel].
    assert (Inv (emit (StoreReplaced c) (with_config c w))) as HI1
      by (by apply Inv_record).
    unfold onDidChangeConfiguration. destruct pl.
    - exists (S (next_handle w)).
      split; [lia|]. split.
      { intros tm Hin. pose proof (handles_fresh w Hok tm Hin). lia. }
      rewrite debounce_after_send.
      + rewrite _sendCurrentSettings_clock.
        unfold _sendCurrentSettings.
        rewrite _sendSignalStates_next_handle. reflexivity.
      + by apply Inv__sendCurrentSettings.
    - exists (next_handle w). split; [lia|]. split.
      { intros tm Hin. apply (handles_fresh w Hok tm Hin). }
      rewrite debounce_after_send; [reflexivity|]. apply HI1. }
  intros first rest quiet Hgaps.
  pose proof (reachable_before_burst w Hok (reachable_timely w Hr)) as Hb.
  split; [apply (burst_run h _ rest first w Hb Hgaps)|].
  intros Hquiet. rewrite run_app.
  change (run h [Elapsed quiet] (run h (burst first rest) w))
    with (elapse quiet (run h (burst first rest) w)).
  destruct Hquiet as [Hq|[Hq Hno]].
  - destruct (burst_run h _ rest first w Hb Hgaps) as (B & C & S).
    destruct (elapse_bursting_late _ _ quiet _ B) as [Ht Hs].
    { destruct B as [_ [_ HH] _ _ _]. lia. }
    split; [|exact Ht]. by rewrite Hs, S, C.
  - destruct (burst_run h 0 rest first w
                (no_settings_before_burst w Hok Hno) Hgaps) as (B & C & S).
    destruct (elapse_bursting_late _ _ quiet _ B ltac:(lia)) as [Ht Hs].
    split; [|exact Ht]. by rewrite Hs, S, C.
Qed.

(** ** Snapshots *)





(** ** The master check box of the web view *)

Lemma SIGNAL_CHECKBOXES_perm : SIGNAL_CHECKBOXES ≡ₚ ALL_SIGNALS.
Proof. apply (bool_decide_unpack _). vm_compute. exact I. Qed.

Lemma forallb_perm {A} (f : A → bool) (l1 l2 : list A) :
  l1 ≡ₚ l2 → forallb f l1 = forallb f l2.
Proof.
  induction 1 as [|x l1 l2 _ IH|x y l|l1 l2 l3 _ IH1 _ IH2]; simpl.
  - reflexivity.
  - by rewrite IH.
  - by destruct (f x), (f y).
  - congruence.
Qed.

Lemma forallb_fmap {A B} (f : B → bool) (g : A → B) (l : list A) :
  forallb f (g <$> l) = forallb (λ x, f (g x)) l.
Proof. induction l as [|x l IH]; [done|]. simpl. by rewrite <- IH. Qed.

Lemma applySignalStates_overwrites sig p :
  fst <$> Webview.signal_cbs p = SIGNAL_CHECKBOXES →
  Webview.signal_cbs (Webview.applySignalStates (read_states sig) p)
  = (λ k, (k, sound_is_off (sig !! k))) <$> SIGNAL_CHECKBOXES.
Proof.
  intros Hkeys. cbn [Webview.applySignalStates Webview.syncMasterCheckbox
                     Webview.signal_cbs].
  rewrite <- Hkeys, <- list_fmap_compose.
  apply Forall_fmap_ext, Forall_forall. intros [key b] Hin.
  assert (key ∈ SIGNAL_CHECKBOXES) as Hk.
  { rewrite <- Hkeys. apply list_elem_of_fmap. by exists (key, b). }
  cbn [fst compose].
  assert (key ≠ "") as Hne.
  { intros ->. revert Hk. apply (bool_decide_unpack _). vm_compute. exact I. }
  rewrite bool_decide_eq_true_2 by exact Hne.
  rewrite read_states_lookup.
  rewrite decide_True by (by apply SIGNAL_CHECKBOXES_same_keys).
  reflexivity.
Qed.

(** The master box sends one intent for all signals; a signal box sends
    its own and the master box follows the signal boxes at once. *)
Lemma master_changed_one_intent silent p :
  snd (Webview.master_changed silent p) = [silenceAll silent]
  ∧ Forall (λ el, snd el = silent)
           (Webview.signal_cbs (fst (Webview.master_changed silent p))).
Proof.
  split; [reflexivity|]. cbn [Webview.master_changed fst Webview.signal_cbs].
  apply Forall_fmap, Forall_forall. by intros el _.
Qed.

Lemma signal_changed_syncs key checked p :
  snd (Webview.signal_changed key checked p) = [updateSignal key checked]
  ∧ Webview.masterCb (fst (Webview.signal_changed key checked p))
    = forallb snd
        (Webview.signal_cbs (fst (Webview.signal_changed key checked p))).
Proof. split; reflexivity. Qed.

(** C2.  When the page applies a snapshot the panel read from a store,
    every signal check box takes the value the snapshot has for its key,
    and the master box is then set to the conjunction of the signal boxes.
    The boxes are those of the 34 keys of the registry, so the master box
    is checked exactly when the snapshot says [true] for all of them.  A
    [settingsUpdate] message, whatever its [silenceAllSounds] field, changes
    neither the master box nor a signal box. *)
Theorem master_checkbox_derived (sig : gmap string SignalValue) (s : Settings)
    (p : Webview.Page) :
  fst <$> Webview.signal_cbs p = SIGNAL_CHECKBOXES →
  let p' := Webview.on_message (signalStates (read_states sig)) p in
  Webview.signal_cbs p'
  = (λ k, (k, sound_is_off (sig !! k))) <$> SIGNAL_CHECKBOXES
  ∧ Webview.masterCb p' = forallb snd (Webview.signal_cbs p')
  ∧ SIGNAL_CHECKBOXES ≡ₚ ALL_SIGNALS
  ∧ Webview.masterCb p'
    = forallb (λ k, bool_decide (read_states sig !! k = Some true)) ALL_SIGNALS
  ∧ Webview.masterCb (Webview.on_message (settingsUpdate s) p')
    = Webview.masterCb p'
  ∧ Webview.signal_cbs (Webview.on_message (settingsUpdate s) p')
    = Webview.signal_cbs p'
  ∧ Webview.masterCb
      (Webview.on_message (signalStates (read_states sig))
         (Webview.on_message (settingsUpdate s) p))
    = Webview.masterCb p'.
Proof.
  intros Hkeys p'. subst p'. cbn [Webview.on_message].
  pose proof (applySignalStates_overwrites sig p Hkeys) as Hcbs.
  split; [exact Hcbs|]. split; [reflexivity|].
  split; [apply SIGNAL_CHECKBOXES_perm|]. split.
  { change (Webview.masterCb (Webview.applySignalStates (read_states sig) p))
      with (forallb snd
              (Webview.signal_cbs
                 (Webview.applySignalStates (read_states sig) p))).
    rewrite Hcbs, forallb_fmap. cbn [snd].
    rewrite (forallb_perm _ _ _ SIGNAL_CHECKBOXES_perm).
    assert (∀ l, (∀ k, k ∈ l → k ∈ ALL_SIGNALS) →
                 forallb (λ k, sound_is_off (sig !! k)) l
                 = forallb (λ k, bool_decide (read_states sig !! k = Some true))
                     l) as Hext.
    { induction l as [|k l IH]; intros Hl; [reflexivity|]. cbn [forallb].
      rewrite IH by (intros k' Hk'; apply Hl; by right). f_equal.
      rewrite read_states_lookup, decide_True by (apply Hl; left).
      destruct (sound_is_off (sig !! k)); reflexivity. }
    apply Hext. auto. }
  split; [reflexivity|]. split; [reflexivity|]. reflexivity.
Qed.

(** ** The theorems at a concrete panel *)

Lemma example_world_reachable : reachable example_world.
Proof. unfold example_world. apply reachable_step, reachable_opened. Defined.

Lemma example_world_timers :
  timers example_world = [mkTimer 1 500 CbDoSendSignalStates].
Proof. vm_compute. reflexivity. Defined.

Lemma example_world_no_settings_timer : no_settings_timer example_world.
Proof.
  intros tm Hin. rewrite example_world_timers in Hin.
  apply list_elem_of_singleton in Hin. rewrite Hin. reflexivity.
Defined.

(** The page as loaded has nothing checked.  The snapshot of a store with
    every signal silenced checks all 34 boxes and the master box; the
    snapshot of the same store with ["save"] back on then unchecks the box
    of ["save"] and the master box and leaves the box of ["clear"]
    checked. *)
Lemma master_checkbox_derived_witness :
  fst <$> Webview.signal_cbs Webview.loaded = SIGNAL_CHECKBOXES
  ∧ fst <$> Webview.signal_cbs silenced_page = SIGNAL_CHECKBOXES
  ∧ Webview.masterCb Webview.loaded = false
  ∧ Webview.signal_cbs Webview.loaded
    = (λ k, (k, false)) <$> SIGNAL_CHECKBOXES
  ∧ Webview.masterCb silenced_page = true
  ∧ Webview.signal_cbs silenced_page = (λ k, (k, true)) <$> SIGNAL_CHECKBOXES
  ∧ let p' := Webview.on_message (signalStates (read_states save_restored))
                silenced_page in
    Webview.masterCb p' = false
    ∧ Webview.signal_cbs p'
      = (λ k, (k, bool_decide (k ≠ "save"))) <$> SIGNAL_CHECKBOXES
    ∧ Webview.masterCb
        (Webview.on_message
           (settingsUpdate (mkSettings true true true true false true)) p')
      = false.
Proof.
  destruct (master_checkbox_derived silenced_signals
              (current_settings example_config) Webview.loaded eq_refl)
    as (Hboxes & _ & _ & Hmaster & _).
  fold silenced_page in Hboxes, Hmaster.
  assert (fst <$> Webview.signal_cbs silenced_page = SIGNAL_CHECKBOXES)
    as Hkeys.
  { rewrite Hboxes. vm_compute. reflexivity. }
  destruct (master_checkbox_derived save_restored
              (mkSettings true true true true false true) silenced_page Hkeys)
    as (Hboxes' & _ & _ & Hmaster' & Hsettings & _).
  split; [reflexivity|]. split; [exact Hkeys|]. split; [reflexivity|].
  split; [reflexivity|]. split.
  { rewrite Hmaster. vm_compute. reflexivity. }
  split.
  { rewrite Hboxes. vm_compute. reflexivity. }
  cbv zeta. split.
  { rewrite Hmaster'. vm_compute. reflexivity. }
  split.
  { rewrite Hboxes'. vm_compute. reflexivity. }
  rewrite Hsettings, Hmaster'. vm_compute. reflexivity.
Defined.

Lemma single_pending_broadcast_witness :
  reachable example_world
  ∧ no_settings_timer example_world
  ∧ Forall (λ gc, fst gc < 300) example_changes
  ∧ 300 ≤ 300
  ∧ length (debounce_timers example_world) ≤ 1
  ∧ snapshots_sent
      (trace (run example_host
                (burst (mkChange example_config false) example_changes
                 ++ [Elapsed 300])
                example_world))
    = snapshots_sent (trace example_world)
      ++ [read_states {["format" := sound_value true]}].
Proof.
  assert (Forall (λ gc, fst gc < 300) example_changes) as Hgaps.
  { repeat constructor; simpl; lia. }
  split; [exact example_world_reachable|].
  split; [exact example_world_no_settings_timer|].
  split; [exact Hgaps|]. split; [lia|].
  destruct (single_pending_broadcast example_host example_world
              example_world_reachable) as (Hone & _ & _ & Hburst).
  split; [exact Hone|].
  destruct (Hburst (mkChange example_config false) example_changes 300 Hgaps)
    as (_ & Hlate).
  destruct (Hlate (or_intror (conj (le_n 300) example_world_no_settings_timer)))
    as (Hsent & _).
  exact Hsent.
Defined.



(** On [example_world], where no [_update] is waiting, the snapshot comes
    when 300 ms have passed; on the panel as opened, where one is, none has
    come after 299 ms and one after 500 ms. *)
Lemma requestSignals_is_debounced_witness :
  reachable example_world
  ∧ reachable (opened example_config 0)
  ∧ (∃ w',
       onDidReceiveMessage example_host requestSignals example_world
       = (Fulfilled tt, w')
       ∧ trace w' = trace example_world
       ∧ debounce_timers w'
         = [mkTimer (next_handle example_world) (clock example_world + 300)
              CbDoSendSignalStates]
       ∧ trace (elapse 299 w') = trace example_world
       ∧ trace (elapse 300 w')
         = trace example_world
           ++ [Posted (signalStates
                         (read_states (signals (config example_world))))])
  ∧ (∃ w',
       onDidReceiveMessage example_host requestSignals
         (opened example_config 0)
       = (Fulfilled tt, w')
       ∧ ¬ no_settings_timer (opened example_config 0)
       ∧ snapshots_sent (trace (elapse 299 w')) = []
       ∧ snapshots_sent (trace (elapse 500 w'))
         = [read_states (signals example_config)]
       ∧ timers (elapse 500 w') = []).
Proof.
  split; [exact example_world_reachable|].
  split; [apply reachable_opened|]. split.
  - destruct (requestSignals_is_debounced example_host example_world
                example_world_reachable)
      as (w' & E & T & C & D & S & _ & _ & _ & Hlater).
    exists w'. split; [exact E|]. split; [exact T|]. split; [exact D|].
    pose proof (Hlater example_world_no_settings_timer 299) as H299.
    pose proof (Hlater example_world_no_settings_timer 300) as H300.
    rewrite decide_True in H299 by lia. rewrite decide_False in H300 by lia.
    rewrite app_nil_r in H299. split; [exact H299 | exact H300].
  - destruct (requestSignals_is_debounced example_host
                (opened example_config 0) (reachable_opened _ _))
      as (w' & E & _ & _ & _ & _ & Hearly & _ & Hlate & _).
    exists w'. split; [exact E|]. split.
    { intros Hno.
      pose proof (Hno (mkTimer 0 200 CbSendCurrentSettings)
                    ltac:(vm_compute; left)) as Hcb.
      discriminate Hcb. }
    split; [exact (Hearly 299 ltac:(lia))|].
    destruct (Hlate 500 ltac:(lia)) as [Hs Ht].
    split; [exact Hs|exact Ht].
Defined.

(** *** The model run on them *)

(** The burst of [example_changes] sends nothing while it lasts and one
    snapshot 300 ms after its last notification. *)
Example burst_sends_one_snapshot :
  let during := run example_host
                  (burst (mkChange example_config false) example_changes)
                  example_world in
  length (snapshots_sent (trace example_world)) = 0
  ∧ length (snapshots_sent (trace during)) = 0
  ∧ length (snapshots_sent (trace (elapse 299 during))) = 0
  ∧ length (snapshots_sent (trace (elapse 300 during))) = 1
  ∧ length (snapshots_sent (trace (elapse 5000 during))) = 1.
Proof. vm_compute. repeat split. Qed.

(** A master toggle against [slow_host]: while the write to ["save"] is
    in flight the debounce timer fires and a snapshot without it is sent;
    the flush comes last, with ["save"] muted and the rejected ["format"]
    not. *)
Example slow_toggle_flushes_last :
  let w' := snd (onDidReceiveMessage slow_host (silenceAll true)
                   example_world) in
  (λ st, (st !! "save", st !! "clear", st !! "format"))
    <$> snapshots_sent (trace w')
  = [ (Some false, Some true, Some false);
      (Some true, Some true, Some false) ]
  ∧ (λ st, st !! "save") <$> snapshots_sent (drop 41 (trace w'))
    = [Some true]
  ∧ length (trace w') = 42
  ∧ length (signal_writes (trace w')) = 34
  ∧ timers w' = [].
Proof. vm_compute. repeat split. Qed.

(** [requestSignals] 250 ms after the panel was opened, when its [_update]
    has fired: nothing for 299 ms, the snapshot at 300 ms. *)
Example requestSignals_waits :
  let w' := step example_host (Received requestSignals)
              (elapse 250 (opened example_config 0)) in
  length (snapshots_sent (trace w')) = 0
  ∧ length (snapshots_sent (trace (elapse 299 w'))) = 0
  ∧ length (snapshots_sent (trace (elapse 300 w'))) = 1.
Proof. vm_compute. repeat split. Qed.

(** [requestSignals] in the panel right after it was opened: the [_update]
    that is waiting fires after 200 ms and starts the debounce timer anew,
    so that the snapshot comes after 500 ms. *)
Example requestSignals_on_opening :
  let w' := step example_host (Received requestSignals)
              (opened example_config 0) in
  length (snapshots_sent (trace (elapse 300 w'))) = 0
  ∧ length (snapshots_sent (trace (elapse 499 w'))) = 0
  ∧ length (snapshots_sent (trace (elapse 500 w'))) = 1.
Proof. vm_compute. repeat split. Qed.

(** * Further properties *)

(** ** The status bar item and the toggle command *)


Lemma since_app w w' t : trace w' = trace w ++ t → since w w' = t.
Proof. intros E. unfold since. rewrite E. apply drop_app_length. Qed.

Lemma sound_is_off_sound_value b : sound_is_off (Some (sound_value b)) = b.
Proof. by destruct b. Qed.

Lemma get_bool_apply_setting_write rejected silent pl sg :
  get_bool (mkConfig sg (apply_setting_write rejected silent pl))
           "silenceAllSounds" false
  = if rejected then default false (pl !! "silenceAllSounds") else silent.
Proof.
  unfold get_bool, apply_setting_write. cbn [projectLabel].
  destruct rejected; [done|]. by rewrite lookup_insert_eq.
Qed.

(** The run of [setSilenceAllSounds] to its end: the notice and the status
    bar item come last. *)
Lemma setSilenceAllSounds_ends h silent w :
  ∃ w' t,
    setSilenceAllSounds h silent w = (Fulfilled tt, w')
    ∧ signals (config w')
      = apply_writes (rejects h) (sound_value silent) ALL_SOUND_SIGNALS
          (signals (config w))
    ∧ projectLabel (config w')
      = apply_setting_write (rejects_setting h) silent (projectLabel (config w))
    ∧ trace w'
      = trace w ++ t ++ [InformationMessage silent;
                         SoundStatusBar (status_silent (config w'))]
    ∧ signal_writes t
      = (λ k, (k, sound_value silent, negb (rejects h k)))
          <$> settle_order h ALL_SOUND_SIGNALS
    ∧ setting_writes t = [(silent, negb (rejects_setting h))].
Proof.
  destruct (fan_out_run h (clock w) (sound_value silent)
              (settle_order h ALL_SOUND_SIGNALS) w)
    as (w1 & t1 & E1 & S1 & P1 & T1 & W1 & G1).
  destruct (guarded_setting_run h silent w1)
    as (w2 & b2 & a2 & E2 & S2 & P2 & T2 & Fb & Fa).
  exists (updateSoundStatusBar (showInformationMessage silent w2)).
  exists (t1 ++ b2 ++ [SettingWriteSettled silent (negb (rejects_setting h))]
             ++ a2).
  split.
  { unfold setSilenceAllSounds, mbind, Async_bind, await.
    rewrite E1, E2. reflexivity. }
  unfold updateSoundStatusBar, showInformationMessage, emit.
  cbn [config trace].
  rewrite S2, S1, P2, P1, T2, T1.
  split; [apply apply_writes_perm, settle_order_perm|].
  split; [reflexivity|]. split; [by rewrite <- !app_assoc|].
  rewrite !signal_writes_app, !setting_writes_app.
  rewrite (posts_no_signal_writes b2 Fb), (posts_no_setting_writes b2 Fb).
  rewrite (posts_no_signal_writes a2 Fa), (posts_no_setting_writes a2 Fa).
  rewrite W1, G1. cbn [signal_writes setting_writes omap list_omap app].
  rewrite app_nil_r. split; reflexivity.
Qed.

Lemma sample_in_registry : "chatResponseReceived" ∈ ALL_SOUND_SIGNALS.
Proof. apply (bool_decide_unpack _). vm_compute. exact I. Qed.



Lemma toggleSilenceAllSounds_run h w :
  ∃ w',
    toggleSilenceAllSounds h w = (Fulfilled tt, w')
    ∧ signals (config w')
      = apply_writes (rejects h)
          (sound_value
             (negb (sound_is_off (signals (config w) !! "chatResponseReceived"))))
          ALL_SOUND_SIGNALS (signals (config w)).
Proof.
  unfold toggleSilenceAllSounds.
  destruct (setSilenceAllSounds_ends h
              (negb (sound_is_off (signals (config w) !! "chatResponseReceived")))
              w)
    as (w' & t & E & S & _).
  exists w'. split; [exact E|exact S].
Qed.

(** X2.  The toggle command reads the sample signal alone: it silences all
    34 signals when [chatResponseReceived] is not off and restores them when
    it is, writes the flag accordingly and never fails.  When the write of
    the sample is accepted the sample has flipped, so the next toggle goes
    the other way; when it is rejected the next toggle tries the same
    direction again. *)
Theorem toggleSilenceAllSounds_follows_sample (h : Host) (w : World) :
  let silent :=
    negb (sound_is_off (signals (config w) !! "chatResponseReceived")) in
  ∃ w',
    toggleSilenceAllSounds h w = (Fulfilled tt, w')
    ∧ signal_writes (since w w')
      = (λ k, (k, sound_value silent, negb (rejects h k)))
          <$> settle_order h ALL_SOUND_SIGNALS
    ∧ setting_writes (since w w') = [(silent, negb (rejects_setting h))]
    ∧ sound_is_off (signals (config w') !! "chatResponseReceived")
      = (if rejects h "chatResponseReceived" then negb silent else silent).
Proof.
  intros silent. unfold toggleSilenceAllSounds. fold silent.
  destruct (setSilenceAllSounds_ends h silent w)
    as (w' & t & E & S & P & T & W & G).
  exists w'. split; [exact E|].
  rewrite (since_app w w' _ T), !signal_writes_app, !setting_writes_app, W, G.
  cbn [signal_writes setting_writes omap list_omap]. rewrite !app_nil_r.
  split; [reflexivity|]. split; [reflexivity|].
  rewrite S, apply_writes_lookup.
  rewrite decide_True by exact sample_in_registry.
  destruct (rejects h "chatResponseReceived").
  - unfold silent. by rewrite negb_involutive.
  - apply sound_is_off_sound_value.
Qed.

(** X3.  Toggling twice does not bring back what each signal held: the
    second toggle writes to all 34 signals the state the sample signal had
    before the first, so every signal whose second write is accepted ends
    in that state, whatever it held itself. *)
Theorem toggle_twice_levels_to_sample (h1 h2 : Host) (w : World) (k : string) :
  rejects h1 "chatResponseReceived" = false →
  k ∈ ALL_SOUND_SIGNALS →
  rejects h2 k = false →
  let original := sound_is_off (signals (config w) !! "chatResponseReceived") in
  let w1 := snd (toggleSilenceAllSounds h1 w) in
  let w2 := snd (toggleSilenceAllSounds h2 w1) in
  signals (config w2) !! k = Some (sound_value original).
Proof.
  intros Hs Hk Hr original w1 w2.
  destruct (toggleSilenceAllSounds_run h1 w) as (x1 & E1 & S1).
  destruct (toggleSilenceAllSounds_run h2 x1) as (x2 & E2 & S2).
  assert (w1 = x1) as -> by (unfold w1; by rewrite E1).
  assert (w2 = x2) as -> by (unfold w2; by rewrite E2).
  rewrite S2, apply_writes_lookup, decide_True, Hr by exact Hk.
  do 2 f_equal.
  rewrite S1, apply_writes_lookup, decide_True, Hs by exact sample_in_registry.
  rewrite sound_is_off_sound_value. apply negb_involutive.
Qed.

Lemma toggle_twice_levels_to_sample_witness :
  signals
    (config (snd (toggleSilenceAllSounds example_host
                    (snd (toggleSilenceAllSounds example_host example_world)))))
    !! "clear"
  = Some (sound_value false).
Proof.
  apply (toggle_twice_levels_to_sample example_host example_host
           example_world "clear").
  - reflexivity.
  - apply (bool_decide_unpack _). vm_compute. exact I.
  - reflexivity.
Defined.

(** ** [applySilenceAllSoundsSetting] *)

Lemma apply_writes_keeps_off rej keys sig k :
  sound_is_off (sig !! k) = true →
  sound_is_off (apply_writes rej (sound_value true) keys sig !! k) = true.
Proof.
  intros H. rewrite apply_writes_lookup.
  destruct (decide (k ∈ keys)); [|exact H]. by destruct (rej k).
Qed.

(** X4.  [applySilenceAllSoundsSetting] only ever silences.  With the flag
    off or unset it does nothing at all; with the flag on it runs the
    master toggle with [true].  Either way every write it makes carries
    [sound: 'off'], no signal that was off comes back on, the flag reads as
    before and the call does not fail. *)
Theorem applySilenceAllSoundsSetting_only_silences (h : Host) (w : World) :
  ∃ w',
    applySilenceAllSoundsSetting h w = (Fulfilled tt, w')
    ∧ (get_bool (config w) "silenceAllSounds" false = false → w' = w)
    ∧ (get_bool (config w) "silenceAllSounds" false = true →
       signal_writes (since w w')
       = (λ k, (k, sound_value true, negb (rejects h k)))
           <$> settle_order h ALL_SOUND_SIGNALS)
    ∧ Forall (λ wr, wr.1.2 = sound_value true) (signal_writes (since w w'))
    ∧ (∀ k, sound_is_off (signals (config w) !! k) = true →
            sound_is_off (signals (config w') !! k) = true)
    ∧ get_bool (config w') "silenceAllSounds" false
      = get_bool (config w) "silenceAllSounds" false.
Proof.
  unfold applySilenceAllSoundsSetting.
  destruct (get_bool (config w) "silenceAllSounds" false) eqn:Hflag.
  - destruct (setSilenceAllSounds_ends h true w)
      as (w' & t & E & S & P & T & W & G).
    exists w'. split; [exact E|]. split; [done|].
    rewrite (since_app w w' _ T), !signal_writes_app, W.
    cbn [signal_writes omap list_omap]. rewrite app_nil_r.
    split; [done|]. split.
    { apply Forall_fmap, Forall_true. reflexivity. }
    split.
    { intros k Hk. rewrite S. by apply apply_writes_keeps_off. }
    unfold get_bool in *. rewrite P. unfold apply_setting_write.
    destruct (rejects_setting h); [exact Hflag|]. by rewrite lookup_insert_eq.
  - exists w. split; [reflexivity|]. split; [done|]. split; [done|].
    unfold since. rewrite drop_all. cbn [signal_writes omap list_omap].
    split; [constructor|]. split; [done|]. exact Hflag.
Qed.

(** ** The page and the panel, there and back *)

Lemma delivered_app t1 t2 p :
  delivered (t1 ++ t2) p = delivered t2 (delivered t1 p).
Proof. apply foldl_app. Qed.

Lemma on_message_keys msg p :
  fst <$> Webview.signal_cbs (Webview.on_message msg p)
  = fst <$> Webview.signal_cbs p.
Proof.
  destruct msg as [s|states]; [reflexivity|].
  cbn [Webview.on_message Webview.applySignalStates Webview.syncMasterCheckbox
       Webview.signal_cbs].
  rewrite <- list_fmap_compose. apply list_fmap_ext. intros i [key b] _.
  cbn [compose fst]. destruct (bool_decide (key ≠ "")); [|reflexivity].
  by destruct (states !! key).
Qed.

Lemma delivered_cons e t p :
  delivered (e :: t) p = delivered t (delivered [e] p).
Proof. reflexivity. Qed.

Lemma delivered_keys t p :
  fst <$> Webview.signal_cbs (delivered t p) = fst <$> Webview.signal_cbs p.
Proof.
  revert p. induction t as [|e t IH]; intros p; [reflexivity|].
  rewrite delivered_cons, IH. destruct e; try done.
  apply on_message_keys.
Qed.

(** Only snapshots touch the signal boxes and the master box. *)
Lemma delivered_no_snapshot t p :
  snapshots_sent t = [] →
  Webview.signal_cbs (delivered t p) = Webview.signal_cbs p
  ∧ Webview.masterCb (delivered t p) = Webview.masterCb p.
Proof.
  revert p. induction t as [|e t IH]; intros p Hs; [done|].
  rewrite delivered_cons.
  destruct e as [| | | | |[s|st]]; cbn in Hs; try (by apply IH).
  - destruct (IH (delivered [Posted (settingsUpdate s)] p) Hs) as [-> ->].
    done.
  - discriminate.
Qed.

(** The last snapshot delivered decides what the signal boxes and the
    master box show. *)
Lemma delivered_last_snapshot t p sts sig :
  fst <$> Webview.signal_cbs p = SIGNAL_CHECKBOXES →
  snapshots_sent t = sts ++ [read_states sig] →
  Webview.signal_cbs (delivered t p)
  = (λ k, (k, sound_is_off (sig !! k))) <$> SIGNAL_CHECKBOXES
  ∧ Webview.masterCb (delivered t p)
    = forallb snd (Webview.signal_cbs (delivered t p)).
Proof.
  intros Hkeys. revert sts.
  induction t as [|e t IH] using rev_ind; intros sts Hs.
  { by destruct sts. }
  rewrite delivered_app. rewrite snapshots_sent_app in Hs.
  assert (snapshots_sent t = sts ++ [read_states sig] →
          Webview.signal_cbs (delivered t p)
          = (λ k, (k, sound_is_off (sig !! k))) <$> SIGNAL_CHECKBOXES
          ∧ Webview.masterCb (delivered t p)
            = forallb snd (Webview.signal_cbs (delivered t p))) as IH'
    by apply IH.
  destruct e as [c|k v ok|v ok|b|b|[s|st]];
    cbn [snapshots_sent omap list_omap] in Hs; rewrite ?app_nil_r in Hs;
    try (by apply IH').
  apply app_inj_tail in Hs as [_ ->].
  cbn [delivered foldl Webview.on_message].
  split; [|reflexivity].
  apply applySignalStates_overwrites. by rewrite delivered_keys.
Qed.

Lemma mem_fmap_pair (f : string → bool) (l : list string) k :
  k ∈ l → (k, f k) ∈ (λ x, (x, f x)) <$> l.
Proof. intros H. apply list_elem_of_fmap. by exists k. Qed.

(** X5.  The way of a master toggle from the page to the store and back.
    The page checks or unchecks every signal box at once and posts one
    [silenceAll]; after the panel handled it and the page received what the
    panel posted meanwhile, every signal box shows what the store holds for
    its signal and the master box is their conjunction.  A box whose write
    was accepted shows the value the user chose; a box whose write was
    rejected is back at the state the store had.  When no write is rejected
    the page is as the click left it. *)
Theorem master_toggle_round_trip
    (h : Host) (silent : bool) (w : World) (p : Webview.Page) :
  fst <$> Webview.signal_cbs p = SIGNAL_CHECKBOXES →
  let p1 := fst (Webview.master_changed silent p) in
  let w' := run h (Received <$> snd (Webview.master_changed silent p)) w in
  let p' := delivered (since w w') p1 in
  Webview.signal_cbs p'
  = (λ k, (k, sound_is_off (signals (config w') !! k))) <$> SIGNAL_CHECKBOXES
  ∧ Webview.masterCb p' = forallb snd (Webview.signal_cbs p')
  ∧ (∀ k, k ∈ SIGNAL_CHECKBOXES → rejects h k = false →
          (k, silent) ∈ Webview.signal_cbs p')
  ∧ (∀ k, k ∈ SIGNAL_CHECKBOXES → rejects h k = true →
          (k, sound_is_off (signals (config w) !! k)) ∈ Webview.signal_cbs p')
  ∧ ((∀ k, k ∈ SIGNAL_CHECKBOXES → rejects h k = false) →
     Webview.signal_cbs p' = Webview.signal_cbs p1
     ∧ Webview.masterCb p' = Webview.masterCb p1).
Proof.
  intros Hkeys p1 w' p'.
  destruct (setSilenceAllSounds_ends h silent w)
    as (w1 & t & E & S & P & T & _ & _).
  pose proof (silenceAll_run h silent w w1 E) as Hrun.
  assert (w' = _doSendSignalStates (cancel_debounce w1)) as Hw'.
  { unfold w'. cbn [Webview.master_changed snd fmap list_fmap run foldl step].
    by rewrite Hrun. }
  assert (signals (config w')
          = apply_writes (rejects h) (sound_value silent) ALL_SOUND_SIGNALS
              (signals (config w))) as Hsig.
  { rewrite Hw'. unfold _doSendSignalStates, postMessage, emit.
    cbn [config]. by rewrite cancel_debounce_config. }
  assert (∃ t', trace w' = trace w ++ t'
                ∧ snapshots_sent t'
                  = snapshots_sent t ++ [read_states (signals (config w'))])
    as (t' & Ht' & Hsn).
  { assert (config w' = config w1) as Hcfg.
    { rewrite Hw'. unfold _doSendSignalStates, postMessage, emit.
      cbn [config]. apply cancel_debounce_config. }
    exists (t ++ [InformationMessage silent;
                  SoundStatusBar (status_silent (config w1))]
              ++ [Posted (signalStates (read_states (signals (config w1))))]).
    split.
    - rewrite Hw'. unfold _doSendSignalStates, postMessage, emit.
      cbn [trace config].
      rewrite cancel_debounce_trace, cancel_debounce_config, T.
      rewrite <- !app_assoc. reflexivity.
    - rewrite !snapshots_sent_app, Hcfg.
      cbn [snapshots_sent omap list_omap app]. reflexivity. }
  assert (fst <$> Webview.signal_cbs p1 = SIGNAL_CHECKBOXES) as Hkeys1.
  { unfold p1. cbn [Webview.master_changed fst Webview.signal_cbs].
    rewrite <- list_fmap_compose. exact Hkeys. }
  destruct (delivered_last_snapshot (since w w') p1 _ (signals (config w'))
              Hkeys1 ltac:(by rewrite (since_app w w' t' Ht')))
    as [Hc Hm].
  fold p' in Hc, Hm.
  assert (∀ k, k ∈ SIGNAL_CHECKBOXES →
               sound_is_off (signals (config w') !! k)
               = if rejects h k then sound_is_off (signals (config w) !! k)
                 else silent) as Hbox.
  { intros k Hk. rewrite Hsig, apply_writes_lookup.
    rewrite decide_True.
    - destruct (rejects h k); [done|apply sound_is_off_sound_value].
    - rewrite <- ALL_SIGNALS_same_keys. by apply SIGNAL_CHECKBOXES_same_keys. }
  split; [exact Hc|]. split; [exact Hm|]. split; [|split].
  - intros k Hk Hr. rewrite Hc.
    pose proof (Hbox k Hk) as Hb. rewrite Hr in Hb. rewrite <- Hb.
    by apply (mem_fmap_pair (λ x, sound_is_off (signals (config w') !! x))).
  - intros k Hk Hr. rewrite Hc.
    pose proof (Hbox k Hk) as Hb. rewrite Hr in Hb. rewrite <- Hb.
    by apply (mem_fmap_pair (λ x, sound_is_off (signals (config w') !! x))).
  - intros Hall.
    assert (Webview.signal_cbs p' = Webview.signal_cbs p1) as Heq.
    { rewrite Hc. unfold p1.
      cbn [Webview.master_changed fst Webview.signal_cbs].
      rewrite <- Hkeys, <- list_fmap_compose.
      apply list_fmap_ext. intros i [key b] Hin. cbn [compose fst].
      assert (key ∈ SIGNAL_CHECKBOXES) as Hk.
      { rewrite <- Hkeys. apply list_elem_of_fmap. exists (key, b).
        split; [done|]. by eapply list_elem_of_lookup_2. }
      by rewrite (Hbox key Hk), (Hall key Hk). }
    split; [exact Heq|]. rewrite Hm, Heq. unfold p1.
    cbn [Webview.master_changed fst Webview.signal_cbs Webview.masterCb].
    rewrite forallb_fmap. cbn [snd].
    assert (Webview.signal_cbs p ≠ []) as Hne.
    { intros Hnil. rewrite Hnil in Hkeys. discriminate. }
    destruct (Webview.signal_cbs p) as [|el l]; [done|].
    destruct silent; cbn [forallb]; [|reflexivity].
    clear. induction l; [reflexivity|]. done.
Qed.

Lemma master_toggle_round_trip_witness :
  fst <$> Webview.signal_cbs Webview.loaded = SIGNAL_CHECKBOXES
  ∧ let p1 := fst (Webview.master_changed true Webview.loaded) in
    let w' := run example_host
                (Received <$> snd (Webview.master_changed true Webview.loaded))
                example_world in
    let p' := delivered (since example_world w') p1 in
    Webview.masterCb p' = forallb snd (Webview.signal_cbs p').
Proof.
  split; [reflexivity|].
  apply (master_toggle_round_trip example_host true example_world
           Webview.loaded).
  reflexivity.
Defined.

Lemma elapse_idle ms w :
  timers w = [] →
  timers (elapse ms w) = [] ∧ config (elapse ms w) = config w
  ∧ trace (elapse ms w) = trace w.
Proof.
  intros Ht. induction ms as [|ms (IH1 & IH2 & IH3)]; [done|].
  rewrite elapse_S. destruct (tick_idle _ IH1) as (H1 & H2 & H3).
  rewrite H1, H2, H3. done.
Qed.

Lemma signal_changed_keys key checked p :
  fst <$> Webview.signal_cbs (fst (Webview.signal_changed key checked p))
  = fst <$> Webview.signal_cbs p.
Proof.
  cbn [Webview.signal_changed fst Webview.syncMasterCheckbox Webview.signal_cbs].
  rewrite <- list_fmap_compose. apply list_fmap_ext. intros i [k b] _.
  cbn [compose fst]. destruct (bool_decide_reflect (k = key)); by subst.
Qed.

Lemma signal_changed_box key checked p :
  key ∈ fst <$> Webview.signal_cbs p →
  (key, checked)
  ∈ Webview.signal_cbs (fst (Webview.signal_changed key checked p)).
Proof.
  intros Hin. apply list_elem_of_fmap in Hin as ([k b] & -> & Hin).
  cbn [Webview.signal_changed fst Webview.syncMasterCheckbox Webview.signal_cbs].
  apply list_elem_of_fmap. exists (k, b). split; [|exact Hin].
  cbn [fst]. by rewrite bool_decide_eq_true_2.
Qed.

(** The handler of [updateSignal] when the store accepts the write. *)
Lemma updateSignal_accepted h key checked w :
  rejects h key = false →
  onDidReceiveMessage h (updateSignal key checked) w
  = (Fulfilled tt,
     let w0 := wait_until (clock w + settles_after h key) w in
     _sendSignalStates
       (emit (WriteSettled key (sound_value checked) true)
          (with_config
             (mkConfig (<[key := sound_value checked]> (signals (config w0)))
                       (projectLabel (config w0))) w0))).
Proof.
  intros Hr. cbn [onDidReceiveMessage]. unfold catch, signals_update.
  rewrite Hr. reflexivity.
Qed.

Lemma updateSignal_rejected h key checked w :
  rejects h key = true →
  onDidReceiveMessage h (updateSignal key checked) w
  = (Fulfilled tt,
     emit (WriteSettled key (sound_value checked) false)
       (wait_until (clock w + settles_after h key) w)).
Proof.
  intros Hr. cbn [onDidReceiveMessage]. unfold catch, signals_update.
  rewrite Hr. reflexivity.
Qed.

(** X6.  The way of an individual toggle from the page to the store and
    back, when the store accepts the write.  The page posts one
    [updateSignal]; the panel writes that key and the notification of the
    change arms the debounce timer; once the panel has been left alone for
    500 ms (300 ms when no timer was pending before) the page has received a
    snapshot of the store as the write left it: the box of the signal shows
    what the user chose, every box shows its stored state, the master box
    is their conjunction, and no timer is pending. *)
Theorem individual_toggle_round_trip
    (h : Host) (key : string) (checked : bool) (w : World)
    (p : Webview.Page) (quiet : nat) :
  reachable w →
  fst <$> Webview.signal_cbs p = SIGNAL_CHECKBOXES →
  rejects h key = false →
  500 ≤ quiet ∨ (300 ≤ quiet ∧ timers w = []) →
  let p1 := fst (Webview.signal_changed key checked p) in
  let w' := run h ((Received <$> snd (Webview.signal_changed key checked p))
                     ++ [Elapsed quiet]) w in
  let p' := delivered (since w w') p1 in
  signals (config w') = <[key := sound_value checked]> (signals (config w))
  ∧ (∃ meanwhile,
       snapshots_sent (since w w')
       = meanwhile ++ [read_states (signals (config w'))])
  ∧ Webview.signal_cbs p'
    = (λ k, (k, sound_is_off (signals (config w') !! k))) <$> SIGNAL_CHECKBOXES
  ∧ (key ∈ SIGNAL_CHECKBOXES → (key, checked) ∈ Webview.signal_cbs p')
  ∧ Webview.masterCb p' = forallb snd (Webview.signal_cbs p')
  ∧ timers w' = [].
Proof.
  intros Hreach Hkeys Hr Hq p1 w' p'.
  set (w0 := wait_until (clock w + settles_after h key) w).
  set (wc := emit (WriteSettled key (sound_value checked) true)
               (with_config
                  (mkConfig (<[key := sound_value checked]> (signals (config w0)))
                            (projectLabel (config w0))) w0)).
  assert (w' = elapse quiet (_sendSignalStates wc)) as Hw'.
  { unfold w'. cbn [Webview.signal_changed snd fmap list_fmap app].
    rewrite run_cons. cbn [step].
    rewrite (updateSignal_accepted h key checked w Hr). reflexivity. }
  assert (reachable w0) as Hreach0.
  { unfold w0, wait_until. apply (reachable_step h (Elapsed _) w Hreach). }
  destruct (passes_time_elapse (clock w + settles_after h key - clock w) w)
    as (Hc0 & t0 & Ht0 & Hp0).
  fold (wait_until (clock w + settles_after h key) w) in Hc0, Ht0.
  fold w0 in Hc0, Ht0.
  assert (∃ H, before_burst H wc ∧ Nat.max H (clock wc) + 300 ≤ clock wc + quiet)
    as (H & Hbb & Hlate).
  { destruct Hq as [Hq|[Hq Hidle]].
    - exists (clock w0 + 200). split.
      + apply (before_burst_same _ w0); try reflexivity.
        apply reachable_before_burst;
          [apply reachable_Inv, Hreach0 | apply reachable_timely, Hreach0].
      + cbn [wc emit with_config clock]. lia.
    - exists 0. split.
      + apply (before_burst_same _ w0); try reflexivity.
        apply no_settings_before_burst; [apply reachable_Inv, Hreach0|].
        intros tm Hin. unfold w0, wait_until in Hin.
        destruct (elapse_idle (clock w + settles_after h key - clock w) w Hidle)
          as (Hnil & _). rewrite Hnil in Hin. by apply elem_of_nil in Hin.
      + cbn [wc emit with_config clock]. lia. }
  pose proof (_sendSignalStates_bursts H wc Hbb) as Hb.
  destruct (elapse_bursting_late H (clock wc) quiet (_sendSignalStates wc) Hb)
    as [Htm Hsn].
  { by rewrite _sendSignalStates_clock. }
  destruct (elapse_bursting H (clock wc) quiet (_sendSignalStates wc) Hb)
    as [Hcfg _].
  rewrite <- Hw' in Htm, Hsn, Hcfg.
  rewrite _sendSignalStates_config in Hcfg, Hsn.
  rewrite _sendSignalStates_trace in Hsn.
  assert (signals (config w')
          = <[key := sound_value checked]> (signals (config w))) as Hsig.
  { rewrite Hcfg. cbn [wc emit with_config config signals]. by rewrite Hc0. }
  destruct (passes_time_elapse quiet (_sendSignalStates wc))
    as (_ & t2 & Ht2 & _).
  rewrite <- Hw', _sendSignalStates_trace in Ht2.
  assert (trace w'
          = trace w
            ++ (t0 ++ [WriteSettled key (sound_value checked) true] ++ t2))
    as Htr.
  { rewrite Ht2. cbn [wc emit with_config trace]. rewrite Ht0.
    by rewrite <- !app_assoc. }
  assert (snapshots_sent (since w w')
          = snapshots_sent t0 ++ [read_states (signals (config w'))]) as Hsnap.
  { assert (snapshots_sent t2 = [read_states (signals (config wc))]) as Hs2.
    { rewrite Ht2, snapshots_sent_app in Hsn. by apply app_inv_head in Hsn. }
    rewrite (since_app w w' _ Htr), !snapshots_sent_app, Hs2, Hcfg.
    cbn [snapshots_sent omap list_omap app]. reflexivity. }
  assert (fst <$> Webview.signal_cbs p1 = SIGNAL_CHECKBOXES) as Hkeys1.
  { unfold p1. by rewrite signal_changed_keys. }
  destruct (delivered_last_snapshot (since w w') p1 _ (signals (config w'))
              Hkeys1 Hsnap) as [Hc Hm].
  fold p' in Hc, Hm.
  split; [exact Hsig|]. split; [by eexists|]. split; [exact Hc|].
  split; [|split; [exact Hm|exact Htm]].
  intros Hk. rewrite Hc.
  replace checked
    with (sound_is_off (signals (config w') !! key)) at 1.
  - by apply (mem_fmap_pair (λ x, sound_is_off (signals (config w') !! x))).
  - rewrite Hsig, lookup_insert_eq. apply sound_is_off_sound_value.
Qed.

Lemma individual_toggle_round_trip_witness :
  reachable example_world
  ∧ fst <$> Webview.signal_cbs Webview.loaded = SIGNAL_CHECKBOXES
  ∧ rejects example_host "clear" = false
  ∧ 500 ≤ 500
  ∧ let p1 := fst (Webview.signal_changed "clear" true Webview.loaded) in
    let w' := run example_host
                ((Received
                    <$> snd (Webview.signal_changed "clear" true Webview.loaded))
                   ++ [Elapsed 500]) example_world in
    ("clear" ∈ SIGNAL_CHECKBOXES →
     ("clear", true) ∈ Webview.signal_cbs (delivered (since example_world w') p1)).
Proof.
  split; [exact example_world_reachable|].
  split; [reflexivity|]. split; [reflexivity|]. split; [lia|].
  apply (individual_toggle_round_trip example_host "clear" true example_world
           Webview.loaded 500).
  - exact example_world_reachable.
  - reflexivity.
  - reflexivity.
  - left. lia.
Defined.

(** X7.  An individual toggle the store rejects is absorbed without a
    trace on the page: the handler does not fail, the store is as before,
    no timer is armed and nothing is posted.  On an idle panel the page is
    therefore never told, however long it waits: the box keeps showing what
    the user clicked although the store holds something else. *)
Theorem rejected_toggle_is_not_reported
    (h : Host) (key : string) (checked : bool) (w : World)
    (p : Webview.Page) (ms : nat) :
  rejects h key = true →
  timers w = [] →
  let p1 := fst (Webview.signal_changed key checked p) in
  let w' := run h ((Received <$> snd (Webview.signal_changed key checked p))
                     ++ [Elapsed ms]) w in
  fst (onDidReceiveMessage h (updateSignal key checked) w) = Fulfilled tt
  ∧ config w' = config w
  ∧ timers w' = []
  ∧ since w w' = [WriteSettled key (sound_value checked) false]
  ∧ delivered (since w w') p1 = p1
  ∧ (key ∈ fst <$> Webview.signal_cbs p →
     (key, checked) ∈ Webview.signal_cbs (delivered (since w w') p1)).
Proof.
  intros Hr Hidle p1 w'.
  pose proof (updateSignal_rejected h key checked w Hr) as Hrun.
  destruct (elapse_idle (clock w + settles_after h key - clock w) w Hidle)
    as (Hn0 & Hc0 & Ht0).
  fold (wait_until (clock w + settles_after h key) w) in Hn0, Hc0, Ht0.
  set (w1 := emit (WriteSettled key (sound_value checked) false)
               (wait_until (clock w + settles_after h key) w)) in *.
  assert (w' = elapse ms w1) as Hw'.
  { unfold w'. cbn [Webview.signal_changed snd fmap list_fmap app].
    rewrite run_cons. cbn [step]. by rewrite Hrun. }
  destruct (elapse_idle ms w1) as (Hn & Hc & Ht); [exact Hn0|].
  rewrite <- Hw' in Hn, Hc, Ht.
  assert (since w w' = [WriteSettled key (sound_value checked) false]) as Hs.
  { apply since_app. rewrite Ht. cbn [w1 emit trace]. by rewrite Ht0. }
  split; [by rewrite Hrun|]. split; [by rewrite Hc|]. split; [exact Hn|].
  split; [exact Hs|]. rewrite Hs. split; [reflexivity|].
  intros Hin. cbn [delivered foldl]. by apply signal_changed_box.
Qed.

Lemma rejected_toggle_is_not_reported_witness :
  rejects example_host "save" = true
  ∧ timers (elapse 300 example_world) = []
  ∧ delivered
      (since (elapse 300 example_world)
         (run example_host
            ((Received
                <$> snd (Webview.signal_changed "save" true Webview.loaded))
               ++ [Elapsed 1000]) (elapse 300 example_world)))
      (fst (Webview.signal_changed "save" true Webview.loaded))
    = fst (Webview.signal_changed "save" true Webview.loaded).
Proof.
  split; [reflexivity|]. split; [vm_compute; reflexivity|].
  apply (rejected_toggle_is_not_reported example_host "save" true
           (elapse 300 example_world) Webview.loaded 1000).
  - reflexivity.
  - vm_compute. reflexivity.
Defined.

(** ** Strings *)

Lemma append_nil_l s : "" +:+ s = s.
Proof. reflexivity. Qed.

Lemma append_cons c s t : String c s +:+ t = String c (s +:+ t).
Proof. reflexivity. Qed.

(** Appends of literal strings are computed away. *)
Ltac strings := rewrite ?append_cons, ?append_nil_l.

Lemma append_nil_r s : s +:+ "" = s.
Proof. induction s as [|c s IH]; [done|]. strings. by rewrite IH. Qed.

Lemma append_assoc a b c : (a +:+ b) +:+ c = a +:+ (b +:+ c).
Proof. induction a as [|x a IH]; [done|]. strings. by rewrite IH. Qed.

Lemma append_eq_nil a b : a +:+ b = "" → a = "" ∧ b = "".
Proof. destruct a; [done|discriminate]. Qed.


Lemma truthy_true s : truthy s = true ↔ s ≠ "".
Proof. unfold truthy. by rewrite bool_decide_eq_true. Qed.

Lemma truthy_false s : truthy s = false ↔ s = "".
Proof.
  unfold truthy. rewrite bool_decide_eq_false. split; [|by intros ->; auto].
  intros H. by destruct (decide (s = "")).
Qed.

Lemma lowercase_cons c s : lowercase (String c s) = String (lower c) (lowercase s).
Proof. reflexivity. Qed.


Lemma lowercase_length s : String.length (lowercase s) = String.length s.
Proof. induction s as [|c s IH]; [done|]. cbn. by rewrite <- IH. Qed.

(** ** The profile id in the storage path *)

Lemma match_literal_split lit s rest :
  match_literal lit s = Some rest →
  ∃ seg, s = seg +:+ rest ∧ lowercase seg = lowercase lit.
Proof.
  revert s. induction lit as [|a lit IH]; intros s H.
  - cbn in H. destruct s; injection H as <-; by exists "".
  - destruct s as [|b s]; [discriminate|]. cbn in H.
    destruct (bool_decide_reflect (lower a = lower b)) as [E|]; [|discriminate].
    destruct (IH s H) as (seg & -> & Hl). exists (String b seg).
    split; [done|]. rewrite !lowercase_cons, Hl, E. done.
Qed.


Lemma span_id_split s id rest :
  span_id s = (id, rest) →
  s = id +:+ rest ∧ Forall (λ c, is_id_char c = true) (chars id).
Proof.
  revert id rest. induction s as [|c s IH]; intros id rest H.
  - injection H as <- <-. by split; [|constructor].
  - cbn in H. destruct (is_id_char c) eqn:Hc.
    + destruct (span_id s) as [run r]. injection H as <- <-.
      destruct (IH run r eq_refl) as [-> Hall]. split; [done|].
      by constructor.
    + injection H as <- <-. by split; [|constructor].
Qed.



Lemma match_here_sound s id : match_here s = Some id → matches_here s id.
Proof.
  unfold match_here. destruct s as [|c1 s1]; [discriminate|].
  destruct (is_sep c1) eqn:H1; [|discriminate].
  destruct (match_literal "profiles" s1) as [[|c2 s2]|] eqn:Hl1;
    try discriminate.
  destruct (is_sep c2) eqn:H2; [|discriminate].
  destruct (span_id s2) as [run rest] eqn:Hsp.
  destruct (truthy run) eqn:Hne; [|discriminate].
  destruct rest as [|c3 s3]; [discriminate|].
  destruct (is_sep c3) eqn:H3; [|discriminate].
  destruct (match_literal "globalStorage" s3) as [post|] eqn:Hl2;
    [|discriminate].
  intros [= <-].
  destruct (match_literal_split _ _ _ Hl1) as (seg1 & -> & L1).
  destruct (match_literal_split _ _ _ Hl2) as (seg2 & -> & L2).
  destruct (span_id_split _ _ _ Hsp) as [-> Hall].
  exists c1, seg1, c2, c3, seg2, post.
  repeat split; try done. by apply truthy_true.
Qed.


Lemma profileIdMatch_some s id :
  profileIdMatch s = Some id → ∃ pre rest, s = pre +:+ rest ∧ matches_here rest id.
Proof.
  induction s as [|c s IH]; intros H.
  - cbn in H. discriminate.
  - cbn [profileIdMatch] in H.
    destruct (match_here (String c s)) as [id'|] eqn:Hm.
    + injection H as ->. exists "", (String c s). split; [done|].
      by apply match_here_sound.
    + destruct (IH H) as (pre & rest & -> & Hr).
      exists (String c pre), rest. by split.
Qed.

(** X8.  The profile id the regular expression takes from the storage path
    is never empty, consists of hex digits and dashes only, and stands in
    the path between a separator-delimited [profiles] segment and a
    [globalStorage] segment, upper or lower case. *)
Theorem profile_id_is_a_path_segment (path id : string) :
  profileIdMatch path = Some id →
  id ≠ ""
  ∧ Forall (λ c, is_id_char c = true) (chars id)
  ∧ ∃ pre c1 seg1 c2 c3 seg2 post,
      path = pre +:+ String c1 (seg1 +:+ String c2 (id +:+ String c3
                                                        (seg2 +:+ post)))
      ∧ is_sep c1 = true ∧ is_sep c2 = true ∧ is_sep c3 = true
      ∧ lowercase seg1 = "profiles" ∧ lowercase seg2 = "globalstorage".
Proof.
  intros H. destruct (profileIdMatch_some path id H)
    as (pre & rest & -> & c1 & seg1 & c2 & c3 & seg2 & post & -> & H1 & H2
        & H3 & L1 & L2 & Hne & Hall).
  split; [exact Hne|]. split; [exact Hall|].
  by exists pre, c1, seg1, c2, c3, seg2, post.
Qed.

Lemma profile_id_is_a_path_segment_witness :
  profileIdMatch "C:\Users\me\AppData\Roaming\Code\User\Profiles\-1A2b3c4d\GlobalStorage\x.y"
  = Some "-1A2b3c4d"
  ∧ "-1A2b3c4d" ≠ ""
  ∧ Forall (λ c, is_id_char c = true) (chars "-1A2b3c4d").
Proof.
  split; [reflexivity|].
  destruct (profile_id_is_a_path_segment
    "C:\Users\me\AppData\Roaming\Code\User\Profiles\-1A2b3c4d\GlobalStorage\x.y"
    "-1A2b3c4d" eq_refl) as (H1 & H2 & _).
  split; [exact H1|exact H2].
Defined.








(** ** The profile name *)

Lemma chars_substring n s : chars (String.substring 0 n s) = take n (chars s).
Proof.
  revert s. induction n as [|n IH]; intros [|c s]; try reflexivity.
  cbn. f_equal. apply IH.
Qed.

Lemma chars_length s : length (chars s) = String.length s.
Proof. induction s as [|c s IH]; [done|]. cbn. f_equal. exact IH. Qed.

Lemma chars_inj s t : chars s = chars t → s = t.
Proof.
  intros H. rewrite <- (String.string_of_list_ascii_of_string s).
  rewrite <- (String.string_of_list_ascii_of_string t).
  unfold chars in H. by rewrite H.
Qed.

Lemma listed_name_truthy profileId profiles n :
  listed_name profileId profiles = Some n → n ≠ "".
Proof.
  induction profiles as [|p ps IH]; [done|]. cbn.
  destruct (profile_name p) as [x|]; [|exact IH].
  destruct (bool_decide (location p = Some profileId)); cbn [andb]; [|exact IH].
  destruct (truthy x) eqn:Hx; [|exact IH].
  intros [= <-]. by apply truthy_true.
Qed.

Lemma listed_name_passed_by profileId earlier rest :
  Forall (passed_by profileId) earlier →
  listed_name profileId (earlier ++ rest) = listed_name profileId rest.
Proof.
  induction 1 as [|p ps Hp _ IH]; [done|].
  cbn. destruct Hp as [Hl|[Hn|Hn]].
  - destruct (profile_name p); [|exact IH].
    by rewrite bool_decide_eq_false_2.
  - by rewrite Hn.
  - rewrite Hn. cbn. by rewrite andb_false_r.
Qed.

Lemma profileIdMatch_truthy path id : profileIdMatch path = Some id → id ≠ "".
Proof.
  intros H. by destruct (profileIdMatch_some path id H)
    as (_ & _ & _ & _ & _ & _ & _ & _ & _ & _ & _ & _ & _ & _ & _ & Hne & _).
Qed.

Lemma substring_truthy n s : s ≠ "" → String.substring 0 (S n) s ≠ "".
Proof. by destruct s. Qed.



Lemma detectProfileName_truthy m : detectProfileName m ≠ "".
Proof.
  unfold detectProfileName.
  assert (match VSCODE_PROFILE m with
          | Some envProfile =>
              if truthy envProfile then envProfile else "Default"
          | None => "Default"
          end ≠ "") as Hother.
  { destruct (VSCODE_PROFILE m) as [v|]; [|done].
    destruct (truthy v) eqn:Hv; [by apply truthy_true|done]. }
  destruct (profileIdMatch (globalStoragePath m)) as [id|] eqn:Hid;
    [|exact Hother].
  pose proof (profileIdMatch_truthy _ _ Hid) as Hne.
  destruct (profilesFile m) as [| |profiles]; [|exact Hother|].
  - by apply substring_truthy.
  - destruct (listed_name id profiles) as [n|] eqn:Hn.
    + by apply (listed_name_truthy id profiles).
    + by apply substring_truthy.
Qed.

(** X10.  [detectProfileName] never returns the empty string: a listed
    name is used only if it is not empty, the id found in the path has at
    least one character, an empty [VSCODE_PROFILE] counts as unset, and
    otherwise the name is [Default].  When the storage path names no
    profile, or the list cannot be read, it is [VSCODE_PROFILE] that
    decides, and [Default] when that is unset or empty. *)
Theorem detectProfileName_never_empty (m : Machine) :
  detectProfileName m ≠ ""
  ∧ (profileIdMatch (globalStoragePath m) = None
     ∨ profilesFile m = Unreadable →
     detectProfileName m = or_else (default "" (VSCODE_PROFILE m)) "Default").
Proof.
  split; [apply detectProfileName_truthy|].
  unfold detectProfileName, or_else.
  intros [->|Hfile].
  - by destruct (VSCODE_PROFILE m).
  - rewrite Hfile.
    destruct (profileIdMatch (globalStoragePath m)); by destruct (VSCODE_PROFILE m).
Qed.

(** X11.  A profile the list does not resolve is shown by its id, cut to
    8 characters: when the storage path names a profile and
    [profiles.json] is missing or lists no named entry at that location,
    the result is the first 8 characters of the id, 1 to 8 hex digits or
    dashes, and [VSCODE_PROFILE] is not looked at. *)
Theorem unlisted_profile_shows_short_id (m : Machine) (id : string) :
  profileIdMatch (globalStoragePath m) = Some id →
  (profilesFile m = Missing
   ∨ ∃ profiles, profilesFile m = Listed profiles
                 ∧ Forall (passed_by id) profiles) →
  detectProfileName m = String.substring 0 8 id
  ∧ chars (detectProfileName m) = take 8 (chars id)
  ∧ 1 ≤ String.length (detectProfileName m) ≤ 8
  ∧ Forall (λ c, is_id_char c = true) (chars (detectProfileName m)).
Proof.
  intros Hid Hfile.
  assert (detectProfileName m = String.substring 0 8 id) as ->.
  { unfold detectProfileName. rewrite Hid.
    destruct Hfile as [->|(profiles & -> & Hall)]; [done|].
    pose proof (listed_name_passed_by id profiles [] Hall) as Hl.
    rewrite app_nil_r in Hl. by rewrite Hl. }
  destruct (profileIdMatch_some _ _ Hid)
    as (_ & _ & _ & _ & _ & _ & _ & _ & _ & _ & _ & _ & _ & _ & _ & Hne & Hchars).
  assert (String.length (String.substring 0 8 id)
          = Nat.min 8 (String.length id)) as Hlen.
  { by rewrite <- chars_length, chars_substring, length_take, chars_length. }
  split; [done|]. rewrite chars_substring. split; [done|]. split.
  - rewrite Hlen. destruct id; [done|]. cbn [String.length]. lia.
  - by apply Forall_take.
Qed.

Lemma unlisted_profile_shows_short_id_witness :
  profileIdMatch (globalStoragePath unlisted_machine) = Some "4f3a9c21-77"
  ∧ detectProfileName unlisted_machine = "4f3a9c21".
Proof.
  split; [reflexivity|].
  apply (unlisted_profile_shows_short_id unlisted_machine "4f3a9c21-77");
    [reflexivity|].
  right. eexists. split; [reflexivity|].
  constructor; [left; discriminate|constructor].
Defined.

(** ** The label *)

Lemma getProjectName_truthy e :
  (∀ folder folders,
     workspaceFolders e = Some (folder :: folders) → name folder ≠ "") →
  getProjectName e ≠ "".
Proof.
  intros H. unfold getProjectName.
  destruct (workspaceFolders e) as [[|folder folders]|]; try done.
  by apply (H folder folders).
Qed.

Lemma append_truthy_l a b : a ≠ "" → a +:+ b ≠ "".
Proof. by destruct a. Qed.

(** The label is empty only when there is nothing to build it from. *)
Lemma buildLabelText_empty e :
  getProjectName e ≠ "" →
  default "Default" (cachedProfileName e) ≠ "" →
  truthy (buildLabelText e)
  = truthy (get_string e "customLabel" "")
    || get_flag e "showProjectName" true
    || get_flag e "showProfile" true.
Proof.
  intros Hname Hprofile. unfold buildLabelText.
  destruct (truthy (get_string e "customLabel" "")) eqn:Hc; [done|].
  cbn [orb].
  destruct (get_flag e "showProjectName" true),
           (get_flag e "showProfile" true); cbn [negb orb app];
    try destruct (bool_decide _); cbn [orb app String.concat];
    try reflexivity; apply truthy_true; try done;
    by apply append_truthy_l.
Qed.

(** X12.  What [updateLabel] does to the status bar item.  With folder and
    profile names that are not empty, the item ends up visible exactly when
    [showInStatusBar] is on and there is something to show: a custom label,
    the project name or the profile.  When there is nothing to show the
    item is only hidden: its text, tooltip and colour stay as they were and
    no window title is requested.  Otherwise the text is the label behind
    the icon, if there is one, and a title is requested exactly when
    [updateWindowTitle] is on, once, from the template. *)
Theorem updateLabel_shows_what_there_is (e : Editor) (m : Machine) :
  (∀ folder folders,
     workspaceFolders e = Some (folder :: folders) → name folder ≠ "") →
  cachedProfileName e = Some (detectProfileName m) →
  let something :=
    truthy (get_string e "customLabel" "")
    || get_flag e "showProjectName" true
    || get_flag e "showProfile" true in
  let item' := statusBarItem (updateLabel e) in
  truthy (buildLabelText e) = something
  ∧ visible item' = get_flag e "showInStatusBar" true && something
  ∧ (something = false →
     updateLabel e
     = with_item (mkItem (text (statusBarItem e)) (tooltip (statusBarItem e))
                         (color (statusBarItem e)) false) e)
  ∧ (something = true →
     text item'
     = (if truthy (get_string e "icon" "$(bracket-dot)")
        then get_string e "icon" "$(bracket-dot)" +:+ " " +:+ buildLabelText e
        else buildLabelText e)
     ∧ journal (updateLabel e)
       = journal e
         ++ (if get_flag e "updateWindowTitle" true
             then [Requested "window" "title"
                     (titleWithLabel
                        (get_string e "titleTemplate" DEFAULT_TITLE_TEMPLATE)
                        (buildLabelText e))]
             else [])).
Proof.
  intros Hfolders Hprofile something item'.
  assert (truthy (buildLabelText e) = something) as Hlabel.
  { apply buildLabelText_empty; [by apply getProjectName_truthy|].
    rewrite Hprofile. apply detectProfileName_truthy. }
  split; [exact Hlabel|].
  unfold item', updateLabel. rewrite Hlabel.
  destruct something; cbn [negb].
  - rewrite andb_true_r. split.
    { by destruct (get_flag e "updateWindowTitle" true). }
    split; [done|]. intros _. split.
    { by destruct (get_flag e "updateWindowTitle" true). }
    destruct (get_flag e "updateWindowTitle" true); cbn [record journal with_item].
    + reflexivity.
    + by rewrite app_nil_r.
  - rewrite andb_false_r. split; [reflexivity|]. split; [done|]. done.
Qed.

Lemma updateLabel_shows_what_there_is_witness :
  cachedProfileName detected_editor = Some (detectProfileName plain_machine)
  ∧ visible (statusBarItem (updateLabel detected_editor)) = true
  ∧ text (statusBarItem (updateLabel detected_editor))
    = "$(bracket-dot) MyProject - Profile".
Proof.
  split; [reflexivity|].
  destruct (updateLabel_shows_what_there_is detected_editor plain_machine)
    as (_ & Hv & _ & Ht).
  - intros folder folders [= <- <-]. discriminate.
  - reflexivity.
  - split; [exact Hv|]. destruct (Ht eq_refl) as [-> _]. reflexivity.
Defined.

(** ** The window title *)

Lemma GetSubstitution_literal matched before after l :
  dollar_free l → GetSubstitution matched before after l = l.
Proof.
  induction l as [|c l IH]; intros Hno; [done|].
  cbn [GetSubstitution]. cbn in Hno. apply not_elem_of_cons in Hno as [Hc Hl].
  rewrite bool_decide_eq_false_2 by done. by rewrite IH.
Qed.

Lemma replace_label_0 b c s l :
  replace_label b 0 (String c s) l
  = if String.prefix "${label}" (String c s)
    then GetSubstitution "${label}" b (string_drop 8 (String c s)) l
         +:+ replace_label (b +:+ String c "") 7 s l
    else String c (replace_label (b +:+ String c "") 0 s l).
Proof. reflexivity. Qed.

Lemma replace_label_before b b' k s l :
  dollar_free l → replace_label b k s l = replace_label b' k s l.
Proof.
  intros Hno. revert b b' k. induction s as [|c s IH]; intros b b' k; [done|].
  destruct k as [|k]; [|apply IH].
  rewrite !replace_label_0, !(GetSubstitution_literal _ _ _ l Hno).
  by rewrite (IH (b +:+ String c "") (b' +:+ String c "") 7),
             (IH (b +:+ String c "") (b' +:+ String c "") 0).
Qed.

Lemma replace_label_skip b k pat s l :
  String.length pat = k →
  replace_label b k (pat +:+ s) l = replace_label (b +:+ pat) 0 s l.
Proof.
  revert b k. induction pat as [|c pat IH]; intros b k <-.
  - strings. by rewrite append_nil_r.
  - strings. cbn [String.length replace_label].
    rewrite (IH (b +:+ String c "") (String.length pat) eq_refl).
    by rewrite append_assoc.
Qed.

Lemma prefix_cons a p b s :
  String.prefix (String a p) (String b s)
  = if ascii_dec a b then String.prefix p s else false.
Proof. reflexivity. Qed.

Lemma replace_label_absent b t l :
  mentions "${label}" t = false → replace_label b 0 t l = t.
Proof.
  revert b. induction t as [|c t IH]; intros b H; [done|].
  cbn [mentions] in H. apply orb_false_iff in H as [Hp Ht].
  rewrite replace_label_0, Hp. by rewrite IH.
Qed.

Lemma prefix_nil_r a p : String.prefix (String a p) "" = false.
Proof. reflexivity. Qed.

(** A pattern in which [a] does not occur cannot reach beyond [x] into a
    string that begins with [a]. *)
Lemma prefix_beyond a q x r :
  a ∉ chars q →
  String.prefix q (x +:+ String a r) = String.prefix q x.
Proof.
  revert x. induction q as [|b q IH]; intros x Hq; [by destruct x|].
  cbn in Hq. apply not_elem_of_cons in Hq as [Hab Hq].
  destruct x as [|d x]; strings.
  - rewrite prefix_cons, prefix_nil_r.
    destruct (ascii_dec b a); [congruence|done].
  - rewrite !prefix_cons. destruct (ascii_dec b d); [by apply IH|done].
Qed.

(** [${label}] does not overlap itself: one that begins in [x] ends in
    [x]. *)
Lemma prefix_label_before x s :
  x ≠ "" →
  String.prefix "${label}" (x +:+ "${label}" +:+ s)
  = String.prefix "${label}" x.
Proof.
  intros Hx. destruct x as [|c x]; [done|]. strings.
  rewrite !prefix_cons. destruct (ascii_dec "$" c); [|done].
  apply prefix_beyond. apply (bool_decide_unpack _). vm_compute. exact I.
Qed.

Lemma prefix_split p t :
  String.prefix p t = true → ∃ post, t = p +:+ post.
Proof.
  revert t. induction p as [|a p IH]; intros t H; [by exists t|].
  destruct t as [|b t]; [done|]. rewrite prefix_cons in H.
  destruct (ascii_dec a b) as [->|]; [|done].
  destruct (IH t H) as [post ->]. by exists post.
Qed.

(** What stands before the first [${label}] is passed on as it is. *)
Lemma replace_label_unmentioned b pre s l :
  mentions "${label}" pre = false →
  replace_label b 0 (pre +:+ "${label}" +:+ s) l
  = pre +:+ replace_label (b +:+ pre) 0 ("${label}" +:+ s) l.
Proof.
  revert b. induction pre as [|c pre IH]; intros b H.
  - by rewrite !append_nil_l, append_nil_r.
  - cbn [mentions] in H. apply orb_false_iff in H as [Hp Hm].
    pose proof (prefix_label_before (String c pre) s ltac:(done)) as Hb.
    rewrite Hp, (append_cons c pre) in Hb.
    rewrite (append_cons c pre), replace_label_0, Hb, (IH _ Hm).
    rewrite (append_cons c pre). by rewrite append_assoc.
Qed.

(** A template that mentions [${label}] has a first mention. *)
Lemma mentions_split t :
  mentions "${label}" t = true →
  ∃ pre post, t = pre +:+ "${label}" +:+ post
              ∧ mentions "${label}" pre = false.
Proof.
  induction t as [|c t IH]; intros H; [done|].
  cbn [mentions] in H.
  destruct (String.prefix "${label}" (String c t)) eqn:Hp.
  - destruct (prefix_split _ _ Hp) as [post Ht].
    exists "", post. by rewrite append_nil_l.
  - cbn [orb] in H. destruct (IH H) as (pre & post & -> & Hpre).
    exists (String c pre), post. rewrite append_cons. split; [done|].
    cbn [mentions]. rewrite Hpre, orb_false_r.
    rewrite <- (prefix_label_before (String c pre) post) by done.
    rewrite (append_cons c pre). exact Hp.
Qed.

(** X13.  The title that is requested, for a label without a dollar sign:
    the label stands wherever the template has [${label}] and the rest of
    the template is passed on as it is, wherever it stands, so that the
    editor's own variables reach the editor.  What comes before the first
    [${label}] is kept, the label follows, and what comes after is treated
    in the same way; every template that mentions [${label}] has such a
    first mention, and one that does not is passed on unchanged.  With the
    default template the label stands in brackets at the front. *)
Theorem title_carries_label (labelText : string) :
  dollar_free labelText →
  (∀ pre post,
     mentions "${label}" pre = false →
     titleWithLabel (pre +:+ "${label}" +:+ post) labelText
     = pre +:+ labelText +:+ titleWithLabel post labelText)
  ∧ (∀ template,
       mentions "${label}" template = true →
       ∃ pre post, template = pre +:+ "${label}" +:+ post
                   ∧ mentions "${label}" pre = false)
  ∧ (∀ template,
       mentions "${label}" template = false →
       titleWithLabel template labelText = template)
  ∧ titleWithLabel DEFAULT_TITLE_TEMPLATE labelText
    = "[" +:+ labelText +:+ "] ${activeEditorShort}${separator}${rootName}".
Proof.
  intros Hno.
  assert (∀ pre post,
     mentions "${label}" pre = false →
     titleWithLabel (pre +:+ "${label}" +:+ post) labelText
     = pre +:+ labelText +:+ titleWithLabel post labelText) as Hlaw.
  { intros pre post Hpre. unfold titleWithLabel.
    rewrite (replace_label_unmentioned "" pre _ labelText Hpre).
    f_equal.
    assert (∀ x, String.prefix "${label}" ("${label}" +:+ x) = true) as Hp.
    { intros x. strings.
      repeat (rewrite prefix_cons; destruct (ascii_dec _ _) as [_|?]; [|done]).
      by destruct x. }
    pose proof (Hp post) as Hp'. rewrite !append_cons, append_nil_l in Hp'.
    rewrite !append_cons, !append_nil_l, replace_label_0, Hp'.
    rewrite GetSubstitution_literal by exact Hno. f_equal.
    change (String "{" (String "l" (String "a" (String "b" (String "e"
              (String "l" (String "}" post)))))))
      with ("{label}" +:+ post).
    rewrite (replace_label_skip _ 7 "{label}" post labelText eq_refl).
    by apply replace_label_before. }
  split; [exact Hlaw|]. split; [exact mentions_split|]. split.
  - intros template Habsent. by apply replace_label_absent.
  - change DEFAULT_TITLE_TEMPLATE
      with ("[" +:+ "${label}" +:+ "] ${activeEditorShort}${separator}${rootName}").
    rewrite Hlaw by reflexivity.
    reflexivity.
Qed.

(** A template with variables of the editor before and after the label. *)
Lemma title_carries_label_witness :
  dollar_free "MyProject | Work"
  ∧ mentions "${label}" "${rootName} - " = false
  ∧ titleWithLabel "${rootName} - ${label}${dirty}" "MyProject | Work"
    = "${rootName} - MyProject | Work${dirty}"
  ∧ titleWithLabel DEFAULT_TITLE_TEMPLATE "MyProject | Work"
    = "[MyProject | Work] ${activeEditorShort}${separator}${rootName}".
Proof.
  assert (dollar_free "MyProject | Work") as Hno.
  { apply (bool_decide_unpack _). vm_compute. exact I. }
  destruct (title_carries_label "MyProject | Work" Hno)
    as (Hlaw & _ & Habsent & Hdefault).
  split; [exact Hno|]. split; [reflexivity|]. split; [|exact Hdefault].
  change "${rootName} - ${label}${dirty}"
    with ("${rootName} - " +:+ "${label}" +:+ "${dirty}").
  rewrite (Hlaw "${rootName} - " "${dirty}" eq_refl).
  rewrite (Habsent "${dirty}" eq_refl). reflexivity.
Defined.




(** ** The preview of the settings panel *)

Lemma or_else_nil s : or_else s "" = s.
Proof. unfold or_else. destruct (truthy s) eqn:H; [done|]. by apply truthy_false in H. Qed.


(** The label of the preview: that of the status bar for the workspace
    [MyProject] under the profile [Profile], joined by [sep]. *)
Lemma preview_label e sep :
  getProjectName e = "MyProject" →
  cachedProfileName e = Some "Profile" →
  get_string e "separator" " | " = sep →
  buildLabelText e
  = String.concat sep
      (if truthy (get_string e "customLabel" "")
       then [get_string e "customLabel" ""]
       else (if get_flag e "showProjectName" true then ["MyProject"] else [])
            ++ (if get_flag e "showProfile" true then ["Profile"] else [])).
Proof.
  intros Hname Hprofile Hsep. unfold buildLabelText.
  rewrite Hname, Hprofile, Hsep. cbn [default].
  destruct (truthy (get_string e "customLabel" "")); [done|].
  by destruct (get_flag e "showProjectName" true),
              (get_flag e "showProfile" true).
Qed.

(** The status bar item after [updateLabel] found a label. *)
Lemma updateLabel_item e :
  buildLabelText e ≠ "" →
  text (statusBarItem (updateLabel e))
  = (if truthy (get_string e "icon" "$(bracket-dot)")
     then get_string e "icon" "$(bracket-dot)" +:+ " " +:+ buildLabelText e
     else buildLabelText e)
  ∧ color (statusBarItem (updateLabel e))
    = (if truthy (get_string e "color" "")
       then Some (if String.prefix "#" (get_string e "color" "")
                  then Hex (get_string e "color" "")
                  else ThemeColor (get_string e "color" ""))
       else None)
  ∧ visible (statusBarItem (updateLabel e)) = get_flag e "showInStatusBar" true.
Proof.
  intros Hlabel. unfold updateLabel.
  rewrite (proj2 (truthy_true _) Hlabel). cbn [negb].
  by destruct (get_flag e "updateWindowTitle" true).
Qed.




(** X16.  With the separator set to the empty string the preview and the
    status bar part ways: the status bar joins project and profile with
    nothing in between, the preview falls back to [" | "]. *)
Theorem preview_ignores_empty_separator (e : Editor) :
  getProjectName e = "MyProject" →
  cachedProfileName e = Some "Profile" →
  texts e !! "separator" = Some "" →
  get_string e "customLabel" "" = "" →
  get_flag e "showProjectName" true = true →
  get_flag e "showProfile" true = true →
  let icon_ := get_string e "icon" "$(bracket-dot)" in
  buildLabelText e = "MyProjectProfile"
  ∧ text (statusBarItem (updateLabel e))
    = (if truthy icon_ then icon_ +:+ " MyProjectProfile"
       else "MyProjectProfile")
  ∧ fst (updatePreview (settings_payload e))
    = (if truthy icon_ then icon_ +:+ " MyProject | Profile"
       else "MyProject | Profile").
Proof.
  intros Hname Hprofile Hsep Hcustom Hsp Hspf icon_.
  assert (get_string e "separator" " | " = "") as Hsep'.
  { unfold get_string. by rewrite Hsep. }
  assert (buildLabelText e = "MyProjectProfile") as Hlabel.
  { rewrite (preview_label e "" Hname Hprofile Hsep').
    by rewrite Hcustom, Hsp, Hspf. }
  split; [exact Hlabel|]. split.
  - destruct (updateLabel_item e) as (-> & _); [by rewrite Hlabel|].
    rewrite Hlabel. fold icon_. by destruct (truthy icon_).
  - unfold updatePreview, settings_payload.
    cbn [fst customLabel separator icon flags current_settings showProjectName
         showProfile].
    rewrite or_else_nil, Hsep', Hcustom. fold icon_.
    unfold get_flag in Hsp, Hspf. rewrite Hsp, Hspf. reflexivity.
Qed.

Lemma preview_ignores_empty_separator_witness :
  texts unseparated_editor !! "separator" = Some ""
  ∧ text (statusBarItem (updateLabel unseparated_editor))
    = "$(bracket-dot) MyProjectProfile"
  ∧ fst (updatePreview (settings_payload unseparated_editor))
    = "$(bracket-dot) MyProject | Profile".
Proof.
  split; [reflexivity|].
  destruct (preview_ignores_empty_separator unseparated_editor)
    as (_ & Ht & Hp); try reflexivity.
  split; [exact Ht|exact Hp].
Defined.

(** ** The tree view *)

(** X17.  The tree view is flat and every item that carries a command
    carries one that [activate] registers: [getChildren] of an item is
    empty, [getChildren] of the root has 13 items whatever the settings
    are, and no item runs a command the extension does not provide. *)
Theorem tree_commands_are_registered
    (e : Editor) (item : SettingItem) (command title : string) :
  item ∈ getChildren None e →
  item_command item = Some (command, title) →
  command ∈ REGISTERED_COMMANDS
  ∧ getChildren (Some item) e = []
  ∧ length (getChildren None e) = 13.
Proof.
  intros Hin Hcmd. split; [|split; reflexivity].
  cbn [getChildren] in Hin.
  repeat (apply elem_of_cons in Hin as [->|Hin];
          [cbn [item_command] in Hcmd; try discriminate;
           injection Hcmd as <- <-;
           apply (bool_decide_unpack _); vm_compute; exact I|]).
  by apply elem_of_nil in Hin.
Qed.

Lemma tree_commands_are_registered_witness :
  refresh_item ∈ getChildren None example_editor
  ∧ "projectLabel.refresh" ∈ REGISTERED_COMMANDS.
Proof.
  assert (refresh_item ∈ getChildren None example_editor) as Hin.
  { cbn [getChildren]. do 11 apply list_elem_of_further. apply list_elem_of_here. }
  split; [exact Hin|].
  by destruct (tree_commands_are_registered example_editor refresh_item
                 "projectLabel.refresh" "Refresh" Hin eq_refl) as [H _].
Defined.

(** X18.  The sidebar and the settings panel agree.  For each of the five
    display toggles both read the same setting with the same default: the
    item of the tree shows the check mark exactly when the check box of the
    page is checked once the page has applied [settingsUpdate]; and the
    first item names the project as the status bar does. *)
Theorem tree_agrees_with_panel (e : Editor) (p : Webview.Page) :
  let page :=
    Webview.on_message (settingsUpdate (current_settings (config (world e)))) p in
  Forall (λ '(key, caption),
            ∃ b, Webview.checks page !! key = Some b
                 ∧ ∃ item, item ∈ getChildren None e
                           ∧ item_label item = caption +:+ ": " +:+ boolIcon b)
    [ ("showProjectName", "Project Name"); ("showProfile", "Profile");
      ("showInStatusBar", "Status Bar"); ("updateWindowTitle", "Window Title");
      ("useNativeTitleBar", "Native Title Bar") ]
  ∧ ∃ item, getChildren None e !! 0 = Some item
            ∧ item_label item = "Project: " +:+ getProjectName e.
Proof.
  intros page. split.
  - unfold page.
    cbn [Webview.on_message Webview.applySettings Webview.setCheck
         Webview.checks current_settings showProjectName showProfile
         updateWindowTitle showInStatusBar useNativeTitleBar].
    repeat constructor.
    + exists (get_flag e "showProjectName" true). split.
      { rewrite !lookup_insert_ne by done. apply lookup_insert_eq. }
      eexists. split.
      { cbn [getChildren]. do 1 apply list_elem_of_further.
        apply list_elem_of_here. }
      reflexivity.
    + exists (get_flag e "showProfile" true). split.
      { rewrite !lookup_insert_ne by done. apply lookup_insert_eq. }
      eexists. split.
      { cbn [getChildren]. do 2 apply list_elem_of_further.
        apply list_elem_of_here. }
      reflexivity.
    + exists (get_flag e "showInStatusBar" true). split.
      { rewrite !lookup_insert_ne by done. apply lookup_insert_eq. }
      eexists. split.
      { cbn [getChildren]. do 3 apply list_elem_of_further.
        apply list_elem_of_here. }
      reflexivity.
    + exists (get_flag e "updateWindowTitle" true). split.
      { rewrite !lookup_insert_ne by done. apply lookup_insert_eq. }
      eexists. split.
      { cbn [getChildren]. do 4 apply list_elem_of_further.
        apply list_elem_of_here. }
      reflexivity.
    + exists (get_flag e "useNativeTitleBar" false). split.
      { apply lookup_insert_eq. }
      eexists. split.
      { cbn [getChildren]. do 5 apply list_elem_of_further.
        apply list_elem_of_here. }
      reflexivity.
  - eexists. split; [reflexivity|]. reflexivity.
Qed.

(** ** Writes that are not guarded *)

(** A write to a signal that is awaited without a guard. *)
Lemma signals_update_now_run s key v e :
  ∃ w' t,
    Forall is_post t
    ∧ trace w'
      = trace (world e) ++ t
        ++ [WriteSettled key v (negb (rejects (store s) key))]
    ∧ projectLabel (config w') = projectLabel (config (world e))
    ∧ signals (config w')
      = (if rejects (store s) key then signals (config (world e))
         else <[key := v]> (signals (config (world e))))
    ∧ clock w' = clock (world e) + settles_after (store s) key
    ∧ signals_update_now s key v e
      = (if rejects (store s) key then Rejected else Fulfilled tt,
         with_world w' e).
Proof.
  unfold signals_update_now, lift, signals_update, wait_until.
  destruct (passes_time_elapse
              (clock (world e) + settles_after (store s) key - clock (world e))
              (world e)) as (Hc & t & Ht & Hp).
  pose proof (clock_elapse
                (clock (world e) + settles_after (store s) key - clock (world e))
                (world e)) as Hk.
  set (w1 := elapse _ (world e)) in *.
  destruct (rejects (store s) key); cbn [negb].
  - eexists. exists t. split; [exact Hp|].
    split; [|split; [|split; [|split; [|reflexivity]]]];
      cbn [emit config trace clock]; rewrite ?Hc, ?Ht, <- ?app_assoc;
      try done. lia.
  - eexists. exists t. split; [exact Hp|].
    split; [|split; [|split; [|split; [|reflexivity]]]];
      unfold onDidChangeConfiguration;
      rewrite ?_sendSignalStates_config, ?_sendSignalStates_trace,
        ?_sendSignalStates_clock;
      cbn [emit with_config config trace signals projectLabel clock];
      rewrite ?Hc, ?Ht, <- ?app_assoc; try done. lia.
Qed.

Lemma written_before_all rej keys :
  first_rejected rej keys = None → written_before rej keys = keys.
Proof.
  induction keys as [|k keys IH]; [done|]. cbn.
  destruct (rej k); [done|]. intros H. by rewrite IH.
Qed.

Lemma first_rejected_none rej keys :
  first_rejected rej keys = None ↔ ∀ k, k ∈ keys → rej k = false.
Proof.
  induction keys as [|k keys IH]; cbn.
  - split; [|done]. intros _ k Hk. by apply elem_of_nil in Hk.
  - destruct (rej k) eqn:Hk.
    + split; [done|]. intros H. rewrite (H k) in Hk; [done|left].
    + rewrite IH. split.
      * intros H x [->|Hx]%elem_of_cons; [done|by apply H].
      * intros H x Hx. apply H. by right.
Qed.

Lemma first_rejected_some rej keys k :
  first_rejected rej keys = Some k → k ∈ keys ∧ rej k = true.
Proof.
  induction keys as [|x keys IH]; [done|]. cbn.
  destruct (rej x) eqn:Hx.
  - intros [= <-]. split; [left|done].
  - intros H. destruct (IH H). split; [by right|done].
Qed.

(** The loop [for (const key of keys) await signals.update(key, value)]:
    it gets through the keys before the first rejected write, stops there
    and touches nothing else. *)
Lemma unguarded_loop_run s v keys e :
  ∃ w' t,
    for_of keys (λ key, signals_update_now s key v) e
    = (match first_rejected (rejects (store s)) keys with
       | Some _ => Rejected
       | None => Fulfilled tt
       end, with_world w' e)
    ∧ signals (config w')
      = apply_writes (λ _, false) v
          (written_before (rejects (store s)) keys)
          (signals (config (world e)))
    ∧ projectLabel (config w') = projectLabel (config (world e))
    ∧ trace w' = trace (world e) ++ t
    ∧ signal_writes t
      = ((λ k, (k, v, true)) <$> written_before (rejects (store s)) keys)
        ++ match first_rejected (rejects (store s)) keys with
           | Some k => [(k, v, false)]
           | None => []
           end
    ∧ setting_writes t = []
    ∧ clock w'
      = clock (world e)
        + sum_list (settles_after (store s)
                      <$> (written_before (rejects (store s)) keys
                           ++ option_list
                                (first_rejected (rejects (store s)) keys))).
Proof.
  revert e. induction keys as [|k keys IH]; intros e.
  - exists (world e), []. cbn. rewrite app_nil_r, Nat.add_0_r. by destruct e.
  - destruct (signals_update_now_run s k v e)
      as (w1 & t1 & F1 & T1 & P1 & S1 & C1 & E1).
    cbn [for_of written_before first_rejected].
    unfold mbind, Ext_bind. rewrite E1.
    destruct (rejects (store s) k) eqn:Hk; cbn [negb] in *.
    + exists w1, (t1 ++ [WriteSettled k v false]).
      split; [reflexivity|]. split; [exact S1|]. split; [exact P1|].
      split; [exact T1|].
      rewrite signal_writes_app, setting_writes_app.
      rewrite (posts_no_signal_writes t1 F1), (posts_no_setting_writes t1 F1).
      split; [reflexivity|]. split; [reflexivity|].
      rewrite C1. cbn. lia.
    + destruct (IH (with_world w1 e))
        as (w2 & t2 & E2 & S2 & P2 & T2 & W2 & G2 & C2).
      cbn [world with_world] in *.
      exists w2, (t1 ++ [WriteSettled k v true] ++ t2).
      split.
      { rewrite E2. by destruct e. }
      split.
      { rewrite S2, S1. reflexivity. }
      split; [by rewrite P2, P1|].
      split; [by rewrite T2, T1, <- !app_assoc|].
      rewrite !signal_writes_app, !setting_writes_app.
      rewrite (posts_no_signal_writes t1 F1), (posts_no_setting_writes t1 F1).
      rewrite W2, G2. split; [reflexivity|]. split; [reflexivity|].
      rewrite C2, C1. cbn. lia.
Qed.

(** A write to a boolean setting of [projectLabel]. *)
Lemma projectLabel_update_run s key value e :
  ∃ w' t,
    Forall is_post t
    ∧ trace w' = trace (world e) ++ t
    ∧ signals (config w') = signals (config (world e))
    ∧ clock w' = clock (world e) + takes s "projectLabel" key
    ∧ (if refuses s "projectLabel" key
       then projectLabel_update s key value e
            = (Rejected,
               record (Written "projectLabel" key false) (with_world w' e))
            ∧ projectLabel (config w') = projectLabel (config (world e))
       else projectLabel_update s key value e
            = (Fulfilled tt,
               record (Written "projectLabel" key true) (with_world w' e))
            ∧ projectLabel (config w')
              = <[key := value]> (projectLabel (config (world e)))
            ∧ ∃ t0, t = t0 ++ [Posted (settingsUpdate
                                         (current_settings (config w')))]).
Proof.
  unfold projectLabel_update.
  destruct (passes_time_elapse (takes s "projectLabel" key) (world e))
    as (Hc & t & Ht & Hp).
  pose proof (clock_elapse (takes s "projectLabel" key) (world e)) as Hk.
  set (w1 := elapse _ (world e)) in *.
  destruct (refuses s "projectLabel" key).
  - exists w1, t. rewrite Hc. done.
  - set (c' := mkConfig (signals (config w1))
                         (<[key := value]> (projectLabel (config w1)))).
    exists (onDidChangeConfiguration true false (with_config c' w1)).
    exists (t ++ [Posted (settingsUpdate (current_settings c'))]).
    unfold onDidChangeConfiguration.
    rewrite _sendCurrentSettings_trace, _sendCurrentSettings_config,
      _sendCurrentSettings_clock.
    cbn [with_config trace config c' signals projectLabel clock].
    rewrite Ht, Hc, <- app_assoc.
    split; [|split; [reflexivity|split; [reflexivity|split; [exact Hk|]]]].
    + apply Forall_app. split; [exact Hp|]. by repeat constructor.
    + split; [reflexivity|]. split; [reflexivity|].
      exists t. unfold c'. by rewrite Hc.
Qed.

(** ** Copilot Chat silence *)

Lemma setCopilotChatSilence_loop s silent e :
  setCopilotChatSilence s silent e
  = match for_of COPILOT_CHAT_SIGNALS
            (λ key, signals_update_now s key (sound_value silent)) e with
    | (Fulfilled _, e1) =>
        match projectLabel_update s "silenceCopilotChat" silent e1 with
        | (Fulfilled _, e2) =>
            (Fulfilled tt,
             record (Informed (if silent then "Copilot Chat sounds silenced."
                               else "Copilot Chat sounds restored.")) e2)
        | (Rejected, e2) => (Rejected, e2)
        end
    | (Rejected, e1) => (Rejected, e1)
    end.
Proof.
  unfold setCopilotChatSilence, mbind, Ext_bind.
  destruct (for_of _ _ e) as [[[]|] e1]; [|reflexivity].
  by destruct (projectLabel_update s "silenceCopilotChat" silent e1)
    as [[[]|] e2].
Qed.

Lemma apply_writes_all_lookup v keys sig k :
  apply_writes (λ _, false) v keys sig !! k
  = if decide (k ∈ keys) then Some v else sig !! k.
Proof. by rewrite apply_writes_lookup. Qed.

(** X19.  [setCopilotChatSilence] writes its ten signals one after the
    other and none of the writes is guarded: at the first write the store
    rejects it stops and fails.  The signals before that one hold the new
    value, that one and those after it are as they were, the flag
    [silenceCopilotChat] is not written and no message is shown. *)
Theorem setCopilotChatSilence_stops_at_first_failure
    (s : Services) (silent : bool) (e : Editor) (k : string) :
  first_rejected (rejects (store s)) COPILOT_CHAT_SIGNALS = Some k →
  let e' := snd (setCopilotChatSilence s silent e) in
  let written := written_before (rejects (store s)) COPILOT_CHAT_SIGNALS in
  fst (setCopilotChatSilence s silent e) = Rejected
  ∧ signal_writes (since (world e) (world e'))
    = ((λ x, (x, sound_value silent, true)) <$> written)
      ++ [(k, sound_value silent, false)]
  ∧ (∀ x, signals (config (world e')) !! x
          = if decide (x ∈ written) then Some (sound_value silent)
            else signals (config (world e)) !! x)
  ∧ projectLabel (config (world e')) = projectLabel (config (world e))
  ∧ journal e' = journal e.
Proof.
  intros Hk e' written.
  destruct (unguarded_loop_run s (sound_value silent) COPILOT_CHAT_SIGNALS e)
    as (w1 & t & E & S & P & T & W & G & C).
  rewrite Hk in E, W.
  assert (setCopilotChatSilence s silent e = (Rejected, with_world w1 e)) as Hrun.
  { by rewrite setCopilotChatSilence_loop, E. }
  unfold e'. rewrite Hrun. cbn [fst snd world with_world journal].
  split; [reflexivity|]. rewrite (since_app _ _ _ T).
  split; [exact W|]. split; [|split; [exact P|reflexivity]].
  intros x. rewrite S. apply apply_writes_all_lookup.
Qed.

Lemma setCopilotChatSilence_stops_at_first_failure_witness :
  first_rejected (rejects (store failing_services)) COPILOT_CHAT_SIGNALS
  = Some "editsKept"
  ∧ fst (setCopilotChatSilence failing_services true example_editor) = Rejected
  ∧ journal (snd (setCopilotChatSilence failing_services true example_editor))
    = [].
Proof.
  split; [reflexivity|].
  destruct (setCopilotChatSilence_stops_at_first_failure failing_services true
              example_editor
              "editsKept" eq_refl) as (H1 & _ & _ & _ & H5).
  split; [exact H1|exact H5].
Defined.

(** X20.  [setCopilotChatSilence] writes its ten signals first, in array
    order, each write issued when the one before it has settled, so that
    the times in flight add up.  When the store accepts the ten, then at
    the moment the call goes on to the flag [silenceCopilotChat] the ten
    Copilot signals hold the new value, every other signal is as it was,
    nothing of [projectLabel] has been written and no message has been
    shown.  The call then stands or falls with the write of the flag, and
    the message is shown only if that write is accepted.  What the listener
    of extension.ts starts when the flag changes comes after that moment
    and is not part of the statement. *)
Theorem setCopilotChatSilence_writes_in_sequence
    (s : Services) (silent : bool) (e : Editor) :
  (∀ k, k ∈ COPILOT_CHAT_SIGNALS → rejects (store s) k = false) →
  ∃ e1,
    for_of COPILOT_CHAT_SIGNALS
      (λ key, signals_update_now s key (sound_value silent)) e
    = (Fulfilled tt, e1)
    ∧ signal_writes (since (world e) (world e1))
      = (λ x, (x, sound_value silent, true)) <$> COPILOT_CHAT_SIGNALS
    ∧ setting_writes (since (world e) (world e1)) = []
    ∧ (∀ x, signals (config (world e1)) !! x
            = if decide (x ∈ COPILOT_CHAT_SIGNALS)
              then Some (sound_value silent)
              else signals (config (world e)) !! x)
    ∧ projectLabel (config (world e1)) = projectLabel (config (world e))
    ∧ journal e1 = journal e
    ∧ clock (world e1)
      = clock (world e)
        + sum_list (settles_after (store s) <$> COPILOT_CHAT_SIGNALS)
    ∧ setCopilotChatSilence s silent e
      = match projectLabel_update s "silenceCopilotChat" silent e1 with
        | (Fulfilled _, e2) =>
            (Fulfilled tt,
             record (Informed (if silent then "Copilot Chat sounds silenced."
                               else "Copilot Chat sounds restored.")) e2)
        | (Rejected, e2) => (Rejected, e2)
        end.
Proof.
  intros Hall. apply first_rejected_none in Hall.
  destruct (unguarded_loop_run s (sound_value silent) COPILOT_CHAT_SIGNALS e)
    as (w1 & t1 & E1 & S1 & P1 & T1 & W1 & G1 & C1).
  rewrite Hall in E1, W1, C1.
  rewrite (written_before_all _ _ Hall) in S1, W1, C1.
  exists (with_world w1 e). cbn [world with_world journal].
  split; [exact E1|]. rewrite (since_app _ _ _ T1).
  split; [by rewrite W1, app_nil_r|]. split; [exact G1|].
  split; [intros x; rewrite S1; apply apply_writes_all_lookup|].
  split; [exact P1|]. split; [reflexivity|].
  split; [by rewrite C1, app_nil_r|].
  by rewrite setCopilotChatSilence_loop, E1.
Qed.

Lemma setCopilotChatSilence_writes_in_sequence_witness :
  (∀ k, k ∈ COPILOT_CHAT_SIGNALS → rejects (store example_services) k = false)
  ∧ ∃ e1,
      for_of COPILOT_CHAT_SIGNALS
        (λ key, signals_update_now example_services key (sound_value true))
        example_editor
      = (Fulfilled tt, e1)
      ∧ signals (config (world e1)) !! "editsKept" = Some (sound_value true)
      ∧ signals (config (world e1)) !! "save" = Some (sound_value false)
      ∧ journal e1 = []
      ∧ clock (world e1) = clock (world example_editor) + 153.
Proof.
  assert (∀ k, k ∈ COPILOT_CHAT_SIGNALS →
               rejects (store example_services) k = false) as Hall.
  { apply first_rejected_none. reflexivity. }
  split; [exact Hall|].
  destruct (setCopilotChatSilence_writes_in_sequence example_services true
              example_editor Hall)
    as (e1 & E & _ & _ & S & _ & J & C & _).
  exists e1. split; [exact E|].
  split; [rewrite S; reflexivity|]. split; [rewrite S; reflexivity|].
  split; [exact J|]. rewrite C. reflexivity.
Defined.

Lemma COPILOT_CHAT_SIGNALS_first_ten :
  COPILOT_CHAT_SIGNALS = take 10 ALL_SOUND_SIGNALS.
Proof. reflexivity. Qed.

Lemma written_before_sublist rej keys x :
  x ∈ written_before rej keys → x ∈ keys.
Proof.
  induction keys as [|k keys IH]; [done|]. cbn.
  destruct (rej k); [by intros ?%elem_of_nil|].
  intros [->|H]%elem_of_cons; [left|right; by apply IH].
Qed.

(** X21.  The Copilot signals are the first ten of [ALL_SOUND_SIGNALS], so
    the master toggle covers them: after a run of [setSilenceAllSounds] in
    which no write was rejected, a run of [setCopilotChatSilence] with the
    same value changes no signal, however it ends. *)
Theorem master_toggle_covers_copilot
    (h : Host) (s : Services) (silent : bool) (e : Editor) :
  (∀ k, k ∈ COPILOT_CHAT_SIGNALS → rejects h k = false) →
  let e1 := with_world (snd (setSilenceAllSounds h silent (world e))) e in
  let e2 := snd (setCopilotChatSilence s silent e1) in
  COPILOT_CHAT_SIGNALS = take 10 ALL_SOUND_SIGNALS
  ∧ (∀ k, k ∈ COPILOT_CHAT_SIGNALS →
          signals (config (world e1)) !! k = Some (sound_value silent))
  ∧ signals (config (world e2)) = signals (config (world e1)).
Proof.
  intros Hacc e1 e2. split; [reflexivity|].
  destruct (setSilenceAllSounds_ends h silent (world e))
    as (w1 & t & E & S & _).
  assert (world e1 = w1) as Hw1 by (unfold e1; by rewrite E).
  assert (∀ k, k ∈ COPILOT_CHAT_SIGNALS →
               signals (config (world e1)) !! k = Some (sound_value silent))
    as Hheld.
  { intros k Hk. rewrite Hw1, S, apply_writes_lookup.
    rewrite decide_True.
    - by rewrite (Hacc k Hk).
    - rewrite COPILOT_CHAT_SIGNALS_first_ten in Hk.
      by apply (subseteq_take 10 ALL_SOUND_SIGNALS). }
  split; [exact Hheld|].
  destruct (unguarded_loop_run s (sound_value silent) COPILOT_CHAT_SIGNALS e1)
    as (w2 & t2 & E2 & S2 & _).
  assert (signals (config w2) = signals (config (world e1))) as Hsame.
  { rewrite S2. apply map_eq. intros x. rewrite apply_writes_all_lookup.
    destruct (decide (x ∈ _)) as [Hx|]; [|done].
    symmetry. apply Hheld. by apply written_before_sublist in Hx. }
  unfold e2. rewrite setCopilotChatSilence_loop, E2.
  destruct (first_rejected (rejects (store s)) COPILOT_CHAT_SIGNALS).
  { exact Hsame. }
  destruct (projectLabel_update_run s "silenceCopilotChat" silent
              (with_world w2 e1)) as (w3 & t3 & _ & _ & S3 & _ & R3).
  cbn [world with_world] in S3, R3.
  destruct (refuses s "projectLabel" "silenceCopilotChat").
  - destruct R3 as [-> _]. cbn [snd world record with_world].
    by rewrite S3.
  - destruct R3 as (-> & _). cbn [snd world record with_world].
    by rewrite S3.
Qed.

Lemma master_toggle_covers_copilot_witness :
  (∀ k, k ∈ COPILOT_CHAT_SIGNALS → rejects accepting_host k = false)
  ∧ let e1 := with_world
                (snd (setSilenceAllSounds accepting_host true
                        (world example_editor))) example_editor in
    signals (config (world (snd (setCopilotChatSilence failing_services true
                                   e1))))
    = signals (config (world e1)).
Proof.
  split; [done|].
  by destruct (master_toggle_covers_copilot accepting_host failing_services
                 true example_editor) as (_ & _ & H).
Defined.

(** ** Toggles from the sidebar *)

Lemma toggleBoolSetting_run s key e :
  refuses s "projectLabel" key = false →
  ∃ w' t,
    toggleBoolSetting s key e
    = (Fulfilled tt, record (Written "projectLabel" key true) (with_world w' e))
    ∧ trace w' = trace (world e) ++ t
    ∧ signals (config w') = signals (config (world e))
    ∧ projectLabel (config w')
      = <[key := negb (get_flag e key false)]> (projectLabel (config (world e)))
    ∧ Posted (settingsUpdate (current_settings (config w'))) ∈ t.
Proof.
  intros Hacc. unfold toggleBoolSetting.
  destruct (projectLabel_update_run s key (negb (get_flag e key false)) e)
    as (w' & t & _ & T & S & _ & R).
  rewrite Hacc in R. destruct R as (E & P & t0 & ->).
  exists w', (t0 ++ [Posted (settingsUpdate (current_settings (config w')))]).
  repeat split; try done. apply elem_of_app. right. left.
Qed.

(** X22.  A toggle from the sidebar flips the setting as it reads with the
    default [false]: the new value is stored under the key, and the open
    settings panel is sent the settings as they now are.  For a key other
    than [silenceCopilotChat] and [silenceAllSounds], to whose change the
    listener of extension.ts answers with writes of its own, no other
    setting of [projectLabel] and no signal changes, a second toggle brings
    the setting back, and the whole section when the key was stored before.
    Nothing is said of the section [window], where that listener has the
    title and, for [useNativeTitleBar], the title bar style written. *)
Theorem toggleBoolSetting_flips (s : Services) (key : string) (e : Editor) :
  refuses s "projectLabel" key = false →
  let e1 := snd (toggleBoolSetting s key e) in
  let e2 := snd (toggleBoolSetting s key e1) in
  fst (toggleBoolSetting s key e) = Fulfilled tt
  ∧ (∀ dflt, get_flag e1 key dflt = negb (get_flag e key false))
  ∧ Posted (settingsUpdate (current_settings (config (world e1))))
    ∈ since (world e) (world e1)
  ∧ (key ≠ "silenceCopilotChat" → key ≠ "silenceAllSounds" →
     projectLabel (config (world e1))
     = <[key := negb (get_flag e key false)]> (projectLabel (config (world e)))
     ∧ signals (config (world e1)) = signals (config (world e))
     ∧ (∀ dflt, get_flag e2 key dflt = get_flag e key false)
     ∧ (is_Some (projectLabel (config (world e)) !! key) →
        projectLabel (config (world e2)) = projectLabel (config (world e)))).
Proof.
  intros Hacc e1 e2.
  destruct (toggleBoolSetting_run s key e Hacc)
    as (w1 & t1 & E1 & T1 & S1 & P1 & Hin1).
  assert (world e1 = w1) as Hw1 by (unfold e1; by rewrite E1).
  assert (∀ dflt, get_flag e1 key dflt = negb (get_flag e key false)) as Hflip.
  { intros dflt. unfold get_flag at 1, get_bool.
    by rewrite Hw1, P1, lookup_insert_eq. }
  destruct (toggleBoolSetting_run s key e1 Hacc)
    as (w2 & t2 & E2 & T2 & S2 & P2 & Hin2).
  assert (world e2 = w2) as Hw2 by (unfold e2; by rewrite E2).
  split; [by rewrite E1|]. split; [exact Hflip|]. split.
  { rewrite Hw1, (since_app _ _ _ T1). exact Hin1. }
  intros _ _. split; [by rewrite Hw1|]. split; [by rewrite Hw1|]. split.
  - intros dflt. unfold get_flag at 1, get_bool.
    rewrite Hw2, P2, lookup_insert_eq. cbn [default].
    rewrite Hflip. apply negb_involutive.
  - intros [b Hb]. rewrite Hw2, P2, Hflip, negb_involutive, Hw1, P1.
    rewrite insert_insert_eq. apply insert_id.
    unfold get_flag, get_bool. by rewrite Hb.
Qed.

(** [showProfile], stored as [true], is toggled off, and on again. *)
Lemma toggleBoolSetting_flips_witness :
  refuses example_services "projectLabel" "showProfile" = false
  ∧ let e1 := snd (toggleBoolSetting example_services "showProfile"
                     profiled_editor) in
    let e2 := snd (toggleBoolSetting example_services "showProfile" e1) in
    get_flag profiled_editor "showProfile" true = true
    ∧ get_flag e1 "showProfile" true = false
    ∧ projectLabel (config (world e1)) = {["showProfile" := false]}
    ∧ get_flag e2 "showProfile" true = true
    ∧ projectLabel (config (world e2))
      = projectLabel (config (world profiled_editor)).
Proof.
  split; [reflexivity|].
  destruct (toggleBoolSetting_flips example_services "showProfile"
              profiled_editor eq_refl)
    as (_ & H1 & _ & Hrest).
  destruct Hrest as (P1 & _ & H2 & P2); [discriminate|discriminate|].
  cbv zeta. split; [reflexivity|]. split; [exact (H1 true)|].
  split; [rewrite P1; reflexivity|]. split; [exact (H2 true)|].
  apply P2. by eexists.
Defined.

(** ** The title bar *)

Lemma window_update_run s key value e :
  ∃ w',
    config w' = config (world e)
    ∧ window_update s key value e
      = if refuses s "window" key
        then (Rejected, record (Written "window" key false) (with_world w' e))
        else (Fulfilled tt,
              record (Written "window" key true)
                (with_window (<[key := value]> (window e)) (with_world w' e))).
Proof.
  unfold window_update.
  destruct (passes_time_elapse (takes s "window" key) (world e)) as (Hc & _).
  exists (elapse (takes s "window" key) (world e)). split; [exact Hc|].
  by destruct (refuses s "window" key).
Qed.

Lemma prompt_run s message items e :
  ∃ w',
    config w' = config (world e)
    ∧ prompt s message items e
      = (Fulfilled (match picks s with
                    | Some x => if bool_decide (x ∈ items) then Some x else None
                    | None => None
                    end),
         record (Prompted message items) (with_world w' e)).
Proof.
  unfold prompt.
  destruct (passes_time_elapse (picks_after s) (world e)) as (Hc & _).
  by exists (elapse (picks_after s) (world e)).
Qed.

(** The end of both functions: the window is reloaded if and only if the
    user picks [Restart Now]. *)
Lemma restart_if_asked_run s e :
  restart_if_asked
    (match picks s with
     | Some x =>
         if bool_decide (x ∈ ["Restart Now"; "Later"]) then Some x else None
     | None => None
     end) e
  = (Fulfilled tt,
     if bool_decide (picks s = Some "Restart Now")
     then record (Executed "workbench.action.reloadWindow") e else e).
Proof.
  unfold restart_if_asked. destruct (picks s) as [x|]; [|reflexivity].
  destruct (decide (x = "Restart Now")) as [->|Hne].
  - reflexivity.
  - rewrite (bool_decide_eq_false_2 (Some x = Some "Restart Now"))
      by congruence.
    destruct (bool_decide (x ∈ ["Restart Now"; "Later"])); [|reflexivity].
    by rewrite bool_decide_eq_false_2 by congruence.
Qed.

Lemma applyNativeTitleBarSetting_in_step s e :
  window e !! "titleBarStyle"
  = Some (if get_flag e "useNativeTitleBar" false then "native" else "custom") →
  applyNativeTitleBarSetting s e = (Fulfilled tt, e).
Proof.
  intros H. unfold applyNativeTitleBarSetting. rewrite H.
  by rewrite bool_decide_eq_false_2 by auto.
Qed.

(** X23.  [applyNativeTitleBarSetting] brings [window.titleBarStyle] in
    step with [useNativeTitleBar].  When they are in step it does nothing:
    no write, no prompt.  Otherwise it writes the style the flag asks for;
    if the store accepts, it prompts once, reloads the window exactly when
    the user picks [Restart Now], and a further call finds nothing to do;
    if the store rejects, it fails with the style as it was and without a
    prompt.  It never changes the store of the flags and signals. *)
Theorem applyNativeTitleBarSetting_brings_in_step (s : Services) (e : Editor) :
  let target :=
    if get_flag e "useNativeTitleBar" false then "native" else "custom" in
  let r := fst (applyNativeTitleBarSetting s e) in
  let e' := snd (applyNativeTitleBarSetting s e) in
  (window e !! "titleBarStyle" = Some target → r = Fulfilled tt ∧ e' = e)
  ∧ (window e !! "titleBarStyle" ≠ Some target →
     if refuses s "window" "titleBarStyle"
     then r = Rejected ∧ window e' = window e
          ∧ journal e' = journal e ++ [Written "window" "titleBarStyle" false]
     else r = Fulfilled tt
          ∧ window e' = <["titleBarStyle" := target]> (window e)
          ∧ journal e'
            = journal e
              ++ [Written "window" "titleBarStyle" true;
                  Prompted
                    ("Title bar style changed to " +:+ dquote +:+ target
                     +:+ dquote
                     +:+ ". A restart is required for this to take effect.")
                    ["Restart Now"; "Later"]]
              ++ (if bool_decide (picks s = Some "Restart Now")
                  then [Executed "workbench.action.reloadWindow"] else [])
          ∧ ∀ s2, applyNativeTitleBarSetting s2 e' = (Fulfilled tt, e'))
  ∧ config (world e') = config (world e).
Proof.
  intros target r e'.
  assert (window e !! "titleBarStyle" = Some target → r = Fulfilled tt ∧ e' = e)
    as Hstep.
  { intros H. unfold r, e'. by rewrite applyNativeTitleBarSetting_in_step. }
  destruct (decide (window e !! "titleBarStyle" = Some target)) as [Heq|Hne].
  { destruct (Hstep Heq) as [Hr He]. split; [done|]. split; [done|].
    by rewrite He. }
  destruct (window_update_run s "titleBarStyle" target e) as (w1 & C1 & E1).
  set (msg := "Title bar style changed to " +:+ dquote +:+ target +:+ dquote
              +:+ ". A restart is required for this to take effect.").
  assert (applyNativeTitleBarSetting s e
          = match window_update s "titleBarStyle" target e with
            | (Fulfilled _, e1) =>
                match prompt s msg ["Restart Now"; "Later"] e1 with
                | (Fulfilled action, e2) => restart_if_asked action e2
                | (Rejected, e2) => (Rejected, e2)
                end
            | (Rejected, e1) => (Rejected, e1)
            end) as Hrun.
  { unfold applyNativeTitleBarSetting. fold target.
    rewrite bool_decide_eq_true_2 by exact Hne.
    unfold mbind, Ext_bind. fold msg.
    by destruct (window_update s "titleBarStyle" target e) as [[[]|] e1]. }
  split; [exact Hstep|].
  destruct (refuses s "window" "titleBarStyle") eqn:Href.
  - rewrite E1 in Hrun. unfold r, e'. rewrite Hrun.
    cbn [fst snd window journal record with_world world]. by rewrite C1.
  - rewrite E1 in Hrun.
    destruct (prompt_run s msg ["Restart Now"; "Later"]
                (record (Written "window" "titleBarStyle" true)
                   (with_window (<["titleBarStyle" := target]> (window e))
                      (with_world w1 e)))) as (w2 & C2 & E2).
    rewrite E2, restart_if_asked_run in Hrun.
    cbn [world record with_window with_world] in C2.
    unfold r, e'. rewrite Hrun. cbn [fst snd].
    split; [|by destruct (bool_decide (picks s = Some "Restart Now"));
               cbn [world record with_world]; rewrite C2, C1].
    intros _. split; [reflexivity|].
    split; [by destruct (bool_decide (picks s = Some "Restart Now"))|].
    split.
    { destruct (bool_decide (picks s = Some "Restart Now"));
        cbn [journal record with_world with_window];
        by rewrite <- ?app_assoc. }
    intros s2. apply applyNativeTitleBarSetting_in_step.
    assert (∀ x : Editor,
              window x = <["titleBarStyle" := target]> (window e) →
              config (world x) = config (world e) →
              window x !! "titleBarStyle"
              = Some (if get_flag x "useNativeTitleBar" false
                      then "native" else "custom")) as Hok.
    { intros x Hw Hc. rewrite Hw, lookup_insert_eq. unfold get_flag.
      by rewrite Hc. }
    destruct (bool_decide (picks s = Some "Restart Now"));
      apply Hok; cbn [window world record with_world with_window];
      by rewrite ?C2, ?C1.
Qed.

Lemma setTitleBarStyle_steps s style e :
  setTitleBarStyle s style e
  = match projectLabel_update s "useNativeTitleBar"
            (match style with native => true | custom => false end) e with
    | (Fulfilled _, e1) =>
        match window_update s "titleBarStyle" (style_name style) e1 with
        | (Fulfilled _, e2) =>
            match prompt s
                    ("Title bar style set to " +:+ dquote +:+ style_name style
                     +:+ dquote +:+ ". A restart is required.")
                    ["Restart Now"; "Later"] e2 with
            | (Fulfilled action, e3) => restart_if_asked action e3
            | (Rejected, e3) => (Rejected, e3)
            end
        | (Rejected, e2) => (Rejected, e2)
        end
    | (Rejected, e1) => (Rejected, e1)
    end.
Proof.
  unfold setTitleBarStyle, mbind, Ext_bind.
  destruct (projectLabel_update s "useNativeTitleBar" _ e) as [[[]|] e1];
    [|reflexivity].
  by destruct (window_update s "titleBarStyle" (style_name style) e1)
    as [[[]|] e2].
Qed.

(** X24.  [setTitleBarStyle], taken by itself, writes the flag
    [useNativeTitleBar] first and [window.titleBarStyle] second, each only
    if what came before was accepted.  If the flag is rejected nothing else
    happens.  If the flag is accepted and the style rejected the call fails
    without a prompt, with the flag new and the style as it was: the two
    are then out of step, unless the style already was the one asked for.
    If both are accepted the flag is on exactly for [native], the style is
    the one asked for, the user is prompted once, the window is reloaded
    exactly when [Restart Now] is picked, and [applyNativeTitleBarSetting]
    finds nothing left to do. *)
Theorem setTitleBarStyle_writes_flag_then_style
    (s : Services) (style : TitleBarStyle) (e : Editor) :
  let flag := match style with native => true | custom => false end in
  let r := fst (setTitleBarStyle s style e) in
  let e' := snd (setTitleBarStyle s style e) in
  (refuses s "projectLabel" "useNativeTitleBar" = true →
   r = Rejected
   ∧ config (world e') = config (world e) ∧ window e' = window e
   ∧ journal e'
     = journal e ++ [Written "projectLabel" "useNativeTitleBar" false])
  ∧ (refuses s "projectLabel" "useNativeTitleBar" = false →
     refuses s "window" "titleBarStyle" = true →
     r = Rejected
     ∧ projectLabel (config (world e'))
       = <["useNativeTitleBar" := flag]> (projectLabel (config (world e)))
     ∧ (∀ dflt, get_flag e' "useNativeTitleBar" dflt = flag)
     ∧ window e' = window e
     ∧ (window e' !! "titleBarStyle"
        = Some (if get_flag e' "useNativeTitleBar" false
                then "native" else "custom")
        ↔ window e !! "titleBarStyle" = Some (style_name style))
     ∧ journal e'
       = journal e ++ [Written "projectLabel" "useNativeTitleBar" true;
                       Written "window" "titleBarStyle" false])
  ∧ (refuses s "projectLabel" "useNativeTitleBar" = false →
     refuses s "window" "titleBarStyle" = false →
     r = Fulfilled tt
     ∧ projectLabel (config (world e'))
       = <["useNativeTitleBar" := flag]> (projectLabel (config (world e)))
     ∧ window e' = <["titleBarStyle" := style_name style]> (window e)
     ∧ journal e'
       = journal e
         ++ [Written "projectLabel" "useNativeTitleBar" true;
             Written "window" "titleBarStyle" true;
             Prompted
               ("Title bar style set to " +:+ dquote +:+ style_name style
                +:+ dquote +:+ ". A restart is required.")
               ["Restart Now"; "Later"]]
         ++ (if bool_decide (picks s = Some "Restart Now")
             then [Executed "workbench.action.reloadWindow"] else [])
     ∧ ∀ s2, applyNativeTitleBarSetting s2 e' = (Fulfilled tt, e')).
Proof.
  intros flag r e'.
  destruct (projectLabel_update_run s "useNativeTitleBar" flag e)
    as (w1 & t1 & _ & _ & S1 & _ & R1).
  pose proof (setTitleBarStyle_steps s style e) as Hrun. fold flag in Hrun.
  split; [|split].
  - intros Hflag. rewrite Hflag in R1. destruct R1 as [E1 P1].
    rewrite E1 in Hrun. unfold r, e'. rewrite Hrun.
    cbn [fst snd world window journal record with_world].
    split; [reflexivity|]. split; [|done].
    by apply Config_eq.
  - intros Hflag Hstyle. rewrite Hflag in R1. destruct R1 as (E1 & P1 & _).
    rewrite E1 in Hrun.
    destruct (window_update_run s "titleBarStyle" (style_name style)
                (record (Written "projectLabel" "useNativeTitleBar" true)
                   (with_world w1 e))) as (w2 & C2 & E2).
    rewrite Hstyle in E2. rewrite E2 in Hrun.
    cbn [world record with_world] in C2.
    unfold r, e'. rewrite Hrun.
    assert (∀ dflt,
              get_flag
                (record (Written "window" "titleBarStyle" false)
                   (with_world w2
                      (record (Written "projectLabel" "useNativeTitleBar" true)
                         (with_world w1 e))))
                "useNativeTitleBar" dflt = flag) as Hf.
    { intros dflt. unfold get_flag, get_bool.
      cbn [world record with_world].
      by rewrite C2, P1, lookup_insert_eq. }
    cbn [fst snd]. rewrite (Hf false).
    cbn [world window journal record with_world].
    split; [reflexivity|]. rewrite C2, P1, <- app_assoc.
    split; [reflexivity|]. split; [exact Hf|]. split; [reflexivity|].
    split; [|reflexivity]. unfold flag. by destruct style.
  - intros Hflag Hstyle. rewrite Hflag in R1. destruct R1 as (E1 & P1 & _).
    rewrite E1 in Hrun.
    destruct (window_update_run s "titleBarStyle" (style_name style)
                (record (Written "projectLabel" "useNativeTitleBar" true)
                   (with_world w1 e))) as (w2 & C2 & E2).
    rewrite Hstyle in E2. rewrite E2 in Hrun.
    cbn [world window record with_world] in C2, Hrun.
    match type of Hrun with
    | _ = match prompt s ?m ?i ?x with _ => _ end =>
        destruct (prompt_run s m i x) as (w3 & C3 & E3)
    end.
    rewrite E3, restart_if_asked_run in Hrun.
    cbn [world record with_window with_world] in C3.
    unfold r, e'. rewrite Hrun. cbn [fst snd].
    assert (∀ x : Editor,
              window x = <["titleBarStyle" := style_name style]> (window e) →
              config (world x) = config w3 →
              projectLabel (config (world x))
              = <["useNativeTitleBar" := flag]> (projectLabel (config (world e)))
              ∧ ∀ s2, applyNativeTitleBarSetting s2 x = (Fulfilled tt, x))
      as Hok.
    { intros x Hw Hc.
      assert (projectLabel (config (world x))
              = <["useNativeTitleBar" := flag]>
                  (projectLabel (config (world e)))) as Hp
        by (by rewrite Hc, C3, C2, P1).
      split; [exact Hp|]. intros s2.
      apply applyNativeTitleBarSetting_in_step.
      rewrite Hw, lookup_insert_eq. unfold get_flag, get_bool.
      rewrite Hp, lookup_insert_eq. cbn [default]. by destruct style. }
    split; [reflexivity|].
    destruct (bool_decide (picks s = Some "Restart Now"));
      (match goal with
       | |- context [applyNativeTitleBarSetting _ ?x] =>
           destruct (Hok x) as [Hp Hs]; [reflexivity|reflexivity|]
       end);
      (split; [exact Hp|]); (split; [reflexivity|]);
      (split; [|exact Hs]);
      cbn [journal record with_world with_window];
      by rewrite <- ?app_assoc.
Qed.

(** The store takes the flag and refuses the style: the call fails, the
    flag is on, no style is stored, and the two are out of step. *)
Lemma setTitleBarStyle_writes_flag_then_style_witness :
  refuses window_refusing_services "projectLabel" "useNativeTitleBar" = false
  ∧ refuses window_refusing_services "window" "titleBarStyle" = true
  ∧ let e' := snd (setTitleBarStyle window_refusing_services native
                     example_editor) in
    fst (setTitleBarStyle window_refusing_services native example_editor)
    = Rejected
    ∧ get_flag example_editor "useNativeTitleBar" false = false
    ∧ get_flag e' "useNativeTitleBar" false = true
    ∧ window e' !! "titleBarStyle" = None
    ∧ window e' !! "titleBarStyle"
      ≠ Some (if get_flag e' "useNativeTitleBar" false
              then "native" else "custom").
Proof.
  split; [reflexivity|]. split; [reflexivity|].
  destruct (setTitleBarStyle_writes_flag_then_style window_refusing_services
              native example_editor) as (_ & H & _).
  destruct (H eq_refl eq_refl) as (R & _ & F & W & Hiff & _).
  cbv zeta. split; [exact R|]. split; [reflexivity|].
  split; [exact (F false)|]. split; [by rewrite W|].
  intros Hx. apply Hiff in Hx. discriminate Hx.
Defined.

(** ** Generic settings, from the page and back *)

Lemma applySettings_checks st q :
  Forall (λ '(k, b), Webview.checks (Webview.applySettings st q) !! k = Some b)
    [ ("showProjectName", showProjectName st); ("showProfile", showProfile st);
      ("showInStatusBar", showInStatusBar st);
      ("updateWindowTitle", updateWindowTitle st);
      ("useNativeTitleBar", useNativeTitleBar st) ].
Proof.
  cbn [Webview.applySettings Webview.setCheck Webview.checks].
  repeat constructor;
    rewrite ?lookup_insert_ne by done; apply lookup_insert_eq.
Qed.

(** X25.  A generic check box of the page, there and back.  The page posts
    [updateSetting] with the key and the new value; the handler awaits the
    write without a guard.  If the store accepts, the key holds the value,
    the last thing the panel posts is [settingsUpdate] with the settings as
    they now are, at once and not after the debounce delay, and the page
    that received it shows for each of its five check boxes what the store
    holds, for the one that was clicked the value clicked.  If the store
    rejects, the handler fails, the store is as it was, and on an idle
    panel the page is not told. *)
Theorem generic_toggle_round_trip
    (s : Services) (key : string) (checked : bool) (e : Editor)
    (p : Webview.Page) :
  key ∈ SETTING_CHECKBOXES →
  let p1 := fst (setting_changed key checked p) in
  let r := fst (updateSetting s key checked e) in
  let e' := snd (updateSetting s key checked e) in
  let p' := delivered (since (world e) (world e')) p1 in
  snd (setting_changed key checked p) = (key, checked)
  ∧ (refuses s "projectLabel" key = false →
     r = Fulfilled tt
     ∧ projectLabel (config (world e'))
       = <[key := checked]> (projectLabel (config (world e)))
     ∧ (∃ before,
          since (world e) (world e')
          = before ++ [Posted (settingsUpdate
                                 (current_settings (config (world e'))))])
     ∧ Webview.checks p' !! key = Some checked
     ∧ Forall (λ '(k, dflt),
                 Webview.checks p' !! k = Some (get_flag e' k dflt))
         [ ("showProjectName", true); ("showProfile", true);
           ("showInStatusBar", true); ("updateWindowTitle", true);
           ("useNativeTitleBar", false) ])
  ∧ (refuses s "projectLabel" key = true →
     r = Rejected
     ∧ config (world e') = config (world e)
     ∧ (timers (world e) = [] → p' = p1)).
Proof.
  intros Hkey p1 r e' p'. split; [reflexivity|].
  unfold p', r, e', updateSetting.
  destruct (projectLabel_update_run s key checked e)
    as (w' & t & F & T & S & C & R).
  split.
  - intros Hacc. rewrite Hacc in R. destruct R as (E & P & t0 & ->).
    rewrite E. cbn [fst snd world record with_world].
    rewrite (since_app _ _ _ T).
    split; [reflexivity|]. split; [exact P|]. split; [by exists t0|].
    unfold get_flag. cbn [world record with_world].
    rewrite delivered_app. cbn [delivered foldl Webview.on_message].
    pose proof (applySettings_checks (current_settings (config w'))
                  (delivered t0 p1)) as Hchecks.
    assert (Forall (λ '(k, dflt),
                      Webview.checks
                        (Webview.applySettings (current_settings (config w'))
                           (delivered t0 p1)) !! k
                      = Some (get_bool (config w') k dflt))
              [ ("showProjectName", true); ("showProfile", true);
                ("showInStatusBar", true); ("updateWindowTitle", true);
                ("useNativeTitleBar", false) ]) as Hall.
    { cbn [current_settings showProjectName showProfile showInStatusBar
           updateWindowTitle useNativeTitleBar] in Hchecks.
      repeat (apply Forall_cons in Hchecks as [? Hchecks]).
      by repeat constructor. }
    split; [|exact Hall].
    assert (∀ dflt, get_bool (config w') key dflt = checked) as Hget.
    { intros dflt. unfold get_bool. by rewrite P, lookup_insert_eq. }
    rewrite Forall_forall in Hall.
    unfold SETTING_CHECKBOXES in Hkey.
    repeat (apply elem_of_cons in Hkey as [->|Hkey];
            [match goal with
             | |- _ !! ?k = _ =>
                 first [ rewrite (Hall (k, true))
                           by (apply (bool_decide_unpack _); vm_compute;
                               exact I)
                       | rewrite (Hall (k, false))
                           by (apply (bool_decide_unpack _); vm_compute;
                               exact I) ];
                 by rewrite Hget
             end|]).
    by apply elem_of_nil in Hkey.
  - intros Hrej. rewrite Hrej in R. destruct R as (E & P).
    rewrite E. cbn [fst snd world record with_world].
    split; [reflexivity|]. split; [by apply Config_eq|].
    intros Hidle.
    assert (w' = elapse (takes s "projectLabel" key) (world e)) as ->.
    { unfold projectLabel_update in E. rewrite Hrej in E.
      injection E as E. destruct e. cbn in *. congruence. }
    destruct (elapse_idle (takes s "projectLabel" key) (world e) Hidle)
      as (_ & _ & Ht).
    unfold since. rewrite Ht, drop_all. reflexivity.
Qed.

Lemma generic_toggle_round_trip_witness :
  "showProfile" ∈ SETTING_CHECKBOXES
  ∧ let e' := snd (updateSetting example_services "showProfile" false
                     example_editor) in
    Webview.checks
      (delivered (since (world example_editor) (world e'))
         (fst (setting_changed "showProfile" false Webview.loaded)))
      !! "showProfile"
    = Some false.
Proof.
  assert ("showProfile" ∈ SETTING_CHECKBOXES) as Hin.
  { apply (bool_decide_unpack _). vm_compute. exact I. }
  split; [exact Hin|].
  destruct (generic_toggle_round_trip example_services "showProfile" false
              example_editor Webview.loaded Hin) as (_ & Hacc & _).
  by destruct (Hacc eq_refl) as (_ & _ & _ & H & _).
Defined.

(** ** [applyCopilotSilenceSetting] *)

(** X26.  [applyCopilotSilenceSetting] only ever silences.  With the flag
    [silenceCopilotChat] off or unset it does nothing at all; with the flag
    on it is [setCopilotChatSilence(true)].  Either way every write to a
    signal carries [sound: 'off'] and no signal that was off comes back
    on. *)
Theorem applyCopilotSilenceSetting_only_silences (s : Services) (e : Editor) :
  let e' := snd (applyCopilotSilenceSetting s e) in
  (get_flag e "silenceCopilotChat" false = false →
   applyCopilotSilenceSetting s e = (Fulfilled tt, e))
  ∧ (get_flag e "silenceCopilotChat" false = true →
     applyCopilotSilenceSetting s e = setCopilotChatSilence s true e)
  ∧ Forall (λ wr, wr.1.2 = sound_value true)
           (signal_writes (since (world e) (world e')))
  ∧ (∀ k, sound_is_off (signals (config (world e)) !! k) = true →
          sound_is_off (signals (config (world e')) !! k) = true).
Proof.
  intros e'. unfold e', applyCopilotSilenceSetting.
  destruct (get_flag e "silenceCopilotChat" false).
  - split; [done|]. split; [done|].
    destruct (unguarded_loop_run s (sound_value true) COPILOT_CHAT_SIGNALS e)
      as (w1 & t1 & E1 & S1 & P1 & T1 & W1 & G1 & C1).
    assert (∃ w2 t2,
              world (snd (setCopilotChatSilence s true e)) = w2
              ∧ trace w2 = trace (world e) ++ t1 ++ t2
              ∧ signal_writes t2 = []
              ∧ signals (config w2) = signals (config w1))
      as (w2 & t2 & Hw & T2 & W2 & S2).
    { rewrite setCopilotChatSilence_loop, E1.
      destruct (first_rejected (rejects (store s)) COPILOT_CHAT_SIGNALS).
      { exists w1, []. by rewrite app_nil_r. }
      destruct (projectLabel_update_run s "silenceCopilotChat" true
                  (with_world w1 e)) as (w3 & t3 & F3 & T3 & S3 & _ & R3).
      cbn [world with_world] in T3, S3, R3.
      exists w3, t3.
      assert (world (snd (projectLabel_update s "silenceCopilotChat" true
                            (with_world w1 e))) = w3) as Hw3.
      { destruct (refuses s "projectLabel" "silenceCopilotChat").
        - by destruct R3 as [-> _].
        - by destruct R3 as (-> & _). }
      split.
      { destruct (projectLabel_update s "silenceCopilotChat" true
                    (with_world w1 e)) as [[[]|] e3]; exact Hw3. }
      split; [by rewrite T3, T1, app_assoc|].
      split; [by apply posts_no_signal_writes|exact S3]. }
    rewrite Hw, (since_app _ _ _ T2), signal_writes_app, W1, W2, app_nil_r.
    split.
    + apply Forall_app. split.
      * apply Forall_fmap, Forall_true. reflexivity.
      * destruct (first_rejected _ _); by repeat constructor.
    + intros k Hk. rewrite S2, S1. by apply apply_writes_keeps_off.
  - split; [done|]. split; [done|]. cbn [snd].
    unfold since. rewrite drop_all. split; [constructor|done].
Qed.

(** ** The debounced inputs of the page *)

Lemma form_elapse_S ms p :
  Form.elapse (S ms) p = Form.tick (Form.elapse ms p).
Proof. reflexivity. Qed.

Lemma update_of_text el value :
  el ≠ "priority" → Form.update_of el value = (el, Form.Text value).
Proof.
  intros Hel. unfold Form.update_of, Form.is_number.
  by rewrite bool_decide_eq_false_2.
Qed.

(** An edit leaves the timer of its input as the one timer pending, whether
    the page was idle or that timer was pending already. *)
Lemma on_input_arms el value p :
  Form.timers p = [] ∨ (∃ d, Form.armed el d p) →
  Form.armed el 400 (Form.on_input el value p)
  ∧ Form.posted (Form.on_input el value p) = Form.posted p
  ∧ Form.el_value el (Form.on_input el value p) = value.
Proof.
  intros Hp.
  assert (Form.timers
            (Form.clearTimeout (Form.debounceTimers p !! el)
               (Form.with_value el value p)) = []) as Hcl.
  { destruct Hp as [Hidle|(d & t & Ht & Hd)].
    - destruct (Form.debounceTimers p !! el) as [t|]; cbn; rewrite Hidle;
        by rewrite ?filter_nil.
    - rewrite Hd. cbn. rewrite Ht, filter_cons. cbn.
      rewrite decide_False by (intros Hx; by apply Hx).
      by rewrite ?filter_nil. }
  unfold Form.on_input, Form.input_listener.
  change (Form.debounceTimers (Form.with_value el value p))
    with (Form.debounceTimers p).
  set (q := Form.clearTimeout _ _) in *.
  assert (Form.posted q = Form.posted p
          ∧ Form.values q = <[el := value]> (Form.values p)) as [Hpost Hval].
  { unfold q. by destruct (Form.debounceTimers p !! el). }
  split; [|split].
  - exists (Form.next_handle q). cbn. rewrite Hcl. split; [done|].
    by rewrite lookup_insert_eq.
  - exact Hpost.
  - unfold Form.el_value. cbn. by rewrite Hval, lookup_insert_eq.
Qed.

Lemma form_tick_waits el d p :
  Form.armed el (S (S d)) p →
  Form.armed el (S d) (Form.tick p)
  ∧ Form.values (Form.tick p) = Form.values p
  ∧ Form.posted (Form.tick p) = Form.posted p.
Proof.
  intros (t & Ht & Hd). unfold Form.tick. rewrite Ht, !filter_cons. cbn.
  destruct (decide (Form.clock p + S (S d) ≤ S (Form.clock p))) as [Hle|_];
    [lia|].
  destruct (decide (S (Form.clock p) < Form.clock p + S (S d))) as [_|Hn];
    [|lia].
  rewrite ?filter_nil. cbn. split; [|done].
  exists t. cbn. split; [|done]. do 2 f_equal. lia.
Qed.

Lemma form_tick_fires el p :
  Form.armed el 1 p →
  Form.timers (Form.tick p) = []
  ∧ Form.values (Form.tick p) = Form.values p
  ∧ Form.posted (Form.tick p)
    = Form.posted p ++ [Form.update_of el (Form.el_value el p)].
Proof.
  intros (t & Ht & Hd). unfold Form.tick. rewrite Ht, !filter_cons. cbn.
  destruct (decide (Form.clock p + 1 ≤ S (Form.clock p))) as [_|Hn]; [|lia].
  destruct (decide (S (Form.clock p) < Form.clock p + 1)) as [Hlt|_]; [lia|].
  by rewrite ?filter_nil.
Qed.

Lemma form_tick_idle p :
  Form.timers p = [] →
  Form.timers (Form.tick p) = []
  ∧ Form.values (Form.tick p) = Form.values p
  ∧ Form.posted (Form.tick p) = Form.posted p.
Proof. intros Ht. unfold Form.tick. by rewrite Ht, ?filter_nil. Qed.

(** The timer of an input fires exactly when its delay has passed, and
    sends the value the input has. *)
Lemma form_elapse_armed el D ms p :
  Form.armed el (S D) p →
  Form.values (Form.elapse ms p) = Form.values p
  ∧ (ms ≤ D → Form.armed el (S D - ms) (Form.elapse ms p)
              ∧ Form.posted (Form.elapse ms p) = Form.posted p)
  ∧ (D < ms → Form.timers (Form.elapse ms p) = []
              ∧ Form.posted (Form.elapse ms p)
                = Form.posted p ++ [Form.update_of el (Form.el_value el p)]).
Proof.
  intros Ha. induction ms as [|ms (IHv & IHw & IHf)].
  - split; [done|]. split; [|lia]. intros _. by rewrite Nat.sub_0_r.
  - rewrite form_elapse_S. set (q := Form.elapse ms p) in *.
    destruct (decide (ms < D)) as [Hlt|Hge].
    + destruct IHw as [Harm Hpost]; [lia|].
      replace (S D - ms) with (S (S (D - S ms))) in Harm by lia.
      destruct (form_tick_waits _ _ q Harm) as (T1 & T2 & T3).
      split; [congruence|]. split; [|lia]. intros _.
      replace (S D - S ms) with (S (D - S ms)) by lia.
      split; [done|congruence].
    + destruct (decide (ms = D)) as [->|Hne].
      * destruct IHw as [Harm Hpost]; [lia|].
        replace (S D - D) with 1 in Harm by lia.
        destruct (form_tick_fires _ q Harm) as (T1 & T2 & T3).
        split; [congruence|]. split; [lia|]. intros _.
        split; [done|]. rewrite T3, Hpost. unfold Form.el_value.
        by rewrite IHv.
      * destruct IHf as [Hidle Hpost]; [lia|].
        destruct (form_tick_idle q Hidle) as (T1 & T2 & T3).
        split; [congruence|]. split; [lia|]. intros _.
        split; [done|congruence].
Qed.

Lemma last_typed_cons first gap value edits :
  Form.last_typed first ((gap, value) :: edits) = Form.last_typed value edits.
Proof.
  unfold Form.last_typed. cbn [fmap list_fmap snd].
  change (last (first :: value :: (snd <$> edits)))
    with (last (value :: (snd <$> edits))).
  by destruct (last (value :: (snd <$> edits))) eqn:Hl;
    [|apply last_None in Hl].
Qed.

(** Edits that follow each other within the delay keep the timer pending
    and send nothing. *)
Lemma typing_keeps_armed el edits : ∀ p value,
  Forall (λ e, fst e < 400) edits →
  Form.armed el 400 p →
  Form.el_value el p = value →
  Form.armed el 400 (Form.typing el edits p)
  ∧ Form.posted (Form.typing el edits p) = Form.posted p
  ∧ Form.el_value el (Form.typing el edits p) = Form.last_typed value edits.
Proof.
  induction edits as [|[gap v] edits IH]; intros p value Hgaps Ha Hv.
  - cbn. by rewrite Hv.
  - apply Forall_cons in Hgaps as [Hgap Hgaps]. cbn in Hgap.
    cbn [Form.typing]. rewrite last_typed_cons.
    destruct (form_elapse_armed el 399 gap p Ha) as (_ & Hw & _).
    destruct Hw as [Harm Hpost]; [lia|].
    destruct (on_input_arms el v (Form.elapse gap p)) as (A1 & A2 & A3);
      [right; by eexists|].
    destruct (IH _ v Hgaps A1 A3) as (B1 & B2 & B3).
    split; [done|]. split; [congruence|done].
Qed.

(** X27.  Typing into a text or number input of the page is debounced.  On
    a page with no timer pending, a first edit and any edits to the same
    input that follow, each less than 400 ms after the one before, send
    nothing while they last and nothing in the 400 ms after the last of
    them; once 400 ms have passed, exactly one [updateSetting] has been
    sent, with the key of the input and the value it has after the last
    edit, and no timer is pending. *)
Theorem typing_sends_the_last_value
    (el first : string) (edits : list (nat * string)) (quiet : nat)
    (p : Form.Page) :
  Form.timers p = [] →
  Forall (λ e, fst e < 400) edits →
  let p' := Form.typing el edits (Form.on_input el first p) in
  Form.posted p' = Form.posted p
  ∧ (quiet < 400 → Form.posted (Form.elapse quiet p') = Form.posted p)
  ∧ (400 ≤ quiet →
     Form.posted (Form.elapse quiet p')
     = Form.posted p ++ [Form.update_of el (Form.last_typed first edits)]
     ∧ Form.timers (Form.elapse quiet p') = []).
Proof.
  intros Hidle Hgaps p'.
  destruct (on_input_arms el first p) as (A1 & A2 & A3); [by left|].
  destruct (typing_keeps_armed el edits _ first Hgaps A1 A3) as (B1 & B2 & B3).
  fold p' in B1, B2, B3.
  destruct (form_elapse_armed el 399 quiet p' B1) as (_ & Hw & Hf).
  split; [congruence|]. split.
  - intros Hq. destruct Hw as [_ Hpost]; [lia|]. congruence.
  - intros Hq. destruct Hf as [Ht Hpost]; [lia|].
    split; [|done]. by rewrite Hpost, B2, A2, B3.
Qed.

Lemma typing_sends_the_last_value_witness :
  Form.timers Form.loaded = []
  ∧ Forall (λ e, fst e < 400) [(120, "My Pro"); (399, "My Project")]
  ∧ Form.posted
      (Form.elapse 400
         (Form.typing "customLabel" [(120, "My Pro"); (399, "My Project")]
            (Form.on_input "customLabel" "My" Form.loaded)))
    = [("customLabel", Form.Text "My Project")].
Proof.
  split; [reflexivity|].
  split; [repeat constructor; simpl; lia|].
  apply (typing_sends_the_last_value "customLabel" "My"
           [(120, "My Pro"); (399, "My Project")] 400 Form.loaded).
  - reflexivity.
  - repeat constructor; simpl; lia.
  - lia.
Defined.

Lemma setValue_keeps_armed el id val d p :
  Form.armed el d p →
  Form.armed el d (Form.setValue id val p)
  ∧ Form.posted (Form.setValue id val p) = Form.posted p
  ∧ Form.el_value id (Form.setValue id val p) = Form.strip_line_breaks val.
Proof.
  intros Ha. split; [exact Ha|]. split; [done|].
  unfold Form.el_value. cbn. by rewrite lookup_insert_eq.
Qed.

(** X28.  What a debounce timer sends is the value its input has when the
    timer fires, not the value that was typed.  When [setValue] writes a
    text input less than 400 ms after an edit to it, as [applySettings] does
    for every [settingsUpdate], the timer of the edit stays pending, and the
    one [updateSetting] it sends carries the value written (less its line
    breaks): the typed value is never sent. *)
Theorem pending_edit_is_overwritten
    (el typed stored : string) (d quiet : nat) (p : Form.Page) :
  Form.timers p = [] →
  el ≠ "priority" →
  d < 400 →
  400 - d ≤ quiet →
  Form.posted
    (Form.elapse quiet
       (Form.setValue el stored (Form.elapse d (Form.on_input el typed p))))
  = Form.posted p ++ [(el, Form.Text (Form.strip_line_breaks stored))].
Proof.
  intros Hidle Hel Hd Hq.
  destruct (on_input_arms el typed p) as (A1 & A2 & A3); [by left|].
  destruct (form_elapse_armed el 399 d _ A1) as (_ & Hw & _).
  destruct Hw as [Harm Hpost]; [lia|].
  destruct (setValue_keeps_armed el el stored _ _ Harm) as (B1 & B2 & B3).
  replace (400 - d) with (S (399 - d)) in B1 by lia.
  destruct (form_elapse_armed el _ quiet _ B1) as (_ & _ & Hf).
  destruct Hf as [_ Hsent]; [lia|].
  rewrite Hsent, B2, Hpost, A2, B3. by rewrite update_of_text.
Qed.

Lemma pending_edit_is_overwritten_witness :
  Form.timers Form.loaded = []
  ∧ "customLabel" ≠ "priority"
  ∧ 100 < 400
  ∧ 400 - 100 ≤ 300
  ∧ Form.posted
      (Form.elapse 300
         (Form.setValue "customLabel" "ab"
            (Form.elapse 100 (Form.on_input "customLabel" "abc" Form.loaded))))
    = [("customLabel", Form.Text "ab")].
Proof.
  split; [reflexivity|]. split; [discriminate|]. split; [lia|].
  split; [lia|].
  apply (pending_edit_is_overwritten "customLabel" "abc" "ab" 100 300
           Form.loaded).
  - reflexivity.
  - discriminate.
  - lia.
  - lia.
Defined.

(** X29.  The colour picker is not debounced and does not cancel the timer
    of the text input beside it.  Picking a colour less than 400 ms after an
    edit to the text input sends the picked colour at once, and the timer of
    the edit sends it a second time when it fires: the page sends the picked
    colour twice and the typed text never. *)
Theorem picked_colour_is_sent_twice
    (typed colour : string) (d quiet : nat) (p : Form.Page) :
  Form.timers p = [] →
  Form.strip_line_breaks colour = colour →
  d < 400 →
  400 - d ≤ quiet →
  let picked :=
    Form.colorPicker_input colour
      (Form.elapse d (Form.on_input "color" typed p)) in
  Form.posted picked = Form.posted p ++ [("color", Form.Text colour)]
  ∧ Form.posted (Form.elapse quiet picked)
    = Form.posted p
      ++ [("color", Form.Text colour); ("color", Form.Text colour)].
Proof.
  intros Hidle Hline Hd Hq picked.
  destruct (on_input_arms "color" typed p) as (A1 & A2 & A3); [by left|].
  destruct (form_elapse_armed "color" 399 d _ A1) as (_ & Hw & _).
  destruct Hw as [Harm Hpost]; [lia|].
  destruct (setValue_keeps_armed "color" "color" colour _ _ Harm)
    as (B1 & B2 & B3).
  change (Form.setValue "color" colour) with (Form.assign "color" colour)
    in B1, B2, B3.
  assert (Form.posted picked = Form.posted p ++ [("color", Form.Text colour)])
    as Hpicked.
  { unfold picked, Form.colorPicker_input. cbn [Form.sendUpdate Form.posted].
    by rewrite B2, Hpost, A2. }
  split; [exact Hpicked|].
  assert (Form.armed "color" (S (399 - d)) picked) as Hp.
  { replace (S (399 - d)) with (400 - d) by lia. exact B1. }
  destruct (form_elapse_armed "color" _ quiet _ Hp) as (_ & _ & Hf).
  destruct Hf as [_ Hsent]; [lia|].
  rewrite Hsent, Hpicked, <- app_assoc.
  replace (Form.el_value "color" picked) with colour; [done|].
  symmetry. etrans; [exact B3|exact Hline].
Qed.

Lemma picked_colour_is_sent_twice_witness :
  Form.timers Form.loaded = []
  ∧ Form.strip_line_breaks "#b87333" = "#b87333"
  ∧ 100 < 400
  ∧ 400 - 100 ≤ 300
  ∧ Form.posted
      (Form.elapse 300
         (Form.colorPicker_input "#b87333"
            (Form.elapse 100 (Form.on_input "color" "#b8" Form.loaded))))
    = [("color", Form.Text "#b87333"); ("color", Form.Text "#b87333")].
Proof.
  split; [reflexivity|]. split; [reflexivity|]. split; [lia|].
  split; [lia|].
  apply (picked_colour_is_sent_twice "#b8" "#b87333" 100 300 Form.loaded).
  - reflexivity.
  - reflexivity.
  - lia.
  - lia.
Defined.
